(** * Weblate: bulk project import and add-on forms

    A shallow embedding of

      - [weblate/trans/management/commands/import_project.py]
        (the [import_project] management command), and
      - [weblate/addons/forms.py] (the add-on configuration forms),

    together with the Python built-ins and library functions the two files
    call ([str.replace], [fnmatch.translate], [re.escape], the fragment of
    [re] that mask-derived expressions live in).

    Python strings are lists of characters; dictionaries keyed by field
    names are [gmap string _]; the database tables are lists of records;
    exceptions are an error type threaded through a state-and-error monad. *)

From Stdlib Require Import Ascii String List Arith Lia Bool ZArith.
From stdpp Require Import base option list gmap strings sorting.

Import ListNotations.
Local Open Scope list_scope.

(** ** Python strings *)

(** A Python [str]: a sequence of characters. *)
Abbreviation str := (list ascii).

(** A literal, written as a Rocq string. *)
Abbreviation py s := (list_ascii_of_string s%string) (only parsing).

Module Py.

(** [s.startswith(p)] *)
Fixpoint startswith (p s : str) : bool :=
  match p, s with
  | [], _ => true
  | _ :: _, [] => false
  | a :: p', b :: s' => if ascii_dec a b then startswith p' s' else false
  end.

(** [sub in s] *)
Fixpoint contains (sub s : str) : bool :=
  startswith sub s ||
  match s with
  | [] => false
  | _ :: s' => contains sub s'
  end.

(** The optional [count] argument of [str.replace]: [None] is "no limit". *)
Definition may_replace (count : option nat) : bool :=
  match count with
  | Some O => false
  | _ => true
  end.

Definition one_less (count : option nat) : option nat :=
  match count with
  | Some n => Some (pred n)
  | None => None
  end.

(** The left-to-right scan of [str.replace] for a non-empty [old]:
    at each position either [old] starts here (and replacements are
    left), in which case [new] is emitted and the scan resumes after the
    occurrence, or the character is copied.  [skip] counts the characters
    of a replaced occurrence that are still to be passed over. *)
Fixpoint replace_scan (old new : str) (count : option nat) (skip : nat)
         (s : str) : str :=
  match s with
  | [] => []
  | c :: s' =>
      match skip with
      | S k => replace_scan old new count k s'
      | O =>
          if may_replace count && startswith old s
          then new ++ replace_scan old new (one_less count) (pred (length old)) s'
          else c :: replace_scan old new count 0 s'
      end
  end.

(** With an empty [old], Python inserts [new] before every character
    and at the end (as many times as [count] allows). *)
Fixpoint replace_empty (new : str) (count : option nat) (s : str) : str :=
  if may_replace count then
    match s with
    | [] => new
    | c :: s' => new ++ c :: replace_empty new (one_less count) s'
    end
  else s.

(** [s.replace(old, new)] and [s.replace(old, new, count)] *)
Definition replace_count (old new : str) (count : option nat) (s : str) : str :=
  match old with
  | [] => replace_empty new count s
  | _ :: _ => replace_scan old new count 0 s
  end.

Definition replace (old new s : str) : str := replace_count old new None s.

Definition replace_n (old new : str) (n : nat) (s : str) : str :=
  replace_count old new (Some n) s.

(** [s.count(sub)]: the occurrences of [sub] that do not overlap, from
    the left. *)
Fixpoint count_scan (sub : str) (skip : nat) (s : str) : nat :=
  match s with
  | [] => 0
  | _ :: s' =>
      match skip with
      | S k => count_scan sub k s'
      | O => if startswith sub s
             then S (count_scan sub (pred (length sub)) s')
             else count_scan sub 0 s'
      end
  end.

Definition count (sub s : str) : nat :=
  match sub with
  | [] => S (length s)
  | _ :: _ => count_scan sub 0 s
  end.

(** [c.isalnum()] restricted to ASCII, plus the underscore: the set
    [_alphanum_str] of the [re] module. *)
Definition is_alnum_ (c : ascii) : bool :=
  let n := nat_of_ascii c in
  ((48 <=? n) && (n <=? 57)) || ((65 <=? n) && (n <=? 90))
  || ((97 <=? n) && (n <=? 122)) || (n =? 95).

(** [s[:k]] for any integer [k]: a negative bound counts from the end. *)
Definition slice_to (k : Z) (s : str) : str :=
  if (0 <=? k)%Z then firstn (Z.to_nat k) s
  else firstn (length s - Z.to_nat (- k)) s.

(** [s.strip(chars)] for a single character. *)
Fixpoint lstrip (c : ascii) (s : str) : str :=
  match s with
  | x :: s' => if ascii_dec x c then lstrip c s' else s
  | [] => []
  end.

Definition strip (c : ascii) (s : str) : str :=
  rev (lstrip c (rev (lstrip c s))).

(** ['{0:03d}'.format(i)]: decimal, zero-padded to three digits. *)
Definition digit (n : nat) : ascii := ascii_of_nat (48 + n mod 10).

Fixpoint decimal (fuel n : nat) (acc : str) : str :=
  match fuel with
  | O => acc
  | S f => if n <? 10 then digit n :: acc
           else decimal f (n / 10) (digit n :: acc)
  end.

Definition format_03d (i : nat) : str :=
  let d := decimal (S i) i [] in
  repeat "0"%char (3 - length d) ++ d.

(** Truthiness of a string and of an optional string. *)
Definition truthy (s : str) : bool :=
  match s with [] => false | _ :: _ => true end.

Definition truthy_opt (o : option str) : bool :=
  match o with Some s => truthy s | None => false end.

(** Truthiness of a list. *)
Definition truthy_list {A : Type} (l : list A) : bool :=
  match l with [] => false | _ :: _ => true end.

(** Comparison of strings by code point, the order [sorted] uses. *)
Fixpoint str_leb (a b : str) : bool :=
  match a, b with
  | [], _ => true
  | _ :: _, [] => false
  | x :: a', y :: b' =>
      match Nat.compare (nat_of_ascii x) (nat_of_ascii y) with
      | Lt => true
      | Gt => false
      | Eq => str_leb a' b'
      end
  end.

Definition str_le (a b : str) : Prop := str_leb a b = true.

(** [sorted(l)] for strings, by insertion. *)
Fixpoint insert_sorted (x : str) (l : list str) : list str :=
  match l with
  | [] => [x]
  | y :: l' => if str_leb x y then x :: l else y :: insert_sorted x l'
  end.

Definition sorted (l : list str) : list str :=
  fold_right insert_sorted [] l.

(** [s.add(x)] on a set kept as a list without repetitions. *)
Definition set_add {A : Type} `{EqDecision A} (x : A) (s : list A) : list A :=
  if bool_decide (x ∈ s) then s else s ++ [x].

(** [l.remove(x)]: the first occurrence goes. *)
Fixpoint list_remove {A : Type} `{EqDecision A} (x : A) (l : list A) : list A :=
  match l with
  | [] => []
  | y :: l' => if decide (y = x) then l' else y :: list_remove x l'
  end.

End Py.

(** ** [re.escape] and [fnmatch.translate] (CPython 3.6) *)

Module Fnmatch.

(** [re.escape(c)] for one character: alphanumerics and the underscore
    stand for themselves, NUL becomes an octal escape, every other
    character is preceded by a backslash. *)
Definition escape (c : ascii) : str :=
  if Py.is_alnum_ c then [c]
  else if ascii_dec c zero then py "\000"
  else "\"%char :: [c].

Fixpoint index_of (c : ascii) (s : str) : option nat :=
  match s with
  | [] => None
  | x :: s' => if ascii_dec x c then Some 0 else option_map S (index_of c s')
  end.

(** The search for the bracket that closes a character class; [rest] is
    the pattern after the opening bracket.  A leading [!] and a [[]]
    right after it do not close the class. *)
Definition bracket_end (rest : str) : option nat :=
  let j0 := match rest with
            | "!"%char :: _ => 1
            | _ => 0
            end in
  let j1 := match nth_error rest j0 with
            | Some "]"%char => S j0
            | _ => j0
            end in
  option_map (Nat.add j1) (index_of "]"%char (skipn j1 rest)).

(** The text of a class, as it is copied into the expression. *)
Definition class_text (stuff : str) : str :=
  let stuff := Py.replace (py "\") (py "\\") stuff in
  match stuff with
  | "!"%char :: tl => "^"%char :: tl
  | "^"%char :: _ => "\"%char :: stuff
  | _ => stuff
  end.

(** The loop of [translate]: [skip] is the number of characters of a
    character class still to be passed over. *)
Fixpoint translate_scan (skip : nat) (pat : str) : str :=
  match pat with
  | [] => []
  | c :: rest =>
      match skip with
      | S k => translate_scan k rest
      | O =>
          if ascii_dec c "*" then py ".*" ++ translate_scan 0 rest
          else if ascii_dec c "?" then py "." ++ translate_scan 0 rest
          else if ascii_dec c "[" then
            match bracket_end rest with
            | None => py "\[" ++ translate_scan 0 rest
            | Some j =>
                py "[" ++ class_text (firstn j rest) ++ py "]"
                  ++ translate_scan (S j) rest
            end
          else escape c ++ translate_scan 0 rest
      end
  end.

(** [fnmatch.translate(pat)] *)
Definition translate (pat : str) : str :=
  py "(?s:" ++ translate_scan 0 pat ++ py ")\Z".

End Fnmatch.


(** ** The fragment of [re] that mask-derived expressions use

    [re.compile] and [Pattern.match] are modelled for expressions of the
    shape [(?s:] items [)\Z], where an item is a literal character (plain
    or backslash-escaped), a dot, a named group around [.*], or a
    back-reference to a named group.  Matching is the backtracking search
    of the [re] module: a greedy [.*] tries the longest candidate first. *)

Module Re.

Inductive item : Type :=
| Char (c : ascii)
| Any
| Group (g : str)
| Backref (g : str).

(** The values of the groups that took part in a match, latest first. *)
Abbreviation groups := (list (str * str)).

Fixpoint lookup (g : str) (e : groups) : option str :=
  match e with
  | [] => None
  | (k, v) :: e' => if decide (k = g) then Some v else lookup g e'
  end.

Fixpoint first_some {A B : Type} (f : A -> option B) (l : list A) : option B :=
  match l with
  | [] => None
  | a :: l' => match f a with
               | Some b => Some b
               | None => first_some f l'
               end
  end.

(** The lengths a greedy [.*] tries on [s]: all of [s] first, then less. *)
Definition greedy (s : str) : list nat := rev (seq 0 (S (length s))).

(** [match_items r e s]: the items [r] followed by the end of the
    string, against [s], the groups matched so far being [e]. *)
Fixpoint match_items (r : list item) (e : groups) (s : str) : option groups :=
  match r with
  | [] => match s with
          | [] => Some e
          | _ :: _ => None
          end
  | Char c :: r' =>
      match s with
      | x :: s' => if ascii_dec x c then match_items r' e s' else None
      | [] => None
      end
  | Any :: r' =>
      match s with
      | _ :: s' => match_items r' e s'
      | [] => None
      end
  | Group g :: r' =>
      first_some
        (fun k => match_items r' ((g, firstn k s) :: e) (skipn k s))
        (greedy s)
  | Backref g :: r' =>
      match lookup g e with
      | Some v =>
          if Py.startswith v s then match_items r' e (skipn (length v) s)
          else None
      | None => None
      end
  end.

(** *** Parsing *)

Definition strip_prefix (p s : str) : option str :=
  if Py.startswith p s then Some (skipn (length p) s) else None.

(** The characters with a meaning of their own in an expression. *)
Definition is_special (c : ascii) : bool :=
  Py.contains [c] (py ".^$*+?{}[]\|()").

Definition is_digit (c : ascii) : bool :=
  let n := nat_of_ascii c in (48 <=? n) && (n <=? 57).

(** A group name is an identifier. *)
Definition valid_name (g : str) : bool :=
  match g with
  | [] => false
  | c :: _ => negb (is_digit c) && forallb Py.is_alnum_ g
  end.

(** The text before the first [stop], and the text after it. *)
Fixpoint read_until (stop : ascii) (s : str) : option (str * str) :=
  match s with
  | [] => None
  | c :: s' =>
      if ascii_dec c stop then Some ([], s')
      else match read_until stop s' with
           | Some (g, rest) => Some (c :: g, rest)
           | None => None
           end
  end.

Definition cons_item (i : item) (r : option (list item)) : option (list item) :=
  match r with
  | Some l => Some (i :: l)
  | None => None
  end.

(** One item per step; [fuel] bounds the number of items (the length of
    the text is enough).  [None]: the text is not in the fragment. *)
Fixpoint parse (fuel : nat) (s : str) : option (list item) :=
  match s with
  | [] => Some []
  | c :: s' =>
      match fuel with
      | O => None
      | S f =>
          match strip_prefix (py "(?P<") s with
          | Some s1 =>
              match read_until ">" s1 with
              | Some (g, s2) =>
                  match strip_prefix (py ".*)") s2 with
                  | Some s3 =>
                      if valid_name g then cons_item (Group g) (parse f s3)
                      else None
                  | None => None
                  end
              | None => None
              end
          | None =>
              match strip_prefix (py "(?P=") s with
              | Some s1 =>
                  match read_until ")" s1 with
                  | Some (g, s2) =>
                      if valid_name g then cons_item (Backref g) (parse f s2)
                      else None
                  | None => None
                  end
              | None =>
                  match strip_prefix (py "\000") s with
                  | Some s1 => cons_item (Char zero) (parse f s1)
                  | None =>
                      if ascii_dec c "\" then
                        match s' with
                        | x :: s1 =>
                            if Py.is_alnum_ x then None
                            else cons_item (Char x) (parse f s1)
                        | [] => None
                        end
                      else if ascii_dec c "." then cons_item Any (parse f s')
                      else if is_special c then None
                      else cons_item (Char c) (parse f s')
                  end
              end
          end
      end
  end.

(** The names of the groups an expression defines, in order. *)
Fixpoint group_names (r : list item) : list str :=
  match r with
  | [] => []
  | Group g :: r' => g :: group_names r'
  | _ :: r' => group_names r'
  end.

(** [re.compile] refuses a group name defined twice and a
    back-reference to a group that is not defined before it. *)
Fixpoint names_ok (defined : list str) (r : list item) : bool :=
  match r with
  | [] => true
  | Group g :: r' =>
      negb (bool_decide (g ∈ defined)) && names_ok (g :: defined) r'
  | Backref g :: r' => bool_decide (g ∈ defined) && names_ok defined r'
  | _ :: r' => names_ok defined r'
  end.

(** A compiled pattern, as far as the command uses one: the names in
    [groupindex], and [match], which gives the values of the groups that
    took part when the expression matches. *)
Record Pattern : Type := {
  groupindex : list str;
  exec : str -> option groups
}.

Definition of_items (r : list item) : Pattern :=
  {| groupindex := group_names r; exec := match_items r [] |}.

Definition strip_suffix (p s : str) : option str :=
  option_map (@rev ascii) (strip_prefix (rev p) (rev s)).

(** The items of [(?s:] items [)\Z]; a group name defined twice or a
    reference to an undefined group is refused. *)
Definition compile_items (s : str) : option (list item) :=
  match strip_prefix (py "(?s:") s with
  | Some body =>
      match strip_suffix (py ")\Z") body with
      | Some inner =>
          match parse (length inner) inner with
          | Some r => if names_ok [] r then Some r else None
          | None => None
          end
      | None => None
      end
  | None => None
  end.

(** [re.compile(s)]; [None] stands for [re.error] (or for an expression
    outside the fragment). *)
Definition compile (s : str) : option Pattern :=
  option_map of_items (compile_items s).

(** [m.group(g)] for a match [m] of pattern [p]: an [IndexError] for a
    name the pattern does not define ([None]), otherwise the value, which
    is Python's [None] for a group that took no part. *)
Definition group (p : Pattern) (m : groups) (g : str) : option (option str) :=
  if bool_decide (g ∈ groupindex p) then Some (lookup g m) else None.

End Re.

(** ** The data model of the importer *)

(** A row of the component table ([weblate.trans.models.SubProject]), with
    the fields the command passes to [SubProject.objects.create].  An
    optional field left out of the call is [None]. *)
Module SubProject.
Record t : Type := {
  name : str;
  slug : str;
  project : str;              (* the slug of the owning project *)
  repo : str;
  push : option str;
  branch : str;
  template : str;
  filemask : str;
  file_format : str;
  vcs : str;
  push_on_commit : bool;
  license : option str;
  license_url : option str;
  language_regex : option str
}.
End SubProject.

(** A row of the project table. *)
Module Project.
Record t : Type := {
  slug : str;
  full_path : str
}.
End Project.

(** The command line, as [handle] receives it in [options]. *)
Module Options.
Record t : Type := {
  name_template : str;
  component_regexp : option str;
  base_file_template : str;
  file_format : str;
  language_regex : option str;
  duplicates : bool;
  license : option str;
  license_url : option str;
  vcs : str;
  push_url : str;
  push_url_same : bool;
  push_on_commit : bool;
  main_component : option str;
  project : str;
  repo : str;
  branch : str;
  filemask : str
}.
End Options.

(** A directory on disk: its path, its permission bits and the files of
    the working copy below it, as paths relative to it. *)
Module Dir.
Record t : Type := {
  path : str;
  mode : nat;
  files : list str
}.
End Dir.

Inductive level : Type := INFO | WARNING.

(** What the command reads and changes: the disk, the component table and
    the log; the project and language tables are only read. *)
Record World : Type := {
  dirs : list Dir.t;
  components : list SubProject.t;
  projects : list Project.t;
  languages : list str;
  log : list (level * str)
}.

(** Exceptions. *)
Inductive exn : Type :=
| CommandError (msg : str)
| IndexError
| TypeError
| OSError
| ReError
| RepositoryError.

Inductive result (A : Type) : Type :=
| Ok (a : A)
| Raise (e : exn).
Arguments Ok {A} a.
Arguments Raise {A} e.

(** The collaborators the command treats as black boxes. *)
Class Platform : Type := {
  (** [django.utils.text.slugify] *)
  slugify : str -> str;
  (** [template % match] for a string [match]; [None] when Python raises *)
  percent : str -> str -> option str;
  (** [re.compile(s, re.MULTILINE | re.DOTALL)]: the pattern, or the
      message of [re.error] *)
  re_compile_flags : str -> Re.Pattern + str;
  (** [glob.glob] on a disk *)
  glob : list Dir.t -> str -> list str;
  (** [weblate.trans.util.path_separator] and [is_repo_link] *)
  path_separator : str -> str;
  is_repo_link : str -> bool;
  (** the name [tempfile.mkdtemp(dir=parent)] picks on a disk *)
  mkdtemp_name : list Dir.t -> str -> str;
  (** [VCS_REGISTRY[vcs].clone(repo, workdir)]: the files of the new
      working copy, [None] when cloning fails *)
  clone : str -> str -> option (list str);
  (** [gitrepo.configure_branch(branch)] on a working copy *)
  configure_branch : str -> str -> list str -> option (list str);
  (** the keys of [FILE_FORMATS] and of [VCS_REGISTRY] *)
  FILE_FORMATS : list str;
  VCS_REGISTRY : list str;
  (** [max_length] of the [slug] and [name] fields of [SubProject] *)
  slug_max_length : Z;
  name_max_length : Z;
  (** [SubProject.objects.get_linked(link)] and [SubProject.full_path] *)
  get_linked : list SubProject.t -> str -> option SubProject.t;
  subproject_full_path : list Project.t -> SubProject.t -> str
}.

(** The double quote, which error messages contain. *)
Definition dq : ascii := ascii_of_nat 34.

(** ['%d' % n] *)
Definition format_d (n : nat) : str := Py.decimal (S n) n [].

(** [os.path.join(a, b)] on POSIX. *)
Definition os_path_join (a b : str) : str :=
  if Py.startswith (py "/") b then b
  else match a with
       | [] => b
       | _ :: _ => if Py.startswith (py "/") (rev a) then a ++ b
                   else a ++ py "/" ++ b
       end.

(** ** [import_project.Command] *)

Module ImportProject.

(** The attributes of the command object that [parse_options] assigns. *)
Record Command : Type := {
  filemask : str;
  component_re : option Re.Pattern;
  file_format : str;
  language_regex : option str;
  license : option str;
  license_url : option str;
  main_component : option str;
  name_template : str;
  base_file_template : str;
  vcs : str;
  push_url : str;
  push_on_commit : bool;
  _mask_regexp : option Re.Pattern
}.

Definition set_mask_regexp (p : Re.Pattern) (c : Command) : Command :=
  {| filemask := filemask c; component_re := component_re c;
     file_format := file_format c; language_regex := language_regex c;
     license := license c; license_url := license_url c;
     main_component := main_component c; name_template := name_template c;
     base_file_template := base_file_template c; vcs := vcs c;
     push_url := push_url c; push_on_commit := push_on_commit c;
     _mask_regexp := Some p |}.

(** The state a method runs in: the command object and the world. *)
Record State : Type := {
  self : Command;
  world : World
}.

(** A method: it returns or raises, and leaves a state either way
    (nothing is rolled back when an exception escapes). *)
Definition M (A : Type) : Type := State -> result A * State.

Definition ret {A : Type} (a : A) : M A := fun st => (Ok a, st).

Definition raise {A : Type} (e : exn) : M A := fun st => (Raise e, st).

Definition bind {A B : Type} (m : M A) (k : A -> M B) : M B :=
  fun st =>
    match m st with
    | (Ok a, st') => k a st'
    | (Raise e, st') => (Raise e, st')
    end.

Notation "x <- m ;; k" := (bind m (fun x => k))
  (at level 100, m at next level, right associativity).
Notation "m ;;; k" := (bind m (fun _ => k))
  (at level 100, right associativity).

Definition get_self : M Command := fun st => (Ok (self st), st).

Definition get_world : M World := fun st => (Ok (world st), st).

Definition put_self (c : Command) : M unit :=
  fun st => (Ok tt, {| self := c; world := world st |}).

Definition put_world (w : World) : M unit :=
  fun st => (Ok tt, {| self := self st; world := w |}).

(** [for x in l: body(x)] *)
Fixpoint for_each {A : Type} (l : list A) (body : A -> M unit) : M unit :=
  match l with
  | [] => ret tt
  | x :: l' => body x ;;; for_each l' body
  end.

(** *** The world's primitives *)

Definition with_dirs (d : list Dir.t) (w : World) : World :=
  {| dirs := d; components := components w; projects := projects w;
     languages := languages w; log := log w |}.

Definition with_components (c : list SubProject.t) (w : World) : World :=
  {| dirs := dirs w; components := c; projects := projects w;
     languages := languages w; log := log w |}.

Definition with_log (l : list (level * str)) (w : World) : World :=
  {| dirs := dirs w; components := components w; projects := projects w;
     languages := languages w; log := l |}.

(** [self.logger.info(...)] and [self.logger.warning(...)] *)
Definition logger (lv : level) (msg : str) : M unit :=
  w <- get_world ;; put_world (with_log (log w ++ [(lv, msg)]) w).

Definition dir_exists (p : str) (d : list Dir.t) : bool :=
  existsb (fun x => bool_decide (Dir.path x = p)) d.

Definition find_dir (p : str) (d : list Dir.t) : option Dir.t :=
  find (fun x => bool_decide (Dir.path x = p)) d.

Definition remove_dir (p : str) (d : list Dir.t) : list Dir.t :=
  List.filter (fun x => negb (bool_decide (Dir.path x = p))) d.

(** [shutil.rmtree(p)] *)
Definition rmtree (p : str) : M unit :=
  w <- get_world ;;
  if dir_exists p (dirs w) then put_world (with_dirs (remove_dir p (dirs w)) w)
  else raise OSError.

(** [os.rename(src, dst)] for directories: the source must exist, and a
    directory already at the destination must be empty. *)
Definition rename (src dst : str) : M unit :=
  w <- get_world ;;
  match find_dir src (dirs w) with
  | None => raise OSError
  | Some d =>
      let blocked := match find_dir dst (dirs w) with
                     | Some t => Py.truthy_list (Dir.files t)
                     | None => false
                     end in
      if blocked then raise OSError
      else
        let moved := {| Dir.path := dst; Dir.mode := Dir.mode d;
                        Dir.files := Dir.files d |} in
        put_world
          (with_dirs (remove_dir src (remove_dir dst (dirs w)) ++ [moved]) w)
  end.

(** [SubProject.objects.create(...)] *)
Definition create (sp : SubProject.t) : M unit :=
  w <- get_world ;; put_world (with_components (components w ++ [sp]) w).

(** The state after a log entry, and after a new row. *)
Definition logged (lv : level) (msg : str) (st : State) : State :=
  {| self := self st;
     world := with_log (log (world st) ++ [(lv, msg)]) (world st) |}.

Definition stored (sp : SubProject.t) (st : State) : State :=
  {| self := self st;
     world := with_components (components (world st) ++ [sp]) (world st) |}.

(** The state after [rmtree(p)], and after the directory [d] at [src]
    was renamed to [dst]. *)
Definition removed (p : str) (st : State) : State :=
  {| self := self st;
     world := with_dirs (remove_dir p (dirs (world st))) (world st) |}.

Definition moved (src dst : str) (d : Dir.t) (st : State) : State :=
  {| self := self st;
     world := with_dirs
                (remove_dir src (remove_dir dst (dirs (world st)))
                   ++ [{| Dir.path := dst; Dir.mode := Dir.mode d;
                          Dir.files := Dir.files d |}])
                (world st) |}.

(** Two states with the same disk and the same tables: they differ in the
    log and in the command object at most. *)
Definition same_tables (st st' : State) : Prop :=
  dirs (world st') = dirs (world st)
  /\ components (world st') = components (world st)
  /\ projects (world st') = projects (world st)
  /\ languages (world st') = languages (world st).

(** [keeps R m]: whatever its outcome, the method [m] leaves a state that
    [R] relates to the state it started in. *)
Definition keeps {A : Type} (R : State -> State -> Prop) (m : M A) : Prop :=
  forall st : State, R st (snd (m st)).

(** The disk is as it was. *)
Definition same_disk (st st' : State) : Prop :=
  dirs (world st') = dirs (world st).

(** Nothing is taken from the component table or from the log, and the
    tables that are only read are as they were. *)
Definition grows (st st' : State) : Prop :=
  components (world st) `prefix_of` components (world st')
  /\ log (world st) `prefix_of` log (world st')
  /\ projects (world st') = projects (world st)
  /\ languages (world st') = languages (world st).

(** No two rows of a table belong to the same project under the same
    slug. *)
Definition unique_slugs (table : list SubProject.t) : Prop :=
  NoDup (map (fun sp => (SubProject.project sp, SubProject.slug sp)) table).

(** The attributes of [get_project_attribs], which a row takes from the
    command object. *)
Definition attribs (c : Command)
  : str * str * bool * option str * option str * option str :=
  (file_format c, vcs c, push_on_commit c, license c, license_url c,
   language_regex c).

Definition row_attribs (sp : SubProject.t)
  : str * str * bool * option str * option str * option str :=
  (SubProject.file_format sp, SubProject.vcs sp, SubProject.push_on_commit sp,
   SubProject.license sp, SubProject.license_url sp,
   SubProject.language_regex sp).

(** [os.chmod(p, mode)] *)
Definition chmod (p : str) (mode : nat) : M unit :=
  w <- get_world ;;
  put_world
    (with_dirs
       (map (fun d => if bool_decide (Dir.path d = p)
                      then {| Dir.path := p; Dir.mode := mode;
                              Dir.files := Dir.files d |}
                      else d) (dirs w)) w).

(** The working copy under [p] becomes [files]. *)
Definition set_files (p : str) (files : list str) : M unit :=
  w <- get_world ;;
  put_world
    (with_dirs
       (map (fun d => if bool_decide (Dir.path d = p)
                      then {| Dir.path := p; Dir.mode := Dir.mode d;
                              Dir.files := files |}
                      else d) (dirs w)) w).

(** [SubProject.objects.filter(Q(name=name) | Q(slug=slug),
    project=project).exists()] *)
Definition name_or_slug_exists (project : Project.t) (name slug : str)
           (table : list SubProject.t) : bool :=
  existsb (fun sp =>
             bool_decide (SubProject.project sp = Project.slug project)
             && (bool_decide (SubProject.name sp = name)
                 || bool_decide (SubProject.slug sp = slug))) table.

(** [SubProject.objects.filter(project=project, slug=slug).exists()] *)
Definition slug_exists (project : Project.t) (slug : str)
           (table : list SubProject.t) : bool :=
  existsb (fun sp =>
             bool_decide (SubProject.project sp = Project.slug project)
             && bool_decide (SubProject.slug sp = slug)) table.

(** ['weblate://{0}/{1}'.format(project.slug, slug)] *)
Definition weblate_link (project : Project.t) (slug : str) : str :=
  py "weblate://" ++ Project.slug project ++ py "/" ++ slug.

(** Lines 196 to 200 of [match_regexp]: the text handed to [re.compile]. *)
Definition mask_regexp_text (filemask : str) : str :=
  let match_ := Fnmatch.translate filemask in
  let match_ := Py.replace (py ".*.*") (py "(?P<name>[[WILDCARD]])") match_ in
  let match_ := Py.replace_n (py ".*") (py "(?P<language>[[WILDCARD]])") 1 match_ in
  let match_ := Py.replace (py ".*") (py "(?P=language)") match_ in
  Py.replace (py "[[WILDCARD]]") (py ".*") match_.

(** The mask test of [parse_options] (lines 319 and 320). *)
Definition mask_rejected (filemask : str) : bool :=
  negb (Py.contains (py "**") filemask)
  || negb (Py.contains (py "*") (Py.replace (py "**") [] filemask)).

Section Methods.

Context `{Platform}.

(** [format_string] *)
Definition format_string (template match_ : str) : M str :=
  if Py.contains (py "%s") template then
    match percent template match_ with
    | Some r => ret r
    | None => raise TypeError
    end
  else ret template.

(** The [match_regexp] property. *)
Definition match_regexp : M Re.Pattern :=
  c <- get_self ;;
  match component_re c with
  | Some p => ret p
  | None =>
      match _mask_regexp c with
      | Some p => ret p
      | None =>
          match Re.compile (mask_regexp_text (filemask c)) with
          | Some p => put_self (set_mask_regexp p c) ;;; ret p
          | None => raise ReError
          end
      end
  end.

(** [get_name] *)
Definition get_name (path : str) : M (option str * option str) :=
  p <- match_regexp ;;
  match Re.exec p path with
  | None =>
      logger WARNING (py "Skipping " ++ path) ;;; ret (None, None)
  | Some matches =>
      match Re.group p matches (py "name"),
            Re.group p matches (py "language") with
      | Some n, Some l => ret (n, l)
      | _, _ => raise IndexError
      end
  end.

(** [checkout_tmp]; the lock around [configure_branch] has no effect
    in a single thread. *)
Definition checkout_tmp (project : Project.t) (repo branch : str) : M str :=
  w <- get_world ;;
  let workdir := mkdtemp_name (dirs w) (Project.full_path project) in
  put_world
    (with_dirs (dirs w ++ [{| Dir.path := workdir; Dir.mode := 448;
                              Dir.files := [] |}]) w) ;;;
  chmod workdir 493 ;;;
  logger INFO (py "Cloning git repository...") ;;;
  c <- get_self ;;
  match clone (vcs c) repo with
  | None => raise RepositoryError
  | Some files =>
      set_files workdir files ;;;
      logger INFO (py "Updating working copy in git repository...") ;;;
      match configure_branch (vcs c) branch files with
      | None => raise RepositoryError
      | Some files' => set_files workdir files' ;;; ret workdir
      end
  end.

(** [get_matching_files] *)
Definition get_matching_files (repo : str) : M (list str) :=
  c <- get_self ;;
  w <- get_world ;;
  let matches := glob (dirs w) (os_path_join repo (filemask c)) in
  ret (map (fun f => Py.strip "/" (path_separator (Py.replace repo [] f)))
           matches).

(** The loop of [get_matching_subprojects] over the matched files,
    with its two sets. *)
Fixpoint collect (matches : list str) (names : list str)
         (langs : list (option str)) : M (list str * list (option str)) :=
  match matches with
  | [] => ret (names, langs)
  | match_ :: rest =>
      r <- get_name match_ ;;
      match r with
      | (Some name, lang) =>
          if Py.truthy name
          then collect rest (Py.set_add name names) (Py.set_add lang langs)
          else collect rest names langs
      | (None, _) => collect rest names langs
      end
  end.

(** Whether a pattern matches a path, and the two sets the loop builds
    as a function of the pattern. *)
Definition matching (p : Re.Pattern) (path : str) : bool :=
  match Re.exec p path with
  | Some _ => true
  | None => false
  end.

Fixpoint collected (p : Re.Pattern) (files : list str) (names : list str)
         (langs : list (option str)) : list str * list (option str) :=
  match files with
  | [] => (names, langs)
  | f :: rest =>
      match Re.exec p f with
      | None => collected p rest names langs
      | Some m =>
          match Re.lookup (py "name") m with
          | Some name =>
              if Py.truthy name
              then collected p rest (Py.set_add name names)
                             (Py.set_add (Re.lookup (py "language") m) langs)
              else collected p rest names langs
          | None => collected p rest names langs
          end
      end
  end.

(** [Language.objects.filter(code__in=langs).count()] *)
Definition known_languages (langs : list (option str)) (w : World) : nat :=
  length (List.filter (fun code => bool_decide (Some code ∈ langs))
                      (languages w)).

(** [get_matching_subprojects] *)
Definition get_matching_subprojects (repo : str) : M (list str) :=
  matches <- get_matching_files repo ;;
  logger INFO (py "Found " ++ format_d (length matches)
                  ++ py " matching files") ;;;
  if negb (Py.truthy_list matches)
  then raise (CommandError (py "Your mask did not match any files!"))
  else
    r <- collect matches [] [] ;;
    let '(names, langs) := r in
    logger INFO (py "Found " ++ format_d (length names)
                    ++ py " subprojects") ;;;
    logger INFO (py "Found " ++ format_d (length langs)
                    ++ py " languages") ;;;
    w <- get_world ;;
    if known_languages langs w =? 0
    then raise (CommandError
                  (py "None of matched languages exists, maybe you have mixed * and ** in the mask?"))
    else ret (Py.sorted names).

(** The name and slug [find_usable_slug] tries at step [i]. *)
Definition candidate (base : str) (i : nat) : str * str :=
  let newname := base ++ py " " ++ Py.format_03d i in
  (newname, slugify newname).

(** Whether step [i] of [find_usable_slug] finds its name or its
    slug taken. *)
Definition taken (project : Project.t) (base : str) (st : State) (i : nat)
  : bool :=
  name_or_slug_exists project (fst (candidate base i))
    (snd (candidate base i)) (components (world st)).

(** [find_usable_slug] *)
Definition find_usable_slug (name : str) (slug_len : Z)
           (project : Project.t) : M (str * str) :=
  w <- get_world ;;
  let base := Py.slice_to (slug_len - 4) name in
  match find (fun i =>
                negb (name_or_slug_exists project (fst (candidate base i))
                        (snd (candidate base i)) (components w)))
             (seq 1 999) with
  | Some i => ret (candidate base i)
  | None =>
      raise (CommandError (py "Failed to find suitable name for " ++ name))
  end.

(** The message of the error for a custom expression without the two
    named groups. *)
Definition lacks_groups_message : str :=
  py "Component regular expression lacks named group " ++ [dq]
     ++ py "name" ++ [dq] ++ py " and/or " ++ [dq] ++ py "language" ++ [dq].

(** Lines 287 to 304 of [parse_options]: the custom expression. *)
Definition parse_component_regexp (o : Options.t)
  : result (option Re.Pattern) :=
  if Py.truthy_opt (Options.component_regexp o) then
    let text := default [] (Options.component_regexp o) in
    match re_compile_flags text with
    | inr error =>
        Raise (CommandError
                 (py "Failed to compile regular expression " ++ [dq]
                     ++ text ++ [dq] ++ py ": " ++ error))
    | inl p =>
        if negb (bool_decide (py "name" ∈ Re.groupindex p))
           || negb (bool_decide (py "language" ∈ Re.groupindex p))
        then Raise (CommandError lacks_groups_message)
        else Ok (Some p)
    end
  else Ok None.

(** [parse_options]: the command object it leaves, or the error. *)
Definition parse_options (repo : str) (o : Options.t) : result Command :=
  match parse_component_regexp o with
  | Raise e => Raise e
  | Ok re =>
      if negb (bool_decide (Options.file_format o ∈ FILE_FORMATS))
      then Raise (CommandError (py "Invalid file format: "
                                   ++ Options.file_format o))
      else if negb (bool_decide (Options.vcs o ∈ VCS_REGISTRY))
      then Raise (CommandError (py "Invalid vcs: " ++ Options.vcs o))
      else if mask_rejected (Options.filemask o)
      then Raise (CommandError
                    (py "You need to specify double wildcard for subproject part of the match!"))
      else
        Ok {| filemask := Options.filemask o;
              component_re := re;
              file_format := Options.file_format o;
              language_regex := Options.language_regex o;
              license := Options.license o;
              license_url := Options.license_url o;
              main_component := Options.main_component o;
              name_template := Options.name_template o;
              base_file_template := Options.base_file_template o;
              vcs := Options.vcs o;
              push_url := if Options.push_url_same o then repo
                          else Options.push_url o;
              push_on_commit := Options.push_on_commit o;
              _mask_regexp := None |}
  end.

(** A new row with the keyword arguments of [get_project_attribs]. *)
Definition new_component (c : Command) (name slug : str)
           (project : Project.t) (push : option str)
           (repo branch template filemask_ : str) : SubProject.t :=
  {| SubProject.name := name;
     SubProject.slug := slug;
     SubProject.project := Project.slug project;
     SubProject.repo := repo;
     SubProject.push := push;
     SubProject.branch := branch;
     SubProject.template := template;
     SubProject.filemask := filemask_;
     SubProject.file_format := file_format c;
     SubProject.vcs := vcs c;
     SubProject.push_on_commit := push_on_commit c;
     SubProject.license := license c;
     SubProject.license_url := license_url c;
     SubProject.language_regex := language_regex c |}.

(** [matches.pop()] *)
Definition pop (matches : list str) : M (str * list str) :=
  match last matches with
  | Some x => ret (x, removelast matches)
  | None => raise IndexError
  end.

(** [import_initial] *)
Definition import_initial (project : Project.t) (repo branch : str)
           (slug_len name_len : Z) : M (list str * str) :=
  workdir <- checkout_tmp project repo branch ;;
  matches <- get_matching_subprojects workdir ;;
  c <- get_self ;;
  picked <-
    (if Py.truthy_opt (main_component c) then
       let main := default [] (main_component c) in
       if negb (bool_decide (main ∈ matches))
       then raise (CommandError
                     (py "Specified --main-component was not found in matches!"))
       else ret (main, Py.list_remove main matches)
     else pop matches) ;;
  let '(match_, matches) := picked in
  formatted <- format_string (name_template c) match_ ;;
  let name := Py.slice_to name_len formatted in
  template <- format_string (base_file_template c) match_ ;;
  let slug := Py.slice_to slug_len (slugify name) in
  w <- get_world ;;
  if slug_exists project slug (components w) then
    logger WARNING
      (py "Component " ++ name
          ++ py " already exists, skipping and using it as main component") ;;;
    rmtree workdir ;;;
    ret (matches, weblate_link project slug)
  else
    logger INFO (py "Creating component " ++ name ++ py " as main one") ;;;
    rename workdir (os_path_join (Project.full_path project) slug) ;;;
    create (new_component c name slug project (Some (push_url c)) repo
              branch template
              (Py.replace (py "**") match_ (filemask c))) ;;;
    ret (matches, weblate_link project slug).

(** The body of the loop of [handle] (lines 369 to 399). *)
Definition create_remaining (o : Options.t) (project : Project.t)
           (sharedrepo branch : str) (slug_len name_len : Z)
           (match_ : str) : M unit :=
  c <- get_self ;;
  formatted <- format_string (name_template c) match_ ;;
  let name := Py.slice_to name_len formatted in
  template <- format_string (base_file_template c) match_ ;;
  let slug := Py.slice_to slug_len (slugify name) in
  w <- get_world ;;
  let make name slug :=
    logger INFO (py "Creating component " ++ name) ;;;
    create (new_component c name slug project None sharedrepo branch
              template (Py.replace (py "**") match_ (filemask c))) in
  if name_or_slug_exists project name slug (components w) then
    if negb (Options.duplicates o) then
      logger WARNING
        (py "Component " ++ name ++ py " already exists, skipping")
    else
      renamed <- find_usable_slug name slug_len project ;;
      make (fst renamed) (snd renamed)
  else make name slug.

(** [handle], after [parse_options]. *)
Definition run (o : Options.t) : M unit :=
  let repo := Options.repo o in
  let branch := Options.branch o in
  w <- get_world ;;
  match find (fun p => bool_decide (Project.slug p = Options.project o))
             (projects w) with
  | None =>
      raise (CommandError
               (py "Project " ++ [dq] ++ Options.project o ++ [dq]
                   ++ py " not found, please create it first!"))
  | Some project =>
      let slug_len := slug_max_length in
      let name_len := name_max_length in
      found <-
        (if is_repo_link repo then
           match get_linked (components w) repo with
           | None =>
               raise (CommandError
                        (py "Component " ++ [dq] ++ repo ++ [dq]
                            ++ py " not found, please create it first!"))
           | Some sub_project =>
               matches <- get_matching_subprojects
                            (subproject_full_path (projects w) sub_project) ;;
               ret (matches, repo)
           end
         else import_initial project repo branch slug_len name_len) ;;
      let '(matches, sharedrepo) := found in
      for_each matches
               (create_remaining o project sharedrepo branch
                                 slug_len name_len)
  end.

(** [handle]: the outcome and the world it leaves. *)
Definition handle (o : Options.t) (w : World) : result unit * World :=
  match parse_options (Options.repo o) o with
  | Raise e => (Raise e, w)
  | Ok c =>
      let '(r, st) := run o {| self := c; world := w |} in
      (r, world st)
  end.

End Methods.

End ImportProject.

(** ** File masks

    A file mask as the command documents it: literal text, the single
    wildcard for the language and one double wildcard for the component
    name.  [render] gives the text of a mask, [items] the expression it
    stands for, and [fill] the path of one component and one language. *)

Module Mask.

Inductive token : Type :=
| Lit (c : ascii)
| Star
| DoubleStar.

(** A literal character is one that [fnmatch] does not interpret. *)
Definition plain (c : ascii) : bool :=
  negb (bool_decide (c = "*"%char) || bool_decide (c = "?"%char)
        || bool_decide (c = "["%char)).

Definition render_token (t : token) : str :=
  match t with
  | Lit c => [c]
  | Star => py "*"
  | DoubleStar => py "**"
  end.

Definition render (m : list token) : str := flat_map render_token m.

(** The tokens of a mask, from the left: two asterisks are a double
    wildcard. *)
Fixpoint tokens (s : str) : list token :=
  match s with
  | [] => []
  | c :: rest =>
      if ascii_dec c "*" then
        match rest with
        | c' :: rest' =>
            if ascii_dec c' "*" then DoubleStar :: tokens rest'
            else Star :: tokens rest
        | [] => [Star]
        end
      else Lit c :: tokens rest
  end.

Definition is_wildcard (t : token) : bool :=
  match t with
  | Lit _ => false
  | Star | DoubleStar => true
  end.

Definition literal_ok (t : token) : bool :=
  match t with
  | Lit c => plain c
  | Star | DoubleStar => true
  end.

(** A single wildcard is followed by literal text or by the end of the
    mask (three asterisks read as a double wildcard and a single one). *)
Fixpoint stars_apart (m : list token) : bool :=
  match m with
  | [] => true
  | t :: rest =>
      match t, rest with
      | Star, next :: _ => negb (is_wildcard next)
      | _, _ => true
      end && stars_apart rest
  end.

Fixpoint doubles (m : list token) : nat :=
  match m with
  | [] => 0
  | DoubleStar :: rest => S (doubles rest)
  | _ :: rest => doubles rest
  end.

Fixpoint singles (m : list token) : nat :=
  match m with
  | [] => 0
  | Star :: rest => S (singles rest)
  | _ :: rest => singles rest
  end.

(** A mask with exactly one double wildcard. *)
Definition wf (m : list token) : bool :=
  forallb literal_ok m && stars_apart m && (doubles m =? 1).

(** The expression of a mask: the double wildcard is the group [name],
    the first single wildcard the group [language], and every later
    single wildcard a reference to that group.  [seen] tells whether the
    group [language] is already defined. *)
Fixpoint items (seen : bool) (m : list token) : list Re.item :=
  match m with
  | [] => []
  | Lit c :: rest => Re.Char c :: items seen rest
  | Star :: rest =>
      (if seen then Re.Backref (py "language") else Re.Group (py "language"))
        :: items true rest
  | DoubleStar :: rest => Re.Group (py "name") :: items seen rest
  end.

(** The text of an item, as [match_regexp] writes it. *)
Definition item_text (i : Re.item) : str :=
  match i with
  | Re.Char c => Fnmatch.escape c
  | Re.Any => py "."
  | Re.Group g => py "(?P<" ++ g ++ py ">.*)"
  | Re.Backref g => py "(?P=" ++ g ++ py ")"
  end.

Definition regexp_text (m : list token) : str :=
  py "(?s:" ++ flat_map item_text (items false m) ++ py ")\Z".

(** The path of the component [name] in the language [language]. *)
Definition fill_token (name language : str) (t : token) : str :=
  match t with
  | Lit c => [c]
  | Star => language
  | DoubleStar => name
  end.

Definition fill (name language : str) (m : list token) : str :=
  flat_map (fill_token name language) m.

(** The pieces of the text between the steps of [match_regexp]: an
    escaped character, the translation of a single and of a double
    wildcard, the two groups around the placeholder, the reference, and
    the two groups in their final form. *)
Inductive piece : Type :=
| E (c : ascii)
| W
| WW
| NW
| LW
| B
| N
| L.

Definition text (p : piece) : str :=
  match p with
  | E c => Fnmatch.escape c
  | W => py ".*"
  | WW => py ".*.*"
  | NW => py "(?P<name>[[WILDCARD]])"
  | LW => py "(?P<language>[[WILDCARD]])"
  | B => py "(?P=language)"
  | N => py "(?P<name>.*)"
  | L => py "(?P<language>.*)"
  end.

Definition texts (ps : list piece) : str := flat_map text ps.

Definition translated (t : token) : piece :=
  match t with
  | Lit c => E c
  | Star => W
  | DoubleStar => WW
  end.

(** What each of the four replacements does to the pieces. *)
Definition name_step (p : piece) : piece :=
  match p with
  | WW => NW
  | _ => p
  end.

Fixpoint language_step (ps : list piece) : list piece :=
  match ps with
  | [] => []
  | W :: rest => LW :: rest
  | p :: rest => p :: language_step rest
  end.

Definition reference_step (p : piece) : piece :=
  match p with
  | W => B
  | _ => p
  end.

Definition wildcard_step (p : piece) : piece :=
  match p with
  | NW => N
  | LW => L
  | _ => p
  end.

(** The pieces the second and the third replacement can meet. *)
Definition single_only (p : piece) : bool :=
  match p with
  | WW | N | L => false
  | _ => true
  end.

Definition steps (m : list token) : list piece :=
  map wildcard_step
      (map reference_step
           (language_step (map name_step (map translated m)))).

End Mask.

(** ** [weblate.addons.forms] *)

Module AddonForms.

(** The value of a cleaned field. *)
Inductive value : Type :=
| VBool (b : bool)
| VStr (s : str).

Definition truthy (v : value) : bool :=
  match v with
  | VBool b => b
  | VStr s => Py.truthy s
  end.

Inductive form_error : Type :=
| ValidationError (msg : str)
| KeyError (key : string).

(** The add-on object behind a form: the configurations handed to its
    [configure], oldest first, and its [instance]. *)
Record Addon : Type := {
  configured : list (gmap string value);
  instance : nat
}.

(** [addon.configure(data)] *)
Definition configure (data : gmap string value) (a : Addon) : Addon :=
  {| configured := configured a ++ [data]; instance := instance a |}.

(** [BaseAddonForm.save]: the instance it returns and the add-on after
    the call. *)
Definition save (cleaned_data : gmap string value) (a : Addon)
  : nat * Addon :=
  (instance a, configure cleaned_data a).

(** [DiscoveryForm.clean]: the error it raises, if any, and
    [self.cleaned_data] as the method leaves it (the dictionary is
    changed in place, also when the method raises). *)
Definition clean (cleaned_data : gmap string value)
  : option form_error * gmap string value :=
  match cleaned_data !! "preview"%string with
  | None => (Some (KeyError "preview"), cleaned_data)
  | Some preview =>
      let d := <["show_preview"%string := preview]> cleaned_data in
      if truthy preview then
        match d !! "confirm"%string with
        | None => (Some (KeyError "confirm"), d)
        | Some confirm =>
            if negb (truthy confirm)
            then (Some (ValidationError
                          (py "Please confirm matched components.")), d)
            else (None, <["confirm"%string := VBool false]>
                          (<["preview"%string := VBool false]> d))
        end
      else (None, <["confirm"%string := VBool false]>
                    (<["preview"%string := VBool true]> d))
  end.

(** Modelled from the spec: the request handler that drives a form is
    not part of the two files.  The spec says that each form "validates
    and hands cleaned data to an external add-on object's configuration
    method" and that "on successful validation, the handler always
    delegates to an external configuration-acceptor": a submission is
    cleaned, and saved when cleaning raised nothing. *)
Definition submit (cleaned_data : gmap string value) (a : Addon)
  : option form_error * gmap string value * Addon :=
  match clean cleaned_data with
  | (None, d) => (None, d, snd (save d a))
  | (Some e, d) => (Some e, d, a)
  end.

(** An entry of the layout of a form helper. *)
Inductive entry : Type :=
| Field (name : string)
| Div (template : string).

(** [DiscoveryForm.__init__], after the constructor of the base class:
    the layout it leaves in [self.helper], or the exception that escapes
    it.  [bound] is [None] for a form that is not bound; for a bound form
    it is [self.cleaned_data] as the cleaning of the single fields leaves
    it, on which [is_valid] then runs [clean]: a [ValidationError] of
    [clean] is recorded in the form and not raised, any other exception
    escapes. *)
Definition layout (bound : option (gmap string value))
  : form_error + list entry :=
  let base := [Field "match"; Field "file_format"; Field "name_template";
               Field "base_file_template"; Field "remove"; Field "preview";
               Div "addons/discovery_help.html"] in
  match bound with
  | None => inr base
  | Some cleaned_data =>
      match clean cleaned_data with
      | (Some (KeyError key), _) => inl (KeyError key)
      | (_, d) =>
          match d !! "show_preview"%string with
          | None => inl (KeyError "show_preview")
          | Some show =>
              if truthy show
              then inr (Div "addons/discovery_preview.html"
                          :: Field "confirm" :: base)
              else inr base
          end
      end
  end.

End AddonForms.

(** ** A concrete platform

    Simple stand-ins for the collaborators, used to run the command on
    concrete inputs: an ASCII [slugify], [%] with a single [%s], a [glob]
    whose wildcard stays within a path segment, and one remote
    repository. *)

Module Demo.

Definition lower (c : ascii) : ascii :=
  let n := nat_of_ascii c in
  if (65 <=? n) && (n <=? 90) then ascii_of_nat (n + 32) else c.

(** Runs of spaces and hyphens become one hyphen; other characters that
    are not alphanumeric are dropped. *)
Fixpoint slug_chars (pending : bool) (s : str) : str :=
  match s with
  | [] => []
  | c :: s' =>
      if ascii_dec c " " then slug_chars true s'
      else if ascii_dec c "-" then slug_chars true s'
      else if Py.is_alnum_ c
           then (if pending then py "-" else []) ++ lower c :: slug_chars false s'
           else slug_chars pending s'
  end.

Definition slugify (s : str) : str := slug_chars false s.

Definition percent (template match_ : str) : option str :=
  Some (Py.replace_n (py "%s") match_ 1 template).

Definition re_compile_flags (s : str) : Re.Pattern + str :=
  match Re.compile (py "(?s:" ++ s ++ py ")\Z") with
  | Some p => inl p
  | None => inr (py "unsupported expression")
  end.

(** A wildcard match in which [*] and [?] do not cross a slash. *)
Fixpoint wild (p : str) : str -> bool :=
  match p with
  | [] => fun s => negb (Py.truthy s)
  | c :: p' =>
      if ascii_dec c "*" then
        fix star (s : str) : bool :=
          wild p' s ||
          match s with
          | x :: s' => if ascii_dec x "/" then false else star s'
          | [] => false
          end
      else
        fun s =>
          match s with
          | x :: s' =>
              (if ascii_dec c "?" then negb (bool_decide (x = "/"%char))
               else bool_decide (x = c)) && wild p' s'
          | [] => false
          end
  end.

Definition glob (disk : list Dir.t) (pattern : str) : list str :=
  List.filter (wild pattern)
    (flat_map (fun d => map (fun f => Dir.path d ++ py "/" ++ f) (Dir.files d))
              disk).

Definition is_repo_link (s : str) : bool := Py.startswith (py "weblate://") s.

Definition mkdtemp_name (disk : list Dir.t) (parent : str) : str :=
  parent ++ py "/tmp" ++ format_d (length disk).

(** The one remote repository. *)
Definition remote : str := py "git://example.org/hello.git".

Definition remote_files : list str :=
  [py "alpha/cs.po"; py "alpha/de.po"; py "beta/cs.po"; py "README"].

Definition clone (vcs repo : str) : option (list str) :=
  if bool_decide (repo = remote) then Some remote_files else None.

Definition configure_branch (vcs branch : str) (files : list str)
  : option (list str) := Some files.

Definition get_linked (table : list SubProject.t) (link : str)
  : option SubProject.t :=
  find (fun sp => bool_decide
                    (py "weblate://" ++ SubProject.project sp ++ py "/"
                        ++ SubProject.slug sp = link)) table.

Definition subproject_full_path (table : list Project.t) (sp : SubProject.t)
  : str :=
  match find (fun p => bool_decide (Project.slug p = SubProject.project sp))
             table with
  | Some p => os_path_join (Project.full_path p) (SubProject.slug sp)
  | None => SubProject.slug sp
  end.

Definition platform : Platform :=
  Build_Platform slugify percent re_compile_flags glob (fun s => s)
    is_repo_link mkdtemp_name clone configure_branch
    [py "auto"; py "po"] [py "git"] 100 100 get_linked subproject_full_path.

(** [import_project hello git://example.org/hello.git master <mask>],
    with an optional [--component-regexp] and [--no-skip-duplicates]. *)
Definition options (mask : str) (regexp : option str) (duplicates : bool)
  : Options.t :=
  {| Options.name_template := py "%s";
     Options.component_regexp := regexp;
     Options.base_file_template := [];
     Options.file_format := py "auto";
     Options.language_regex := None;
     Options.duplicates := duplicates;
     Options.license := None;
     Options.license_url := None;
     Options.vcs := py "git";
     Options.push_url := [];
     Options.push_url_same := false;
     Options.push_on_commit := true;
     Options.main_component := None;
     Options.project := py "hello";
     Options.repo := remote;
     Options.branch := py "master";
     Options.filemask := mask |}.

Definition hello : Project.t :=
  {| Project.slug := py "hello"; Project.full_path := py "/data/hello" |}.

(** The command object [parse_options] leaves for such a command line. *)
Definition command (mask : str) : ImportProject.Command :=
  {| ImportProject.filemask := mask;
     ImportProject.component_re := None;
     ImportProject.file_format := py "auto";
     ImportProject.language_regex := None;
     ImportProject.license := None;
     ImportProject.license_url := None;
     ImportProject.main_component := None;
     ImportProject.name_template := py "%s";
     ImportProject.base_file_template := [];
     ImportProject.vcs := py "git";
     ImportProject.push_url := [];
     ImportProject.push_on_commit := true;
     ImportProject._mask_regexp := None |}.

(** A site with the project [hello], no component yet, two languages. *)
Definition site : World :=
  {| dirs := []; components := []; projects := [hello];
     languages := [py "cs"; py "de"]; log := [] |}.

(** The same site once the component [alpha] exists. *)
Definition alpha : SubProject.t :=
  ImportProject.new_component (command (py "**/*.po"))
    (py "alpha") (py "alpha") hello (Some []) remote (py "master") []
    (py "alpha/*.po").

Definition site_with_alpha : World :=
  {| dirs := [{| Dir.path := py "/data/hello/alpha"; Dir.mode := 493;
                 Dir.files := remote_files |}];
     components := [alpha]; projects := [hello];
     languages := [py "cs"; py "de"]; log := [] |}.

(** [import_project <project> <repo> master <mask> --file-format
    <format>] *)
Definition command_line (project repo mask format : str) : Options.t :=
  {| Options.name_template := py "%s";
     Options.component_regexp := None;
     Options.base_file_template := [];
     Options.file_format := format;
     Options.language_regex := None;
     Options.duplicates := false;
     Options.license := None;
     Options.license_url := None;
     Options.vcs := py "git";
     Options.push_url := [];
     Options.push_url_same := false;
     Options.push_on_commit := true;
     Options.main_component := None;
     Options.project := project;
     Options.repo := repo;
     Options.branch := py "master";
     Options.filemask := mask |}.

(** The command object [parse_options] leaves with [--main-component
    <main>]. *)
Definition command_with_main (mask main : str) : ImportProject.Command :=
  {| ImportProject.filemask := mask;
     ImportProject.component_re := None;
     ImportProject.file_format := py "auto";
     ImportProject.language_regex := None;
     ImportProject.license := None;
     ImportProject.license_url := None;
     ImportProject.main_component := Some main;
     ImportProject.name_template := py "%s";
     ImportProject.base_file_template := [];
     ImportProject.vcs := py "git";
     ImportProject.push_url := [];
     ImportProject.push_on_commit := true;
     ImportProject._mask_regexp := None |}.

End Demo.

(** * Properties *)

Import ImportProject.

(** ** [format_string] *)

Section FormatString.

Context `{Platform}.

(** C10. [format_string] hands the template to [%] exactly when the
    template contains [%s]; a template without [%s] comes back unchanged
    whatever the match is, so that the names [handle] derives from such
    a template for two matches are the same. *)
Theorem format_string_needs_placeholder (template match_ : str) (st : State) :
  (Py.contains (py "%s") template = true ->
   format_string template match_ st
   = (match percent template match_ with
      | Some r => Ok r
      | None => Raise TypeError
      end, st))
  /\ (Py.contains (py "%s") template = false ->
      format_string template match_ st = (Ok template, st)
      /\ forall other : str,
          format_string template other st = format_string template match_ st).
Proof.
  unfold format_string; split; intros ->.
  - destruct (percent template match_); reflexivity.
  - split; [reflexivity | intros; reflexivity].
Qed.

End FormatString.

(** A template without a placeholder: every match gets the name [po]. *)
Lemma format_string_needs_placeholder_witness :
  @format_string Demo.platform (py "po") (py "alpha")
                 {| self := Build_Command [] None [] None None None None [] [] [] [] true None;
                    world := Build_World [] [] [] [] [] |}
  = @format_string Demo.platform (py "po") (py "beta")
                 {| self := Build_Command [] None [] None None None None [] [] [] [] true None;
                    world := Build_World [] [] [] [] [] |}.
Proof.
  symmetry.
  apply (@format_string_needs_placeholder Demo.platform (py "po") (py "alpha")).
  reflexivity.
Defined.

(** ** [parse_options] *)

Section ParseOptions.

Context `{Platform}.

Lemma parse_component_regexp_raises (o : Options.t) (e : exn) :
  parse_component_regexp o = Raise e -> exists msg, e = CommandError msg.
Proof.
  unfold parse_component_regexp.
  destruct (Py.truthy_opt _); [| discriminate].
  destruct (re_compile_flags _) as [p | err].
  - destruct (_ || _); [| discriminate].
    intros [= <-]; eauto.
  - intros [= <-]; eauto.
Qed.

Lemma parse_options_raises (repo : str) (o : Options.t) (e : exn) :
  parse_options repo o = Raise e -> exists msg, e = CommandError msg.
Proof.
  unfold parse_options.
  destruct (parse_component_regexp o) as [re | e'] eqn:Hre.
  - repeat (match goal with
            | |- context [if ?b then _ else _] => destruct b
            end; [intros [= <-]; eauto |]).
    discriminate.
  - intros [= <-]. eapply parse_component_regexp_raises; eauto.
Qed.

(** [handle] stops at the error of [parse_options], the world untouched. *)
Lemma handle_parse_error (o : Options.t) (w : World) (e : exn) :
  parse_options (Options.repo o) o = Raise e -> handle o w = (Raise e, w).
Proof. unfold handle; intros ->; reflexivity. Qed.

Lemma mask_rejected_raises (repo : str) (o : Options.t) :
  mask_rejected (Options.filemask o) = true ->
  exists msg, parse_options repo o = Raise (CommandError msg).
Proof.
  intros Hm. unfold parse_options.
  destruct (parse_component_regexp o) as [re | e] eqn:Hre.
  - rewrite Hm.
    repeat (match goal with
            | |- context [if ?b then _ else _] => destruct b
            end; eauto).
  - destruct (parse_component_regexp_raises _ _ Hre) as [msg ->]; eauto.
Qed.

(** C4 (amended). A file mask without [**], or without a [*] once every
    [**] is taken out, makes the command stop in option parsing with a
    [CommandError]; the world is as it was (nothing was translated,
    cloned or created). *)
Theorem mask_without_wildcards_rejected (o : Options.t) (w : World) :
  Py.contains (py "**") (Options.filemask o) = false
  \/ Py.contains (py "*") (Py.replace (py "**") [] (Options.filemask o)) = false ->
  exists msg, handle o w = (Raise (CommandError msg), w).
Proof.
  intros Hshape.
  assert (Hm : mask_rejected (Options.filemask o) = true).
  { unfold mask_rejected. destruct Hshape as [-> | ->]; simpl.
    - reflexivity.
    - apply orb_true_r. }
  destruct (mask_rejected_raises (Options.repo o) o Hm) as [msg Hp].
  exists msg. apply handle_parse_error, Hp.
Qed.

(** C5 (amended). A non-empty [--component-regexp] that does not
    compile, or that compiles without a group [name] or without a group
    [language], makes the command stop in option parsing with the
    matching message; the world is as it was. *)
Theorem bad_component_regexp_rejected (o : Options.t) (w : World) (text : str) :
  Options.component_regexp o = Some text ->
  text <> [] ->
  (forall error : str,
      re_compile_flags text = inr error ->
      handle o w
      = (Raise (CommandError
                  (py "Failed to compile regular expression " ++ [dq]
                      ++ text ++ [dq] ++ py ": " ++ error)), w))
  /\ (forall p : Re.Pattern,
         re_compile_flags text = inl p ->
         py "name" ∉ Re.groupindex p \/ py "language" ∉ Re.groupindex p ->
         handle o w = (Raise (CommandError lacks_groups_message), w)).
Proof.
  intros Hopt Hne.
  assert (Ht : Py.truthy_opt (Options.component_regexp o) = true).
  { rewrite Hopt. destruct text; [contradiction | reflexivity]. }
  split.
  - intros error Hc. apply handle_parse_error.
    unfold parse_options, parse_component_regexp.
    rewrite Ht, Hopt; simpl. rewrite Hc. reflexivity.
  - intros p Hc Hg. apply handle_parse_error.
    unfold parse_options, parse_component_regexp.
    rewrite Ht, Hopt; simpl. rewrite Hc.
    assert (Hb : negb (bool_decide (py "name" ∈ Re.groupindex p))
                 || negb (bool_decide (py "language" ∈ Re.groupindex p)) = true).
    { destruct Hg as [Hg | Hg];
        rewrite (bool_decide_eq_false_2 _ Hg); simpl;
        [reflexivity | apply orb_true_r]. }
    simpl in Hb |- *. rewrite Hb. reflexivity.
Qed.

End ParseOptions.

(** The mask [*.po] has no double wildcard. *)
Lemma mask_without_wildcards_rejected_witness :
  exists msg,
    @handle Demo.platform (Demo.options (py "*.po") None false) Demo.site
    = (Raise (CommandError msg), Demo.site).
Proof.
  apply (@mask_without_wildcards_rejected Demo.platform).
  left. reflexivity.
Defined.

(** C4, as stated, fails: a mask with two double wildcards does not
    contain exactly one, and option parsing accepts it. *)
Lemma two_double_wildcards_accepted :
  Py.count (py "**") (py "**/**/*.po") = 2
  /\ exists c,
      @parse_options Demo.platform Demo.remote
                     (Demo.options (py "**/**/*.po") None false) = Ok c.
Proof. split; [reflexivity | eexists; reflexivity]. Qed.

(** An expression with a group [name] and no group [language]. *)
Lemma bad_component_regexp_rejected_witness :
  @handle Demo.platform
          (Demo.options (py "**/*.po") (Some (py "(?P<name>.*)")) false)
          Demo.site
  = (Raise (CommandError lacks_groups_message), Demo.site).
Proof.
  refine (proj2 (@bad_component_regexp_rejected Demo.platform
                   (Demo.options (py "**/*.po") (Some (py "(?P<name>.*)")) false)
                   Demo.site (py "(?P<name>.*)") eq_refl _) _ eq_refl _).
  - discriminate.
  - right. vm_compute. intros Hin.
    apply list_elem_of_In in Hin. destruct Hin as [Heq | []]. discriminate.
Defined.

(** C5, as stated, fails: an empty [--component-regexp] compiles and has
    no named group, yet the command runs on with the mask's own
    expression and creates components. *)
Lemma empty_component_regexp_ignored :
  (exists p, Demo.re_compile_flags [] = inl p /\ Re.groupindex p = [])
  /\ fst (@handle Demo.platform (Demo.options (py "**/*.po") (Some []) false)
                  Demo.site) = Ok tt
  /\ length (components
               (snd (@handle Demo.platform
                             (Demo.options (py "**/*.po") (Some []) false)
                             Demo.site))) = 2.
Proof.
  split; [eexists; split; reflexivity |].
  split; vm_compute; reflexivity.
Qed.

(** ** The discovery form *)

Section DiscoveryForm.

Import AddonForms.

Implicit Types (d : gmap string value) (a : Addon).


End DiscoveryForm.



(** ** Duplicate names *)

Lemma find_seq_first (f : nat -> bool) (n a i : nat) :
  a <= i < a + n ->
  (forall j, a <= j < i -> f j = false) ->
  f i = true ->
  find f (seq a n) = Some i.
Proof.
  revert a. induction n as [| n IH]; intros a Hi Hbefore Hfi; [lia |].
  simpl. destruct (Nat.eq_dec a i) as [-> | Hne].
  - rewrite Hfi. reflexivity.
  - rewrite (Hbefore a) by lia. apply IH; [lia | | exact Hfi].
    intros j Hj. apply Hbefore. lia.
Qed.

Lemma find_seq_none (f : nat -> bool) (n a : nat) :
  (forall j, a <= j < a + n -> f j = false) ->
  find f (seq a n) = None.
Proof.
  revert a. induction n as [| n IH]; intros a Hall; [reflexivity |].
  simpl. rewrite (Hall a) by lia. apply IH. intros j Hj. apply Hall. lia.
Qed.

(** The three digits of [format_03d]. *)
Lemma format_03d_digits (i : nat) :
  i < 1000 ->
  Py.format_03d i = [Py.digit (i / 100); Py.digit (i / 10); Py.digit i].
Proof.
  intros Hi.
  assert (Hall : forallb (fun i => bool_decide
                            (Py.format_03d i
                             = [Py.digit (i / 100); Py.digit (i / 10); Py.digit i]))
                         (seq 0 1000) = true) by (vm_compute; reflexivity).
  rewrite forallb_forall in Hall.
  assert (Hin : In i (seq 0 1000)) by (apply in_seq; lia).
  apply Hall in Hin. apply bool_decide_eq_true_1 in Hin. exact Hin.
Qed.

Section Duplicates.

Context `{Platform}.

Lemma bind_ok {A B : Type} (m : M A) (k : A -> M B) (st st' : State) (a : A) :
  m st = (Ok a, st') -> bind m k st = k a st'.
Proof. unfold bind; intros ->; reflexivity. Qed.

Lemma bind_raise {A B : Type} (m : M A) (k : A -> M B) (st st' : State)
      (e : exn) :
  m st = (Raise e, st') -> bind m k st = (Raise e, st').
Proof. unfold bind; intros ->; reflexivity. Qed.

Lemma logger_logged (lv : level) (msg : str) (st : State) :
  logger lv msg st = (Ok tt, logged lv msg st).
Proof. reflexivity. Qed.

Lemma create_stored (sp : SubProject.t) (st : State) :
  create sp st = (Ok tt, stored sp st).
Proof. reflexivity. Qed.

Lemma find_usable_slug_first (name : str) (slug_len : Z) (project : Project.t)
      (st : State) (i : nat) :
  let base := Py.slice_to (slug_len - 4) name in
  1 <= i <= 999 ->
  (forall j, 1 <= j < i -> taken project base st j = true) ->
  taken project base st i = false ->
  find_usable_slug name slug_len project st
  = (Ok (base ++ py " " ++ Py.format_03d i,
         slugify (base ++ py " " ++ Py.format_03d i)), st).
Proof.
  intros base Hi Hbefore Hfree.
  unfold find_usable_slug, bind, get_world. fold base.
  change (find _ (seq 1 999))
    with (find (fun k => negb (taken project base st k)) (seq 1 999)).
  rewrite (find_seq_first _ 999 1 i); [reflexivity | lia | |].
  - intros j Hj. cbv beta. rewrite Hbefore by lia. reflexivity.
  - cbv beta. rewrite Hfree. reflexivity.
Qed.

Lemma find_usable_slug_exhausted (name : str) (slug_len : Z)
      (project : Project.t) (st : State) :
  let base := Py.slice_to (slug_len - 4) name in
  (forall j, 1 <= j <= 999 -> taken project base st j = true) ->
  find_usable_slug name slug_len project st
  = (Raise (CommandError (py "Failed to find suitable name for " ++ name)), st).
Proof.
  intros base Hall.
  unfold find_usable_slug, bind, get_world. fold base.
  change (find _ (seq 1 999))
    with (find (fun k => negb (taken project base st k)) (seq 1 999)).
  rewrite find_seq_none; [reflexivity |].
  intros j Hj. cbv beta. rewrite Hall by lia. reflexivity.
Qed.

(** C6. A component whose name or slug is taken in the project: by
    default it is skipped with a warning and the table is as it was;
    with [--no-skip-duplicates] the names [<base> 001] to [<base> 999]
    are tried in ascending order, the component is created under the
    first whose name and slug are both free, and when none is free the
    command stops with a [CommandError]. *)
Theorem duplicate_component_handling
        (o : Options.t) (project : Project.t) (sharedrepo branch : str)
        (slug_len name_len : Z) (match_ : str) (st : State)
        (formatted template : str) :
  format_string (name_template (self st)) match_ st = (Ok formatted, st) ->
  format_string (base_file_template (self st)) match_ st = (Ok template, st) ->
  let name := Py.slice_to name_len formatted in
  let slug := Py.slice_to slug_len (slugify name) in
  let base := Py.slice_to (slug_len - 4) name in
  let numbered (i : nat) := base ++ py " " ++ Py.format_03d i in
  let run := create_remaining o project sharedrepo branch slug_len name_len
                              match_ st in
  name_or_slug_exists project name slug (components (world st)) = true ->
  (Options.duplicates o = false ->
   run = (Ok tt,
          logged WARNING
            (py "Component " ++ name ++ py " already exists, skipping") st))
  /\ (Options.duplicates o = true ->
      forall i : nat,
        1 <= i <= 999 ->
        (forall j, 1 <= j < i -> taken project base st j = true) ->
        taken project base st i = false ->
        Py.format_03d i = [Py.digit (i / 100); Py.digit (i / 10); Py.digit i]
        /\ run = (Ok tt,
                  stored
                    (new_component (self st) (numbered i)
                       (slugify (numbered i)) project None sharedrepo branch
                       template
                       (Py.replace (py "**") match_ (filemask (self st))))
                    (logged INFO (py "Creating component " ++ numbered i) st)))
  /\ (Options.duplicates o = true ->
      (forall j, 1 <= j <= 999 -> taken project base st j = true) ->
      run = (Raise (CommandError
                      (py "Failed to find suitable name for " ++ name)), st)).
Proof.
  intros Hname Htemplate name slug base numbered run Hexists.
  subst run. unfold create_remaining.
  rewrite (bind_ok get_self _ st st (self st) eq_refl).
  rewrite (bind_ok _ _ _ _ _ Hname), (bind_ok _ _ _ _ _ Htemplate).
  rewrite (bind_ok get_world _ st st (world st) eq_refl).
  cbv zeta. fold name. fold slug. rewrite Hexists.
  split; [| split].
  - intros ->. apply logger_logged.
  - intros -> i Hi Hbefore Hfree. split; [apply format_03d_digits; lia |].
    cbn [negb]. cbv beta iota.
    rewrite (bind_ok _ _ _ _ _
               (find_usable_slug_first name slug_len project st i Hi Hbefore Hfree)).
    reflexivity.
  - intros -> Hall. cbn [negb]. cbv beta iota.
    apply bind_raise.
    apply (find_usable_slug_exhausted name slug_len project st Hall).
Qed.

End Duplicates.

(** With [--no-skip-duplicates], a second [alpha] becomes [alpha 001]. *)
Lemma duplicate_component_handling_witness :
  let st := {| self := Demo.command (py "**/*.po");
               world := Demo.site_with_alpha |} in
  Py.format_03d 1 = py "001"
  /\ @create_remaining Demo.platform (Demo.options (py "**/*.po") None true)
       Demo.hello (py "weblate://hello/alpha") (py "master") 100 100
       (py "alpha") st
     = (Ok tt,
        stored
          (new_component (self st) (py "alpha 001")
             (py "alpha-001") Demo.hello None (py "weblate://hello/alpha")
             (py "master") [] (py "alpha/*.po"))
          (logged INFO (py "Creating component alpha 001") st)).
Proof.
  intros st.
  refine (proj1 (proj2 (@duplicate_component_handling Demo.platform
                          (Demo.options (py "**/*.po") None true) Demo.hello
                          (py "weblate://hello/alpha") (py "master") 100 100
                          (py "alpha") st (py "alpha") [] eq_refl eq_refl eq_refl))
                eq_refl 1 _ _ eq_refl).
  - lia.
  - intros j Hj. lia.
Defined.

(** ** Files the expression does not match *)

Section Skipping.

Context `{Platform}.

(** The expression only depends on the command object, and the first
    use leaves it ready for the next. *)
Lemma match_regexp_cached (st st1 : State) (p : Re.Pattern) :
  match_regexp st = (Ok p, st1) ->
  world st1 = world st
  /\ forall st' : State, self st' = self st1 -> match_regexp st' = (Ok p, st').
Proof.
  unfold match_regexp.
  rewrite (bind_ok get_self _ st st (self st) eq_refl).
  destruct (component_re (self st)) as [q |] eqn:Hre.
  - intros [= <- <-]. split; [reflexivity |].
    intros st' Hs. rewrite (bind_ok get_self _ st' st' (self st') eq_refl).
    rewrite Hs, Hre. reflexivity.
  - destruct (_mask_regexp (self st)) as [q |] eqn:Hmask.
    + intros [= <- <-]. split; [reflexivity |].
      intros st' Hs. rewrite (bind_ok get_self _ st' st' (self st') eq_refl).
      rewrite Hs, Hre, Hmask. reflexivity.
    + destruct (Re.compile _) as [q |]; [| discriminate].
      intros [= <- <-]. split; [reflexivity |].
      intros st' Hs. rewrite (bind_ok get_self _ st' st' (self st') eq_refl).
      rewrite Hs. simpl. rewrite Hre. reflexivity.
Qed.

Lemma get_name_unmatched (st st1 : State) (p : Re.Pattern) (path : str) :
  match_regexp st = (Ok p, st1) ->
  Re.exec p path = None ->
  get_name path st
  = (Ok (None, None), logged WARNING (py "Skipping " ++ path) st1).
Proof.
  intros Hp Hx. unfold get_name.
  rewrite (bind_ok _ _ _ _ _ Hp), Hx. reflexivity.
Qed.

Lemma get_name_matched (st st1 : State) (p : Re.Pattern) (path : str)
      (m : Re.groups) :
  match_regexp st = (Ok p, st1) ->
  py "name" ∈ Re.groupindex p ->
  py "language" ∈ Re.groupindex p ->
  Re.exec p path = Some m ->
  get_name path st
  = (Ok (Re.lookup (py "name") m, Re.lookup (py "language") m), st1).
Proof.
  intros Hp Hn Hl Hx. unfold get_name.
  rewrite (bind_ok _ _ _ _ _ Hp), Hx. unfold Re.group.
  rewrite (bool_decide_eq_true_2 _ Hn), (bool_decide_eq_true_2 _ Hl).
  reflexivity.
Qed.

(** The loop returns the sets of [collected], and only adds to the log. *)
Lemma collect_collected (p : Re.Pattern) (files : list str) :
  py "name" ∈ Re.groupindex p ->
  py "language" ∈ Re.groupindex p ->
  forall (names : list str) (langs : list (option str)) (st st1 : State),
    match_regexp st = (Ok p, st1) ->
    exists st2 : State,
      collect files names langs st = (Ok (collected p files names langs), st2)
      /\ languages (world st2) = languages (world st).
Proof.
  intros Hn Hl. induction files as [| f rest IH]; intros names langs st st1 Hp.
  - exists st. split; reflexivity.
  - destruct (match_regexp_cached st st1 p Hp) as [Hw Hready].
    cbn [collect collected]. destruct (Re.exec p f) as [m |] eqn:Hx.
    + rewrite (bind_ok _ _ _ _ _ (get_name_matched st st1 p f m Hp Hn Hl Hx)).
      assert (Hp1 : match_regexp st1 = (Ok p, st1)) by (apply Hready; reflexivity).
      destruct (Re.lookup (py "name") m) as [name |].
      * destruct (Py.truthy name).
        -- destruct (IH (Py.set_add name names)
                        (Py.set_add (Re.lookup (py "language") m) langs)
                        st1 st1 Hp1) as (st2 & -> & Hlang).
           exists st2. split; [reflexivity | congruence].
        -- destruct (IH names langs st1 st1 Hp1) as (st2 & -> & Hlang).
           exists st2. split; [reflexivity | congruence].
      * destruct (IH names langs st1 st1 Hp1) as (st2 & -> & Hlang).
        exists st2. split; [reflexivity | congruence].
    + rewrite (bind_ok _ _ _ _ _ (get_name_unmatched st st1 p f Hp Hx)).
      assert (Hp1 : match_regexp (logged WARNING (py "Skipping " ++ f) st1)
                    = (Ok p, logged WARNING (py "Skipping " ++ f) st1))
        by (apply Hready; reflexivity).
      destruct (IH names langs _ _ Hp1) as (st2 & -> & Hlang).
      exists st2. split; [reflexivity |].
      rewrite Hlang. cbn [logged world with_log languages]. congruence.
Qed.

(** Files the pattern does not match add nothing to the two sets. *)
Lemma collected_matching (p : Re.Pattern) (files : list str) :
  forall (names : list str) (langs : list (option str)),
    collected p files names langs
    = collected p (List.filter (matching p) files) names langs.
Proof.
  induction files as [| f rest IH]; intros names langs; [reflexivity |].
  cbn [collected List.filter]. unfold matching at 1.
  destruct (Re.exec p f) as [m |] eqn:Hx; [| apply IH].
  cbn [collected]. rewrite Hx.
  destruct (Re.lookup (py "name") m) as [name |]; [| apply IH].
  destruct (Py.truthy name); apply IH.
Qed.

(** C9. A file the expression does not match is skipped with a warning:
    [get_name] logs it and returns no name and no language, the loop
    goes on with its two sets as they were, so that the sets are those of
    the matching files alone; and when the glob matched some file and a
    language of the matching files is known, [get_matching_subprojects]
    returns the sorted names. *)
Theorem unmatched_files_are_skipped (st st1 : State) (p : Re.Pattern) :
  match_regexp st = (Ok p, st1) ->
  (forall path : str,
      Re.exec p path = None ->
      get_name path st
      = (Ok (None, None), logged WARNING (py "Skipping " ++ path) st1)
      /\ forall rest names langs,
          collect (path :: rest) names langs st
          = collect rest names langs
                    (logged WARNING (py "Skipping " ++ path) st1))
  /\ (py "name" ∈ Re.groupindex p ->
      py "language" ∈ Re.groupindex p ->
      forall (repo : str) (files : list str),
        fst (get_matching_files repo st) = Ok files ->
        files <> [] ->
        known_languages
          (snd (collected p (List.filter (matching p) files) [] []))
          (world st) <> 0 ->
        fst (get_matching_subprojects repo st)
        = Ok (Py.sorted
                (fst (collected p (List.filter (matching p) files) [] [])))).
Proof.
  intros Hp. split.
  - intros path Hx. split; [apply (get_name_unmatched st st1 p path Hp Hx) |].
    intros rest names langs. cbn [collect].
    rewrite (bind_ok _ _ _ _ _ (get_name_unmatched st st1 p path Hp Hx)).
    reflexivity.
  - intros Hn Hl repo files Hfiles Hne Hknown.
    unfold get_matching_subprojects.
    assert (Hgf : get_matching_files repo st = (Ok files, st)).
    { unfold get_matching_files in *.
      rewrite (bind_ok get_self _ st st (self st) eq_refl) in *.
      rewrite (bind_ok get_world _ st st (world st) eq_refl) in *.
      unfold ret in *. simpl in Hfiles. congruence. }
    rewrite (bind_ok _ _ _ _ _ Hgf).
    rewrite (bind_ok _ _ _ _ _ (logger_logged _ _ _)).
    destruct files as [| f rest]; [contradiction |].
    cbn [Py.truthy_list negb]. cbv iota.
    set (st0 := logged INFO _ st).
    destruct (match_regexp_cached st st1 p Hp) as [Hw Hready].
    assert (Hp0 : match_regexp st0 = (Ok p, logged INFO
               (py "Found " ++ format_d (length (f :: rest))
                   ++ py " matching files") st1)).
    { revert Hp. unfold match_regexp.
      rewrite (bind_ok get_self _ st st (self st) eq_refl).
      rewrite (bind_ok get_self _ st0 st0 (self st0) eq_refl).
      change (self st0) with (self st).
      destruct (component_re (self st)); [intros [= <- <-]; reflexivity |].
      destruct (_mask_regexp (self st)); [intros [= <- <-]; reflexivity |].
      destruct (Re.compile _); [| discriminate].
      intros [= <- <-]. reflexivity. }
    destruct (collect_collected p (f :: rest) Hn Hl [] [] st0 _ Hp0)
      as (st2 & Hc & Hlang).
    rewrite (bind_ok _ _ _ _ _ Hc).
    rewrite <- collected_matching in *.
    destruct (collected p (f :: rest) [] []) as [names langs].
    rewrite (bind_ok _ _ _ _ _ (logger_logged _ _ _)).
    rewrite (bind_ok _ _ _ _ _ (logger_logged _ _ _)).
    match goal with
    | |- context [bind get_world ?k ?s] =>
        rewrite (bind_ok get_world k s s (world s) eq_refl)
    end.
    assert (Hk : known_languages langs
                   (world (logged INFO (py "Found " ++ format_d (length langs)
                                           ++ py " languages")
                             (logged INFO (py "Found " ++ format_d (length names)
                                              ++ py " subprojects") st2)))
                 = known_languages langs (world st)).
    { unfold known_languages. simpl. rewrite Hlang. reflexivity. }
    rewrite Hk. simpl in Hknown.
    destruct (known_languages langs (world st)); [contradiction |].
    reflexivity.
Qed.

End Skipping.

(** With the mask [**/*/*.po], the file [alpha/cs/de.po] is matched by
    the glob and not by the expression. *)
Lemma unmatched_files_are_skipped_witness :
  let st := {| self := Demo.command (py "**/*/*.po"); world := Demo.site |} in
  fst (get_name (py "alpha/cs/de.po") st) = Ok (None, None).
Proof.
  intros st.
  pose (p := Re.of_items
               [Re.Group (py "name"); Re.Char "/"; Re.Group (py "language");
                Re.Char "/"; Re.Backref (py "language"); Re.Char ".";
                Re.Char "p"; Re.Char "o"]).
  pose (st1 := {| self := set_mask_regexp p (self st); world := world st |}).
  assert (Hp : match_regexp st = (Ok p, st1))
    by (vm_compute; reflexivity).
  assert (Hx : Re.exec p (py "alpha/cs/de.po") = None)
    by (vm_compute; reflexivity).
  rewrite (proj1 (proj1 (@unmatched_files_are_skipped Demo.platform st st1 p Hp)
                        (py "alpha/cs/de.po") Hx)).
  reflexivity.
Defined.

(** ** The main component *)

Lemma str_leb_refl (a : str) : Py.str_leb a a = true.
Proof.
  induction a as [| x a IH]; [reflexivity |].
  cbn [Py.str_leb]. rewrite Nat.compare_refl. exact IH.
Qed.

Lemma str_leb_total (a b : str) :
  Py.str_leb a b = false -> Py.str_leb b a = true.
Proof.
  revert b. induction a as [| x a IH]; intros [| y b]; try discriminate.
  - reflexivity.
  - cbn [Py.str_leb]. rewrite (Nat.compare_antisym (nat_of_ascii x)).
    destruct (nat_of_ascii x ?= nat_of_ascii y); cbn [CompOpp];
      [apply IH | discriminate | reflexivity].
Qed.

Lemma str_leb_trans (a b c : str) :
  Py.str_leb a b = true -> Py.str_leb b c = true -> Py.str_leb a c = true.
Proof.
  revert b c. induction a as [| x a IH]; intros [| y b] [| z c];
    try discriminate; try reflexivity.
  cbn [Py.str_leb].
  destruct (nat_of_ascii x ?= nat_of_ascii y) eqn:Exy; [| | discriminate];
    destruct (nat_of_ascii y ?= nat_of_ascii z) eqn:Eyz; try discriminate.
  - apply Nat.compare_eq in Exy. rewrite Exy, Eyz. apply IH.
  - apply Nat.compare_eq in Exy. rewrite Exy, Eyz. reflexivity.
  - apply Nat.compare_eq in Eyz. rewrite <- Eyz, Exy. reflexivity.
  - apply Nat.compare_lt_iff in Exy, Eyz.
    rewrite (proj2 (Nat.compare_lt_iff _ _)) by lia. reflexivity.
Qed.

Lemma insert_sorted_elem (x y : str) (l : list str) :
  y ∈ Py.insert_sorted x l <-> y = x \/ y ∈ l.
Proof.
  induction l as [| z l IH]; cbn [Py.insert_sorted].
  - rewrite list_elem_of_singleton, elem_of_nil. tauto.
  - destruct (Py.str_leb x z).
    + rewrite elem_of_cons. tauto.
    + rewrite !elem_of_cons, IH. tauto.
Qed.

Lemma sorted_elem (y : str) (l : list str) : y ∈ Py.sorted l <-> y ∈ l.
Proof.
  induction l as [| x l IH]; [reflexivity |].
  change (Py.sorted (x :: l)) with (Py.insert_sorted x (Py.sorted l)).
  rewrite insert_sorted_elem, elem_of_cons, IH. tauto.
Qed.

Lemma insert_sorted_ordered (x : str) (l : list str) :
  StronglySorted Py.str_le l -> StronglySorted Py.str_le (Py.insert_sorted x l).
Proof.
  induction 1 as [| y l Hs IH Hy]; cbn [Py.insert_sorted].
  - repeat constructor.
  - destruct (Py.str_leb x y) eqn:Hxy.
    + constructor; [constructor; assumption |].
      constructor; [exact Hxy |].
      apply (Forall_impl _ _ _ Hy). intros z Hz.
      exact (str_leb_trans _ _ _ Hxy Hz).
    + constructor; [exact IH |].
      apply Forall_forall. intros z Hz.
      apply insert_sorted_elem in Hz as [-> | Hz].
      * exact (str_leb_total _ _ Hxy).
      * exact (proj1 (Forall_forall _ _) Hy z Hz).
Qed.

(** [sorted] gives its argument in ascending order. *)
Lemma sorted_ordered (l : list str) : StronglySorted Py.str_le (Py.sorted l).
Proof.
  induction l as [| x l IH]; [constructor |].
  apply insert_sorted_ordered, IH.
Qed.

(** The last element of an ascending list is its greatest. *)
Lemma ordered_last (l : list str) (m : str) :
  StronglySorted Py.str_le l -> last l = Some m ->
  forall x : str, x ∈ l -> Py.str_le x m.
Proof.
  induction 1 as [| y l Hs IH Hy]; [discriminate |].
  intros Hlast x Hx. destruct l as [| z l].
  - injection Hlast as <-. apply list_elem_of_singleton in Hx as ->.
    apply str_leb_refl.
  - rewrite last_cons_cons in Hlast.
    apply elem_of_cons in Hx as [-> | Hx].
    + apply (proj1 (Forall_forall _ _) Hy).
      exact (last_Some_elem_of _ _ Hlast).
    + exact (IH Hlast x Hx).
Qed.

Section MainComponent.

Context `{Platform}.

Lemma same_tables_refl (st : State) : same_tables st st.
Proof. repeat split. Qed.

Lemma same_tables_trans (a b c : State) :
  same_tables a b -> same_tables b c -> same_tables a c.
Proof.
  intros (D1 & C1 & P1 & L1) (D2 & C2 & P2 & L2).
  repeat split; congruence.
Qed.

Lemma logged_same_tables (lv : level) (msg : str) (st : State) :
  same_tables st (logged lv msg st).
Proof. repeat split. Qed.

Lemma match_regexp_world (st st' : State) (r : result Re.Pattern) :
  match_regexp st = (r, st') -> world st' = world st.
Proof.
  unfold match_regexp, bind, get_self, put_self, ret, raise.
  destruct (component_re (self st)); [intros [= _ <-]; reflexivity |].
  destruct (_mask_regexp (self st)); [intros [= _ <-]; reflexivity |].
  destruct (Re.compile _); intros [= _ <-]; reflexivity.
Qed.

Lemma get_name_same_tables (path : str) (st st' : State)
      (r : result (option str * option str)) :
  get_name path st = (r, st') -> same_tables st st'.
Proof.
  unfold get_name, bind at 1.
  destruct (match_regexp st) as [[p | e] st1] eqn:Hp.
  - apply match_regexp_world in Hp.
    assert (Hs : same_tables st st1)
      by (unfold same_tables; rewrite Hp; repeat split).
    destruct (Re.exec p path) as [m |].
    + destruct (Re.group p m (py "name")) as [n |];
        [destruct (Re.group p m (py "language")) as [l |] |];
        intros [= _ <-]; exact Hs.
    + rewrite (bind_ok _ _ _ _ _ (logger_logged _ _ _)).
      intros [= _ <-].
      exact (same_tables_trans _ _ _ Hs (logged_same_tables _ _ _)).
  - apply match_regexp_world in Hp. intros [= _ <-].
    unfold same_tables; rewrite Hp; repeat split.
Qed.

Lemma collect_same_tables (matches names : list str)
      (langs : list (option str)) (st st' : State)
      (r : result (list str * list (option str))) :
  collect matches names langs st = (r, st') -> same_tables st st'.
Proof.
  revert names langs st.
  induction matches as [| f rest IH]; intros names langs st.
  - intros [= _ <-]. apply same_tables_refl.
  - cbn [collect]. unfold bind at 1.
    destruct (get_name f st) as [[[n l] | e] st1] eqn:Hn.
    + apply get_name_same_tables in Hn. intros Hc.
      apply (same_tables_trans _ _ _ Hn).
      destruct n as [name |]; [destruct (Py.truthy name) |];
        exact (IH _ _ _ Hc).
    + apply get_name_same_tables in Hn. intros [= _ <-]. exact Hn.
Qed.

(** [get_matching_subprojects] writes to the log and to the cache of the
    command object, and to nothing else, whatever its outcome. *)
Lemma get_matching_subprojects_same_tables (repo : str) (st st' : State)
      (r : result (list str)) :
  get_matching_subprojects repo st = (r, st') -> same_tables st st'.
Proof.
  unfold get_matching_subprojects.
  rewrite (bind_ok (get_matching_files repo) _ st st _ eq_refl).
  rewrite (bind_ok _ _ _ _ _ (logger_logged _ _ _)).
  set (st0 := logged _ _ st).
  assert (H0 : same_tables st st0) by apply logged_same_tables.
  clearbody st0.
  destruct (negb _); [intros [= _ <-]; exact H0 |].
  unfold bind at 1.
  destruct (collect _ [] [] st0) as [[[names langs] | e] st1] eqn:Hc.
  - apply collect_same_tables in Hc.
    pose proof (same_tables_trans _ _ _ H0 Hc) as H1.
    rewrite (bind_ok _ _ _ _ _ (logger_logged _ _ _)).
    rewrite (bind_ok _ _ _ _ _ (logger_logged _ _ _)).
    set (st2 := logged _ _ (logged _ _ st1)).
    assert (H2 : same_tables st st2).
    { apply (same_tables_trans _ _ _ H1).
      apply (same_tables_trans _ (logged INFO
               (py "Found " ++ format_d (length names) ++ py " subprojects")
               st1)); apply logged_same_tables. }
    clearbody st2.
    rewrite (bind_ok get_world _ st2 st2 (world st2) eq_refl).
    destruct (_ =? 0); intros [= _ <-]; exact H2.
  - apply collect_same_tables in Hc. intros [= _ <-].
    exact (same_tables_trans _ _ _ H0 Hc).
Qed.

Lemma set_add_nonempty {A : Type} `{EqDecision A} (x : A) (s : list A) :
  Py.set_add x s <> [].
Proof.
  unfold Py.set_add. case_bool_decide as Hin.
  - intros ->. inversion Hin.
  - destruct s; discriminate.
Qed.

Lemma collect_names (matches names : list str) (langs : list (option str))
      (st st' : State) (names' : list str) (langs' : list (option str)) :
  collect matches names langs st = (Ok (names', langs'), st') ->
  (langs <> [] -> names <> []) ->
  langs' <> [] -> names' <> [].
Proof.
  revert names langs st.
  induction matches as [| f rest IH]; intros names langs st.
  - intros [= <- <- _] Hi. exact Hi.
  - cbn [collect]. unfold bind at 1.
    destruct (get_name f st) as [[[n l] | e] st1]; [| discriminate].
    intros Hc Hi.
    destruct n as [name |]; [destruct (Py.truthy name) |].
    + apply (IH _ _ _ Hc). intros _. apply set_add_nonempty.
    + exact (IH _ _ _ Hc Hi).
    + exact (IH _ _ _ Hc Hi).
Qed.

Lemma insert_sorted_last (x : str) (l : list str) :
  is_Some (last (Py.insert_sorted x l)).
Proof.
  induction l as [| y l IH]; [eexists; reflexivity |].
  cbn [Py.insert_sorted]. destruct (Py.str_leb x y).
  - rewrite last_cons. destruct (last (y :: l)); eexists; reflexivity.
  - rewrite last_cons. destruct IH as [z ->]. eexists; reflexivity.
Qed.

Lemma sorted_last (l : list str) : l <> [] -> is_Some (last (Py.sorted l)).
Proof.
  destruct l as [| x l]; [congruence |]. intros _.
  apply insert_sorted_last.
Qed.

(** The list [get_matching_subprojects] returns is [sorted] applied to a
    set that is not empty. *)
Lemma get_matching_subprojects_sorted (repo : str) (st st' : State)
      (names : list str) :
  get_matching_subprojects repo st = (Ok names, st') ->
  exists ns : list str, ns <> [] /\ names = Py.sorted ns.
Proof.
  unfold get_matching_subprojects.
  rewrite (bind_ok (get_matching_files repo) _ st st _ eq_refl).
  rewrite (bind_ok _ _ _ _ _ (logger_logged _ _ _)).
  destruct (negb _); [discriminate |].
  unfold bind at 1.
  destruct (collect _ [] [] _) as [[[ns langs] | e] st1] eqn:Hc;
    [| discriminate].
  rewrite (bind_ok _ _ _ _ _ (logger_logged _ _ _)).
  rewrite (bind_ok _ _ _ _ _ (logger_logged _ _ _)).
  unfold bind, get_world.
  destruct (_ =? 0) eqn:Hk; [discriminate |].
  intros [= <- _]. exists ns. split; [| reflexivity].
  apply (collect_names _ _ _ _ _ _ _ Hc); [congruence |].
  intros ->. unfold known_languages in Hk.
  apply Nat.eqb_neq in Hk. apply Hk. clear Hk.
  induction (languages _) as [| x l IH]; [reflexivity |].
  cbn [List.filter]. case_bool_decide as Hin; [inversion Hin | exact IH].
Qed.

Lemma dir_exists_map (f : Dir.t -> Dir.t) (p : str) (ds : list Dir.t) :
  (forall d, Dir.path (f d) = Dir.path d) ->
  dir_exists p (map f ds) = dir_exists p ds.
Proof.
  intros Hf. unfold dir_exists.
  induction ds as [| d ds IH]; [reflexivity |].
  cbn [map existsb]. rewrite Hf, IH. reflexivity.
Qed.

Lemma dir_exists_last (p : str) (ds : list Dir.t) (d : Dir.t) :
  Dir.path d = p -> dir_exists p (ds ++ [d]) = true.
Proof.
  intros Hd. unfold dir_exists. rewrite existsb_app. cbn [existsb].
  rewrite (bool_decide_eq_true_2 _ Hd), orb_true_r. reflexivity.
Qed.

Lemma dir_exists_find (p : str) (ds : list Dir.t) :
  dir_exists p ds = true -> is_Some (find_dir p ds).
Proof.
  unfold dir_exists, find_dir.
  induction ds as [| d ds IH]; [discriminate |].
  cbn [existsb find]. destruct (bool_decide _); [eexists; reflexivity |].
  exact IH.
Qed.

(** When [checkout_tmp] returns, the directory it names is on the disk,
    and the tables are as they were. *)
Lemma checkout_tmp_exists (project : Project.t) (repo branch : str)
      (st st1 : State) (workdir : str) :
  checkout_tmp project repo branch st = (Ok workdir, st1) ->
  dir_exists workdir (dirs (world st1)) = true
  /\ components (world st1) = components (world st).
Proof.
  unfold checkout_tmp, chmod, set_files, logger, bind, get_world, put_world,
    get_self, ret, raise.
  cbn [world self dirs components with_dirs with_log].
  destruct (clone _ repo) as [files |]; [| discriminate].
  destruct (configure_branch _ branch files) as [files' |]; [| discriminate].
  intros [= <- <-]. cbn [world dirs components with_dirs with_log].
  split; [| reflexivity].
  rewrite !dir_exists_map.
  - apply dir_exists_last. reflexivity.
  - intros d. case_bool_decide as E; [symmetry; exact E | reflexivity].
  - intros d. case_bool_decide as E; [symmetry; exact E | reflexivity].
  - intros d. case_bool_decide as E; [symmetry; exact E | reflexivity].
Qed.

Lemma rmtree_removed (p : str) (st : State) :
  dir_exists p (dirs (world st)) = true ->
  rmtree p st = (Ok tt, removed p st).
Proof.
  intros Hd. unfold rmtree.
  rewrite (bind_ok get_world _ st st (world st) eq_refl), Hd. reflexivity.
Qed.

Lemma rename_moved (src dst : str) (d : Dir.t) (st : State) :
  find_dir src (dirs (world st)) = Some d ->
  match find_dir dst (dirs (world st)) with
  | Some t => Dir.files t = []
  | None => True
  end ->
  rename src dst st = (Ok tt, moved src dst d st).
Proof.
  intros Hs Ht. unfold rename.
  rewrite (bind_ok get_world _ st st (world st) eq_refl), Hs.
  destruct (find_dir dst (dirs (world st))) as [t |].
  - rewrite Ht. reflexivity.
  - reflexivity.
Qed.

(** When [checkout_tmp] raises (the clone fails, or the branch cannot be
    set up), the directory it made is on the disk. *)
Lemma checkout_tmp_error_keeps_directory (project : Project.t)
      (repo branch : str) (st st1 : State) (e : exn) :
  checkout_tmp project repo branch st = (Raise e, st1) ->
  dir_exists (mkdtemp_name (dirs (world st)) (Project.full_path project))
             (dirs (world st1)) = true.
Proof.
  unfold checkout_tmp, chmod, set_files, logger, bind, get_world, put_world,
    get_self, ret, raise.
  cbn [world self dirs components with_dirs with_log].
  destruct (clone _ repo) as [files |].
  - destruct (configure_branch _ branch files) as [files' |]; [discriminate |].
    intros [= _ <-]. cbn [world dirs with_dirs with_log].
    rewrite !dir_exists_map.
    + apply dir_exists_last. reflexivity.
    + intros d. case_bool_decide as E; [symmetry; exact E | reflexivity].
    + intros d. case_bool_decide as E; [symmetry; exact E | reflexivity].
  - intros [= _ <-]. cbn [world dirs with_dirs with_log].
    rewrite !dir_exists_map.
    + apply dir_exists_last. reflexivity.
    + intros d. case_bool_decide as E; [symmetry; exact E | reflexivity].
Qed.

(** Whatever stops [get_matching_subprojects] stops [import_initial]
    too, and the temporary checkout stays on the disk. *)
Lemma import_initial_error_keeps_checkout
      (project : Project.t) (repo branch : str) (slug_len name_len : Z)
      (st st1 st2 : State) (workdir : str) (e : exn) :
  checkout_tmp project repo branch st = (Ok workdir, st1) ->
  get_matching_subprojects workdir st1 = (Raise e, st2) ->
  import_initial project repo branch slug_len name_len st = (Raise e, st2)
  /\ dir_exists workdir (dirs (world st2)) = true.
Proof.
  intros Hco Hgm. split.
  - unfold import_initial.
    rewrite (bind_ok _ _ _ _ _ Hco). exact (bind_raise _ _ _ _ _ Hgm).
  - apply get_matching_subprojects_same_tables in Hgm.
    destruct Hgm as (-> & _). exact (proj1 (checkout_tmp_exists _ _ _ _ _ _ Hco)).
Qed.

(** C3 (amended). Without [--main-component], [import_initial] takes the
    last name of the sorted list as the main component and leaves the
    others for the loop of [handle]: the list has a last name, the
    greatest in the order of [sorted], and the temporary checkout is on
    the disk.  When the project has a component
    with the slug of that name, the temporary checkout is removed, nothing
    is created, and the existing component is the shared repository;
    otherwise the temporary checkout is renamed to the slug under the
    project's directory, and the main component is created on the
    repository URL. *)
Theorem main_component_is_last_match
        (project : Project.t) (repo branch : str) (slug_len name_len : Z)
        (st st1 st2 : State) (workdir : str) (names : list str) :
  checkout_tmp project repo branch st = (Ok workdir, st1) ->
  get_matching_subprojects workdir st1 = (Ok names, st2) ->
  Py.truthy_opt (main_component (self st2)) = false ->
  exists (m : str) (d : Dir.t),
    last names = Some m
    /\ (forall x : str, x ∈ names -> Py.str_le x m)
    /\ find_dir workdir (dirs (world st2)) = Some d
    /\ forall formatted template : str,
        format_string (name_template (self st2)) m st2 = (Ok formatted, st2) ->
        format_string (base_file_template (self st2)) m st2
        = (Ok template, st2) ->
        let name := Py.slice_to name_len formatted in
        let slug := Py.slice_to slug_len (slugify name) in
        let target := os_path_join (Project.full_path project) slug in
        let run := import_initial project repo branch slug_len name_len st in
        (slug_exists project slug (components (world st2)) = true ->
         run = (Ok (removelast names, weblate_link project slug),
                removed workdir
                  (logged WARNING
                     (py "Component " ++ name
                         ++ py " already exists, skipping and using it as main component")
                     st2)))
        /\ (slug_exists project slug (components (world st2)) = false ->
            match find_dir target (dirs (world st2)) with
            | Some t => Dir.files t = []
            | None => True
            end ->
            run = (Ok (removelast names, weblate_link project slug),
                   stored
                     (new_component (self st2) name slug project
                        (Some (push_url (self st2))) repo branch template
                        (Py.replace (py "**") m (filemask (self st2))))
                     (moved workdir target d
                        (logged INFO
                           (py "Creating component " ++ name
                               ++ py " as main one")
                           st2)))).
Proof.
  intros Hco Hgm Hmain.
  destruct (get_matching_subprojects_sorted _ _ _ _ Hgm) as (ns & Hns & Hsorted).
  destruct (sorted_last ns Hns) as [m Hlast]. rewrite <- Hsorted in Hlast.
  assert (Hmax : forall x : str, x ∈ names -> Py.str_le x m).
  { apply ordered_last; [| exact Hlast]. rewrite Hsorted. apply sorted_ordered. }
  assert (Hdir : dir_exists workdir (dirs (world st2)) = true).
  { destruct (get_matching_subprojects_same_tables _ _ _ _ Hgm) as (-> & _).
    exact (proj1 (checkout_tmp_exists _ _ _ _ _ _ Hco)). }
  destruct (dir_exists_find _ _ Hdir) as [d Hd].
  exists m, d. split; [exact Hlast |]. split; [exact Hmax |].
  split; [exact Hd |].
  intros formatted template Hname Htemplate name slug target run.
  subst run. unfold import_initial.
  rewrite (bind_ok _ _ _ _ _ Hco), (bind_ok _ _ _ _ _ Hgm).
  rewrite (bind_ok get_self _ st2 st2 (self st2) eq_refl).
  rewrite Hmain.
  assert (Hpop : pop names st2 = (Ok (m, removelast names), st2)).
  { unfold pop. rewrite Hlast. reflexivity. }
  rewrite (bind_ok _ _ _ _ _ Hpop). cbv beta iota zeta.
  rewrite (bind_ok _ _ _ _ _ Hname), (bind_ok _ _ _ _ _ Htemplate).
  rewrite (bind_ok get_world _ st2 st2 (world st2) eq_refl).
  fold name. fold slug. fold target.
  split.
  - intros ->.
    rewrite (bind_ok _ _ _ _ _ (logger_logged _ _ _)).
    set (logged_ := logged WARNING _ st2).
    rewrite (bind_ok _ _ _ _ _ (rmtree_removed workdir logged_ Hdir)).
    reflexivity.
  - intros -> Hfree.
    rewrite (bind_ok _ _ _ _ _ (logger_logged _ _ _)).
    set (logged_ := logged INFO _ st2).
    rewrite (bind_ok _ _ _ _ _ (rename_moved workdir target d logged_ Hd Hfree)).
    rewrite (bind_ok _ _ _ _ _ (create_stored _ _)).
    reflexivity.
Qed.

End MainComponent.

(** The first import into the empty site: the names are [alpha] and
    [beta], and [beta] becomes the main component. *)
Lemma main_component_is_last_match_witness :
  let st := {| self := Demo.command (py "**/*.po"); world := Demo.site |} in
  let r := @import_initial Demo.platform Demo.hello Demo.remote (py "master")
                           100 100 st in
  fst r = Ok ([py "alpha"], py "weblate://hello/beta")
  /\ map SubProject.name (components (world (snd r))) = [py "beta"]
  /\ map Dir.path (dirs (world (snd r))) = [py "/data/hello/beta"].
Proof.
  intros st r.
  pose (c1 := @checkout_tmp Demo.platform Demo.hello Demo.remote (py "master") st).
  pose (g1 := @get_matching_subprojects Demo.platform (py "/data/hello/tmp0")
                                        (snd c1)).
  assert (Hc : c1 = (Ok (py "/data/hello/tmp0"), snd c1))
    by (vm_compute; reflexivity).
  assert (Hg : g1 = (Ok [py "alpha"; py "beta"], snd g1))
    by (vm_compute; reflexivity).
  destruct (@main_component_is_last_match Demo.platform Demo.hello
              Demo.remote (py "master") 100 100 st (snd c1) (snd g1)
              (py "/data/hello/tmp0") [py "alpha"; py "beta"]
              Hc Hg eq_refl) as (m & d & Hlast & _ & Hd & E).
  injection Hlast as <-.
  assert (Hd' : Some d = Some {| Dir.path := py "/data/hello/tmp0";
                                 Dir.mode := 493;
                                 Dir.files := Demo.remote_files |})
    by (rewrite <- Hd; vm_compute; reflexivity).
  injection Hd' as ->.
  pose proof (proj2 (E (py "beta") [] eq_refl eq_refl) eq_refl I) as E'.
  subst r. rewrite E'.
  repeat split; vm_compute; reflexivity.
Defined.

(** C3, as stated, fails: the sorted list starts with [alpha], and the
    main component, the one created on the repository URL, is [beta]. *)
Lemma main_component_is_not_first_match :
  let st := {| self := Demo.command (py "**/*.po"); world := Demo.site |} in
  (exists st1 st2,
      @checkout_tmp Demo.platform Demo.hello Demo.remote (py "master") st
      = (Ok (py "/data/hello/tmp0"), st1)
      /\ @get_matching_subprojects Demo.platform (py "/data/hello/tmp0") st1
         = (Ok [py "alpha"; py "beta"], st2))
  /\ map (fun sp => (SubProject.name sp, SubProject.repo sp))
         (components
            (snd (@handle Demo.platform (Demo.options (py "**/*.po") None false)
                          Demo.site)))
     = [(py "beta", Demo.remote); (py "alpha", py "weblate://hello/beta")].
Proof.
  intros st. split.
  - eexists _, _. split; vm_compute; reflexivity.
  - vm_compute. reflexivity.
Qed.

(** ** The temporary checkout *)

(** C7. No file matches the mask [**/*.txt]: the command stops with a
    [CommandError] and the temporary checkout is still on the disk. *)
Lemma temporary_checkout_left_behind :
  let r := @handle Demo.platform (Demo.options (py "**/*.txt") None false)
                   Demo.site in
  fst r = Raise (CommandError (py "Your mask did not match any files!"))
  /\ map Dir.path (dirs (snd r)) = [py "/data/hello/tmp0"]
  /\ components (snd r) = [].
Proof. repeat split; vm_compute; reflexivity. Qed.

(** ** The expression of a mask *)

(** *** [str.replace] *)

Section Replace.

Variables old new : str.

Lemma replace_scan_done (s : str) :
  Py.replace_scan old new (Some 0) 0 s = s.
Proof. induction s as [| c s IH]; [reflexivity |]. simpl. rewrite IH. reflexivity. Qed.

Lemma replace_scan_skip (count : option nat) (pre rest : str) :
  Py.replace_scan old new count (length pre) (pre ++ rest)
  = Py.replace_scan old new count 0 rest.
Proof. induction pre as [| c pre IH]; [reflexivity | exact IH]. Qed.

Lemma startswith_app (p rest : str) : Py.startswith p (p ++ rest) = true.
Proof.
  induction p as [| c p IH]; [reflexivity |].
  simpl. destruct (ascii_dec c c); [exact IH | contradiction].
Qed.

Lemma replace_scan_miss (count : option nat) (c : ascii) (rest : str) :
  Py.startswith old (c :: rest) = false ->
  Py.replace_scan old new count 0 (c :: rest)
  = c :: Py.replace_scan old new count 0 rest.
Proof.
  intros Hm. cbn [Py.replace_scan]. rewrite Hm, andb_false_r. reflexivity.
Qed.

Lemma replace_scan_hit (count : option nat) (rest : str) :
  old <> [] ->
  Py.may_replace count = true ->
  Py.replace_scan old new count 0 (old ++ rest)
  = new ++ Py.replace_scan old new (Py.one_less count) 0 rest.
Proof.
  intros Hne Hc. destruct old as [| a old'] eqn:Hold; [contradiction |].
  cbn [app Py.replace_scan]. rewrite Hc.
  change (a :: old' ++ rest) with ((a :: old') ++ rest).
  rewrite startswith_app. cbn [andb length pred].
  rewrite <- Hold. rewrite replace_scan_skip. reflexivity.
Qed.

End Replace.

(** *** [fnmatch.translate] on a mask *)

Lemma translate_scan_mask (m : list Mask.token) :
  forallb Mask.literal_ok m = true ->
  Fnmatch.translate_scan 0 (Mask.render m) = Mask.texts (map Mask.translated m).
Proof.
  induction m as [| t m IH]; [reflexivity |].
  cbn [forallb]. rewrite andb_true_iff. intros [Ht Hm].
  specialize (IH Hm). destruct t as [c | |].
  - cbn [Mask.render flat_map Mask.render_token app map Mask.translated
         Mask.texts Mask.text Fnmatch.translate_scan].
    cbn [Mask.literal_ok] in Ht. unfold Mask.plain in Ht.
    rewrite negb_true_iff, !orb_false_iff in Ht.
    destruct Ht as [[H1 H2] H3].
    apply bool_decide_eq_false_1 in H1, H2, H3.
    destruct (ascii_dec c "*"); [contradiction |].
    destruct (ascii_dec c "?"); [contradiction |].
    destruct (ascii_dec c "["); [contradiction |].
    fold (Mask.render m). rewrite IH. reflexivity.
  - change (Mask.render (Mask.Star :: m)) with ("*"%char :: Mask.render m).
    cbn [Fnmatch.translate_scan]. rewrite IH. reflexivity.
  - change (Mask.render (Mask.DoubleStar :: m))
      with ("*"%char :: "*"%char :: Mask.render m).
    cbn [Fnmatch.translate_scan]. rewrite IH. reflexivity.
Qed.

(** *** The four replacements, piece by piece *)

Lemma replace_scan_copy (a : ascii) (o new : str) (count : option nat)
      (t rest : str) :
  forallb (fun x => negb (bool_decide (x = a))) t = true ->
  Py.replace_scan (a :: o) new count 0 (t ++ rest)
  = t ++ Py.replace_scan (a :: o) new count 0 rest.
Proof.
  induction t as [| x t IH]; [reflexivity |].
  cbn [forallb]. rewrite andb_true_iff, negb_true_iff.
  intros [Hx Ht]. apply bool_decide_eq_false_1 in Hx.
  cbn [app]. rewrite replace_scan_miss.
  - rewrite (IH Ht). reflexivity.
  - cbn [Py.startswith]. destruct (ascii_dec a x); [congruence | reflexivity].
Qed.

Lemma startswith_one (b : ascii) (o rest : str) :
  Py.startswith [b] rest = false -> Py.startswith (b :: o) rest = false.
Proof.
  destruct rest as [| x rest]; [reflexivity |].
  cbn [Py.startswith]. destruct (ascii_dec b x); [discriminate | reflexivity].
Qed.

(** An escaped character is copied by a replacement whose [old] starts
    with a character that is neither alphanumeric nor the backslash, when
    the text after it does not start with the second character of [old]. *)
Lemma replace_scan_escape (a b : ascii) (o new : str) (count : option nat)
      (c : ascii) (rest : str) :
  Py.is_alnum_ a = false ->
  a <> "\"%char ->
  Py.startswith [b] rest = false ->
  Py.replace_scan (a :: b :: o) new count 0 (Fnmatch.escape c ++ rest)
  = Fnmatch.escape c ++ Py.replace_scan (a :: b :: o) new count 0 rest.
Proof.
  intros Ha Hbs Hb. unfold Fnmatch.escape.
  destruct (Py.is_alnum_ c) eqn:Hc.
  - apply replace_scan_copy. cbn [forallb]. rewrite andb_true_r, negb_true_iff.
    apply bool_decide_eq_false_2. intros ->. congruence.
  - destruct (ascii_dec c zero) as [-> | Hz].
    + apply replace_scan_copy. cbn [forallb list_ascii_of_string].
      rewrite !andb_true_iff, !negb_true_iff.
      repeat split; apply bool_decide_eq_false_2;
        intros Heq; try congruence; subst a; discriminate.
    + cbn [app]. rewrite replace_scan_miss.
      2: { cbn [Py.startswith]. destruct (ascii_dec a "\"); [congruence | reflexivity]. }
      rewrite replace_scan_miss; [reflexivity |].
      cbn [Py.startswith]. destruct (ascii_dec a c); [| reflexivity].
      apply startswith_one, Hb.
Qed.

(** The first character of a piece is alphanumeric, a backslash, a dot
    or an opening parenthesis. *)
Lemma text_head (ch : ascii) (p : Mask.piece) (rest : str) :
  Py.is_alnum_ ch = false ->
  ch <> "\"%char -> ch <> "."%char -> ch <> "("%char ->
  Py.startswith [ch] (Mask.text p ++ rest) = false.
Proof.
  intros Ha H1 H2 H3.
  assert (Hcase : forall x tl, x <> ch -> Py.startswith [ch] (x :: tl) = false).
  { intros x tl Hx. cbn [Py.startswith].
    destruct (ascii_dec ch x); [congruence | reflexivity]. }
  destruct p; try (apply Hcase; congruence).
  cbn [Mask.text]. unfold Fnmatch.escape.
  destruct (Py.is_alnum_ c) eqn:Hc.
  - apply Hcase. intros ->. congruence.
  - destruct (ascii_dec c zero); apply Hcase; congruence.
Qed.

Lemma texts_head (ch : ascii) (ps : list Mask.piece) (tail : str) :
  Py.is_alnum_ ch = false ->
  ch <> "\"%char -> ch <> "."%char -> ch <> "("%char ->
  Py.startswith [ch] tail = false ->
  Py.startswith [ch] (Mask.texts ps ++ tail) = false.
Proof.
  intros Ha H1 H2 H3 Ht. destruct ps as [| p ps]; [exact Ht |].
  unfold Mask.texts. cbn [flat_map]. rewrite <- app_assoc.
  apply text_head; assumption.
Qed.

Lemma texts_head_star (ps : list Mask.piece) (tail : str) :
  Py.startswith (py "*") tail = false ->
  Py.startswith (py "*") (Mask.texts ps ++ tail) = false.
Proof. apply texts_head; [reflexivity | discriminate ..]. Qed.

Lemma texts_head_bracket (ps : list Mask.piece) (tail : str) :
  Py.startswith (py "[") tail = false ->
  Py.startswith (py "[") (Mask.texts ps ++ tail) = false.
Proof. apply texts_head; [reflexivity | discriminate ..]. Qed.

(** After a single wildcard that stands apart, the text does not go on
    with the translation of a wildcard. *)
Lemma texts_head_wildcard (m : list Mask.token) (tail : str) :
  match m with
  | next :: _ => Mask.is_wildcard next = false
  | [] => True
  end ->
  Py.startswith (py ".*") tail = false ->
  Py.startswith (py ".*") (Mask.texts (map Mask.translated m) ++ tail) = false.
Proof.
  intros Hm Ht. destruct m as [| [c | |] m]; try discriminate; [exact Ht |].
  unfold Mask.texts. cbn [map Mask.translated flat_map Mask.text].
  unfold Fnmatch.escape. destruct (Py.is_alnum_ c) eqn:Hc.
  - cbn [app Py.startswith list_ascii_of_string].
    destruct (ascii_dec "." c) as [<- |]; [discriminate | reflexivity].
  - destruct (ascii_dec c zero); reflexivity.
Qed.

(** The first replacement: the double wildcard becomes the group [name]. *)
Lemma name_step_scan (m : list Mask.token) (tail : str) :
  Mask.stars_apart m = true ->
  Py.startswith (py "*") tail = false ->
  Py.startswith (py ".*") tail = false ->
  Py.replace_scan (py ".*.*") (py "(?P<name>[[WILDCARD]])") None 0
    (Mask.texts (map Mask.translated m) ++ tail)
  = Mask.texts (map Mask.name_step (map Mask.translated m))
      ++ Py.replace_scan (py ".*.*") (py "(?P<name>[[WILDCARD]])") None 0 tail.
Proof.
  intros Hm Hs Hd. cbn [list_ascii_of_string] in *.
  induction m as [| t m IH]; [reflexivity |].
  cbn [Mask.stars_apart] in Hm. rewrite andb_true_iff in Hm.
  destruct Hm as [Hnext Hm]. specialize (IH Hm).
  unfold Mask.texts in *. cbn [map flat_map]. rewrite <- !app_assoc.
  destruct t as [c | |]; cbn [Mask.translated Mask.name_step Mask.text].
  - rewrite replace_scan_escape;
      [rewrite IH; reflexivity | reflexivity | discriminate |].
    apply texts_head_star, Hs.
  - assert (Hx : Py.startswith (py ".*")
                   (flat_map Mask.text (map Mask.translated m) ++ tail) = false).
    { apply texts_head_wildcard; [| exact Hd].
      destruct m as [| next m]; [exact I |].
      rewrite negb_true_iff in Hnext. exact Hnext. }
    cbn [list_ascii_of_string app] in *.
    rewrite replace_scan_miss by exact Hx.
    rewrite replace_scan_miss by reflexivity.
    rewrite IH. reflexivity.
  - cbn [list_ascii_of_string].
    rewrite (replace_scan_hit (py ".*.*") _ None) by (discriminate || reflexivity).
    cbn [Py.one_less list_ascii_of_string]. rewrite IH. reflexivity.
Qed.

(** The second replacement: the first single wildcard becomes the group
    [language]; the count of one stops the scan there. *)
Lemma language_step_scan (ps : list Mask.piece) (tail : str) :
  forallb Mask.single_only ps = true ->
  Py.startswith (py "*") tail = false ->
  (forall count,
      Py.replace_scan (py ".*") (py "(?P<language>[[WILDCARD]])") count 0 tail
      = tail) ->
  Py.replace_scan (py ".*") (py "(?P<language>[[WILDCARD]])") (Some 1) 0
    (Mask.texts ps ++ tail)
  = Mask.texts (Mask.language_step ps) ++ tail.
Proof.
  intros Hps Hs Htail. cbn [list_ascii_of_string] in *.
  induction ps as [| p ps IH]; [apply Htail |].
  cbn [forallb] in Hps. rewrite andb_true_iff in Hps.
  destruct Hps as [Hp Hps]. specialize (IH Hps).
  unfold Mask.texts in *. cbn [flat_map]. rewrite <- !app_assoc.
  destruct p; try discriminate;
    cbn [Mask.language_step flat_map Mask.text]; rewrite <- ?app_assoc.
  - rewrite replace_scan_escape;
      [rewrite IH; reflexivity | reflexivity | discriminate |].
    apply texts_head_star, Hs.
  - cbn [list_ascii_of_string].
    rewrite (replace_scan_hit (py ".*") _ (Some 1)) by (discriminate || reflexivity).
    cbn [Py.one_less pred list_ascii_of_string].
    rewrite replace_scan_done. reflexivity.
  - rewrite replace_scan_copy by reflexivity. rewrite IH. reflexivity.
  - rewrite replace_scan_copy by reflexivity. rewrite IH. reflexivity.
  - rewrite replace_scan_copy by reflexivity. rewrite IH. reflexivity.
Qed.

(** The third replacement: every single wildcard left becomes a
    reference to the group [language]. *)
Lemma reference_step_scan (ps : list Mask.piece) (tail : str) :
  forallb Mask.single_only ps = true ->
  Py.startswith (py "*") tail = false ->
  Py.replace_scan (py ".*") (py "(?P=language)") None 0 tail = tail ->
  Py.replace_scan (py ".*") (py "(?P=language)") None 0 (Mask.texts ps ++ tail)
  = Mask.texts (map Mask.reference_step ps) ++ tail.
Proof.
  intros Hps Hs Htail. cbn [list_ascii_of_string] in *.
  induction ps as [| p ps IH]; [apply Htail |].
  cbn [forallb] in Hps. rewrite andb_true_iff in Hps.
  destruct Hps as [Hp Hps]. specialize (IH Hps).
  unfold Mask.texts in *. cbn [map flat_map]. rewrite <- !app_assoc.
  destruct p; try discriminate; cbn [Mask.reference_step Mask.text].
  - rewrite replace_scan_escape;
      [rewrite IH; reflexivity | reflexivity | discriminate |].
    apply texts_head_star, Hs.
  - cbn [list_ascii_of_string].
    rewrite (replace_scan_hit (py ".*") _ None) by (discriminate || reflexivity).
    cbn [Py.one_less list_ascii_of_string]. rewrite IH. reflexivity.
  - rewrite replace_scan_copy by reflexivity. rewrite IH. reflexivity.
  - rewrite replace_scan_copy by reflexivity. rewrite IH. reflexivity.
  - rewrite replace_scan_copy by reflexivity. rewrite IH. reflexivity.
Qed.

(** The fourth replacement: the placeholder becomes the wildcard of the
    expression. *)
Lemma wildcard_step_scan (ps : list Mask.piece) (tail : str) :
  Py.startswith (py "[") tail = false ->
  Py.replace_scan (py "[[WILDCARD]]") (py ".*") None 0 tail = tail ->
  Py.replace_scan (py "[[WILDCARD]]") (py ".*") None 0 (Mask.texts ps ++ tail)
  = Mask.texts (map Mask.wildcard_step ps) ++ tail.
Proof.
  intros Hs Htail. cbn [list_ascii_of_string] in *.
  induction ps as [| p ps IH]; [apply Htail |].
  unfold Mask.texts in *. cbn [map flat_map]. rewrite <- !app_assoc.
  destruct p; cbn [Mask.wildcard_step Mask.text];
    try (rewrite replace_scan_copy by reflexivity; rewrite IH; reflexivity).
  - rewrite replace_scan_escape;
      [rewrite IH; reflexivity | reflexivity | discriminate |].
    apply texts_head_bracket, Hs.
  - change (py "(?P<name>[[WILDCARD]])")
      with (py "(?P<name>" ++ py "[[WILDCARD]]" ++ py ")").
    rewrite <- !app_assoc.
    cbn [list_ascii_of_string].
    rewrite replace_scan_copy by reflexivity.
    rewrite (replace_scan_hit (py "[[WILDCARD]]") _ None)
      by (discriminate || reflexivity).
    cbn [Py.one_less list_ascii_of_string].
    rewrite replace_scan_copy by reflexivity. rewrite IH. reflexivity.
  - change (py "(?P<language>[[WILDCARD]])")
      with (py "(?P<language>" ++ py "[[WILDCARD]]" ++ py ")").
    rewrite <- !app_assoc.
    cbn [list_ascii_of_string].
    rewrite replace_scan_copy by reflexivity.
    rewrite (replace_scan_hit (py "[[WILDCARD]]") _ None)
      by (discriminate || reflexivity).
    cbn [Py.one_less list_ascii_of_string].
    rewrite replace_scan_copy by reflexivity. rewrite IH. reflexivity.
Qed.

(** *** The text of the expression *)

Lemma single_only_name_step (m : list Mask.token) :
  forallb Mask.single_only (map Mask.name_step (map Mask.translated m)) = true.
Proof.
  induction m as [| [c | |] m IH]; cbn [map forallb]; try exact IH; reflexivity.
Qed.

Lemma single_only_language_step (ps : list Mask.piece) :
  forallb Mask.single_only ps = true ->
  forallb Mask.single_only (Mask.language_step ps) = true.
Proof.
  induction ps as [| p ps IH]; [reflexivity |].
  cbn [forallb]. rewrite andb_true_iff. intros [Hp Hps].
  destruct p; try discriminate; cbn [Mask.language_step forallb];
    rewrite ?IH by exact Hps; try reflexivity; exact Hps.
Qed.

(** The text [match_regexp] compiles, piece by piece. *)
Lemma mask_regexp_text_pieces (m : list Mask.token) :
  forallb Mask.literal_ok m = true ->
  Mask.stars_apart m = true ->
  mask_regexp_text (Mask.render m)
  = py "(?s:" ++ Mask.texts (Mask.steps m) ++ py ")\Z".
Proof.
  intros Hlit Hapart.
  pose proof (name_step_scan m (py ")\Z") Hapart eq_refl eq_refl) as H1.
  pose proof (language_step_scan _ (py ")\Z") (single_only_name_step m) eq_refl)
    as H2.
  pose proof (reference_step_scan _ (py ")\Z")
                (single_only_language_step _ (single_only_name_step m))
                eq_refl eq_refl) as H3.
  pose proof (wildcard_step_scan
                (map Mask.reference_step
                     (Mask.language_step
                        (map Mask.name_step (map Mask.translated m))))
                (py ")\Z") eq_refl eq_refl) as H4.
  assert (Htail : forall count,
             Py.replace_scan (py ".*") (py "(?P<language>[[WILDCARD]])") count 0
                             (py ")\Z") = py ")\Z")
    by (intros [[| n] |]; reflexivity).
  specialize (H2 Htail). clear Htail.
  unfold mask_regexp_text, Fnmatch.translate, Py.replace, Py.replace_n,
    Mask.steps.
  rewrite (translate_scan_mask m Hlit).
  cbn [list_ascii_of_string Py.replace_count] in *.
  rewrite (replace_scan_copy "." _ _ None (py "(?s:")) by reflexivity.
  rewrite H1.
  cbn [list_ascii_of_string Py.replace_scan Py.startswith Py.may_replace andb].
  destruct (ascii_dec "." ")") as [Hbad |]; [discriminate Hbad |].
  destruct (ascii_dec "." "\") as [Hbad |]; [discriminate Hbad |].
  destruct (ascii_dec "." "Z") as [Hbad |]; [discriminate Hbad |].
  rewrite (replace_scan_copy "." _ _ (Some 1) (py "(?s:")) by reflexivity.
  rewrite H2.
  rewrite (replace_scan_copy "." _ _ None (py "(?s:")) by reflexivity.
  rewrite H3.
  rewrite (replace_scan_copy "[" _ _ None (py "(?s:")) by reflexivity.
  rewrite H4.
  reflexivity.
Qed.

Lemma steps_after_language (m : list Mask.token) :
  Mask.texts
    (map Mask.wildcard_step
         (map Mask.reference_step (map Mask.name_step (map Mask.translated m))))
  = flat_map Mask.item_text (Mask.items true m).
Proof.
  induction m as [| [c | |] m IH]; [reflexivity | | |];
    unfold Mask.texts in *; cbn [map flat_map Mask.items]; rewrite IH;
    reflexivity.
Qed.

Lemma steps_items (m : list Mask.token) :
  Mask.texts (Mask.steps m) = flat_map Mask.item_text (Mask.items false m).
Proof.
  unfold Mask.steps. induction m as [| [c | |] m IH]; [reflexivity | | |].
  - unfold Mask.texts in *.
    cbn [map Mask.translated Mask.name_step Mask.language_step flat_map
         Mask.items].
    rewrite IH. reflexivity.
  - pose proof (steps_after_language m) as Hafter. unfold Mask.texts in *.
    cbn [map Mask.translated Mask.name_step Mask.language_step flat_map
         Mask.items].
    rewrite Hafter. reflexivity.
  - unfold Mask.texts in *.
    cbn [map Mask.translated Mask.name_step Mask.language_step flat_map
         Mask.items].
    rewrite IH. reflexivity.
Qed.

(** The text [match_regexp] compiles is the text of the mask's items. *)
Lemma mask_regexp_text_items (m : list Mask.token) :
  forallb Mask.literal_ok m = true ->
  Mask.stars_apart m = true ->
  mask_regexp_text (Mask.render m) = Mask.regexp_text m.
Proof.
  intros Hlit Hapart. rewrite (mask_regexp_text_pieces m Hlit Hapart).
  rewrite steps_items. reflexivity.
Qed.

(** *** Compiling the text *)

Lemma alnum_not_special (c : ascii) :
  Py.is_alnum_ c = true ->
  Re.is_special c = false
  /\ c <> "("%char /\ c <> "\"%char /\ c <> "."%char.
Proof.
  destruct c as [[] [] [] [] [] [] [] []]; intros Hc;
    first [discriminate Hc | repeat split; discriminate].
Qed.

Lemma strip_prefix_mismatch (a c : ascii) (p rest : str) :
  a <> c -> Re.strip_prefix (a :: p) (c :: rest) = None.
Proof.
  intros Hne. unfold Re.strip_prefix. cbn [Py.startswith].
  destruct (ascii_dec a c); [contradiction | reflexivity].
Qed.

Lemma parse_escape (f : nat) (c : ascii) (rest : str) :
  Re.parse (S f) (Fnmatch.escape c ++ rest)
  = Re.cons_item (Re.Char c) (Re.parse f rest).
Proof.
  unfold Fnmatch.escape. destruct (Py.is_alnum_ c) eqn:Hc.
  - destruct (alnum_not_special c Hc) as (Hs & H1 & H2 & H3).
    cbn [app Re.parse list_ascii_of_string].
    rewrite !strip_prefix_mismatch by congruence.
    destruct (ascii_dec c "\"); [congruence |].
    destruct (ascii_dec c "."); [congruence |].
    rewrite Hs. reflexivity.
  - destruct (ascii_dec c zero) as [-> | Hz]; [reflexivity |].
    cbn [app Re.parse list_ascii_of_string].
    rewrite !strip_prefix_mismatch by discriminate.
    assert (H0 : Re.strip_prefix (py "\000") ("\"%char :: c :: rest) = None).
    { unfold Re.strip_prefix. cbn [Py.startswith list_ascii_of_string].
      destruct (ascii_dec "\" "\") as [_ | Hbad]; [| contradiction].
      destruct (ascii_dec "0" c) as [<- |]; [discriminate Hc | reflexivity]. }
    cbn [list_ascii_of_string] in H0. rewrite H0.
    destruct (ascii_dec "\" "\") as [_ | Hbad]; [| contradiction].
    rewrite Hc. reflexivity.
Qed.

Lemma parse_items (m : list Mask.token) :
  forall (seen : bool) (fuel : nat),
    length m <= fuel ->
    Re.parse fuel (flat_map Mask.item_text (Mask.items seen m))
    = Some (Mask.items seen m).
Proof.
  induction m as [| t m IH]; intros seen fuel Hf; [destruct fuel; reflexivity |].
  destruct fuel as [| f]; [cbn [length] in Hf; lia |].
  cbn [length] in Hf.
  destruct t as [c | |]; cbn [Mask.items flat_map Mask.item_text].
  - rewrite parse_escape, IH by lia. reflexivity.
  - destruct seen.
    + transitivity (Re.cons_item (Re.Backref (py "language"))
                      (Re.parse f (flat_map Mask.item_text (Mask.items true m))));
        [reflexivity |].
      rewrite IH by lia. reflexivity.
    + transitivity (Re.cons_item (Re.Group (py "language"))
                      (Re.parse f (flat_map Mask.item_text (Mask.items true m))));
        [reflexivity |].
      rewrite IH by lia. reflexivity.
  - transitivity (Re.cons_item (Re.Group (py "name"))
                    (Re.parse f (flat_map Mask.item_text (Mask.items seen m))));
      [reflexivity |].
    rewrite IH by lia. reflexivity.
Qed.

Lemma item_text_nonempty (i : Re.item) : 1 <= length (Mask.item_text i).
Proof.
  destruct i as [c | | g | g]; cbn [Mask.item_text]; rewrite ?length_app;
    cbn [length list_ascii_of_string]; try lia.
  unfold Fnmatch.escape.
  destruct (Py.is_alnum_ c); [cbn [length]; lia |].
  destruct (ascii_dec c zero); cbn [length list_ascii_of_string]; lia.
Qed.

Lemma items_length (m : list Mask.token) (seen : bool) :
  length m <= length (flat_map Mask.item_text (Mask.items seen m)).
Proof.
  revert seen. induction m as [| t m IH]; intros seen; [cbn; lia |].
  destruct t; cbn [Mask.items flat_map length]; rewrite length_app;
    match goal with
    | |- context [Mask.item_text ?i] => pose proof (item_text_nonempty i)
    end;
    match goal with
    | |- context [Mask.items ?s m] => specialize (IH s)
    end; lia.
Qed.

Lemma strip_prefix_app (p rest : str) : Re.strip_prefix p (p ++ rest) = Some rest.
Proof.
  unfold Re.strip_prefix. rewrite startswith_app.
  rewrite skipn_app, Nat.sub_diag, skipn_all. reflexivity.
Qed.

Lemma strip_suffix_app (p body : str) : Re.strip_suffix p (body ++ p) = Some body.
Proof.
  unfold Re.strip_suffix. rewrite rev_app_distr, strip_prefix_app.
  cbn [option_map]. rewrite rev_involutive. reflexivity.
Qed.

Lemma names_ok_items (m : list Mask.token) :
  forall (seen : bool) (defined : list str),
    Mask.doubles m <= 1 ->
    (Mask.doubles m = 1 -> py "name" ∉ defined) ->
    (py "language" ∈ defined <-> seen = true) ->
    Re.names_ok defined (Mask.items seen m) = true.
Proof.
  induction m as [| t m IH]; intros seen defined Hd Hname Hlang; [reflexivity |].
  destruct t as [c | |]; cbn [Mask.items Re.names_ok Mask.doubles] in *.
  - apply IH; assumption.
  - destruct seen.
    + cbn [Re.names_ok]. rewrite bool_decide_eq_true_2 by (apply Hlang; reflexivity).
      apply IH; assumption.
    + cbn [Re.names_ok].
      rewrite bool_decide_eq_false_2
        by (intros Hin; apply Hlang in Hin; discriminate).
      apply IH; [assumption | |].
      * intros Hone Hin. apply elem_of_cons in Hin as [Heq | Hin];
          [discriminate Heq | exact (Hname Hone Hin)].
      * split; [reflexivity | intros _; apply elem_of_cons; left; reflexivity].
  - rewrite bool_decide_eq_false_2 by (apply Hname; lia).
    apply IH; [lia | lia |].
    rewrite <- Hlang. split.
    + intros Hin. apply elem_of_cons in Hin as [Heq | Hin];
        [discriminate Heq | exact Hin].
    + intros Hin. apply elem_of_cons. right. exact Hin.
Qed.

(** [re.compile] of the text of a mask gives the items of the mask. *)
Lemma compile_items_mask (m : list Mask.token) :
  Mask.doubles m = 1 ->
  Re.compile_items (Mask.regexp_text m) = Some (Mask.items false m).
Proof.
  intros Hd. unfold Re.compile_items, Mask.regexp_text.
  rewrite strip_prefix_app, strip_suffix_app.
  rewrite parse_items by apply items_length.
  rewrite names_ok_items; [reflexivity | lia | | ].
  - intros _ Hin. apply elem_of_nil in Hin. exact Hin.
  - split; [intros Hin; apply elem_of_nil in Hin; contradiction | discriminate].
Qed.

(** *** Matching *)

Lemma first_some_inv {A B : Type} (f : A -> option B) (l : list A) (b : B) :
  Re.first_some f l = Some b -> exists a, In a l /\ f a = Some b.
Proof.
  induction l as [| a l IH]; [discriminate |].
  cbn [Re.first_some]. destruct (f a) as [b' |] eqn:Hfa.
  - intros [= <-]. exists a. split; [left; reflexivity | exact Hfa].
  - intros Hl. destruct (IH Hl) as (a' & Hin & Ha'). exists a'.
    split; [right; exact Hin | exact Ha'].
Qed.

Lemma first_some_found {A B : Type} (f : A -> option B) (l : list A) (a : A)
      (b : B) :
  In a l -> f a = Some b -> exists b', Re.first_some f l = Some b'.
Proof.
  induction l as [| x l IH]; intros Hin Hfa; [destruct Hin |].
  cbn [Re.first_some]. destruct (f x) as [b' |] eqn:Hfx; [eauto |].
  destruct Hin as [-> | Hin]; [congruence | exact (IH Hin Hfa)].
Qed.

Lemma in_greedy (s : str) (k : nat) : In k (Re.greedy s) <-> k <= length s.
Proof. unfold Re.greedy. rewrite <- in_rev, in_seq. lia. Qed.

Lemma startswith_split (v s : str) :
  Py.startswith v s = true -> s = v ++ skipn (length v) s.
Proof.
  revert s. induction v as [| a v IH]; intros s Hs; [reflexivity |].
  destruct s as [| b s]; [discriminate |].
  cbn [Py.startswith] in Hs. destruct (ascii_dec a b) as [<- |]; [| discriminate].
  cbn [length skipn app]. rewrite <- (IH s Hs). reflexivity.
Qed.

(** A mask without a double wildcard does not use the name. *)
Lemma fill_without_double (m : list Mask.token) (n n' l : str) :
  Mask.doubles m = 0 -> Mask.fill n l m = Mask.fill n' l m.
Proof.
  unfold Mask.fill. induction m as [| [c | |] m IH]; intros Hd;
    cbn [flat_map Mask.fill_token Mask.doubles] in *;
    [reflexivity | | | discriminate]; rewrite (IH Hd); reflexivity.
Qed.

(** A mask without a single wildcard does not use the language. *)
Lemma fill_without_single (m : list Mask.token) (n l l' : str) :
  Mask.singles m = 0 -> Mask.fill n l m = Mask.fill n l' m.
Proof.
  unfold Mask.fill. induction m as [| [c | |] m IH]; intros Hd;
    cbn [flat_map Mask.fill_token Mask.singles] in *;
    [reflexivity | | discriminate |]; rewrite (IH Hd); reflexivity.
Qed.

(** What a match of the items of a mask says about the string and about
    the groups. *)
Lemma match_items_sound (m : list Mask.token) :
  forall (seen : bool) (e : Re.groups) (s : str) (e' : Re.groups),
    Mask.doubles m <= 1 ->
    (seen = true -> is_Some (Re.lookup (py "language") e)) ->
    Re.match_items (Mask.items seen m) e s = Some e' ->
    exists n l : str,
      s = Mask.fill n l m
      /\ (Mask.doubles m = 1 -> Re.lookup (py "name") e' = Some n)
      /\ (Mask.doubles m = 0 ->
          Re.lookup (py "name") e' = Re.lookup (py "name") e)
      /\ (seen = true ->
          Re.lookup (py "language") e = Some l
          /\ Re.lookup (py "language") e' = Some l)
      /\ (seen = false -> 0 < Mask.singles m ->
          Re.lookup (py "language") e' = Some l)
      /\ (seen = false -> Mask.singles m = 0 ->
          Re.lookup (py "language") e' = Re.lookup (py "language") e).
Proof.
  induction m as [| t m IH]; intros seen e s e' Hd Hseen Hmatch.
  - cbn [Mask.items Re.match_items] in Hmatch.
    destruct s; [| discriminate]. injection Hmatch as <-.
    destruct seen.
    + destruct (Hseen eq_refl) as [l Hl]. exists [], l.
      repeat split; try discriminate; try assumption;
        try (intros; cbn in *; lia).
    + exists [], []. repeat split; try discriminate;
        try (intros; cbn in *; lia).
  - destruct t as [c | |]; cbn [Mask.items Re.match_items Mask.doubles
                                 Mask.singles] in *.
    + destruct s as [| x s]; [discriminate |].
      destruct (ascii_dec x c) as [-> |]; [| discriminate].
      destruct (IH seen e s e' Hd Hseen Hmatch) as (n & l & Hs & Hrest).
      exists n, l. split; [| exact Hrest].
      unfold Mask.fill in *. cbn [flat_map Mask.fill_token app].
      rewrite <- Hs. reflexivity.
    + destruct seen.
      * cbn [Re.match_items] in Hmatch.
        destruct (Re.lookup (py "language") e) as [v |] eqn:Hv; [| discriminate].
        destruct (Py.startswith v s) eqn:Hsw; [| discriminate].
        assert (Hseen' : true = true -> is_Some (Re.lookup (py "language") e))
          by (intros _; rewrite Hv; eexists; reflexivity).
        destruct (IH true e _ e' Hd Hseen' Hmatch)
          as (n & l & Hs & Hn1 & Hn0 & Hl & _).
        destruct (Hl eq_refl) as [Hle Hle'].
        exists n, l. rewrite Hv in Hle. injection Hle as ->.
        split; [rewrite (startswith_split l s Hsw) at 1; rewrite Hs; reflexivity |].
        split; [exact Hn1 |].
        split; [exact Hn0 |].
        split; [intros _; split; [reflexivity | exact Hle'] |].
        split; discriminate.
      * cbn [Re.match_items] in Hmatch.
        apply first_some_inv in Hmatch as (k & _ & Hmatch).
        assert (Hseen' : true = true ->
                         is_Some (Re.lookup (py "language")
                                    ((py "language", firstn k s) :: e)))
          by (intros _; eexists; reflexivity).
        destruct (IH true _ _ e' Hd Hseen' Hmatch)
          as (n & l & Hs & Hn1 & Hn0 & Hl & _).
        destruct (Hl eq_refl) as [Hle Hle'].
        cbn in Hle. injection Hle as <-.
        exists n, (firstn k s).
        split; [rewrite <- (firstn_skipn k s) at 1; rewrite Hs; reflexivity |].
        split; [exact Hn1 |].
        split; [intros Hz; rewrite (Hn0 Hz); reflexivity |].
        split; [discriminate |].
        split; [intros _ _; exact Hle' | intros _ Hbad; lia].
    + cbn [Re.match_items] in Hmatch.
      apply first_some_inv in Hmatch as (k & _ & Hmatch).
      assert (Hd0 : Mask.doubles m = 0) by lia.
      assert (Hseen' : seen = true ->
                       is_Some (Re.lookup (py "language")
                                  ((py "name", firstn k s) :: e)))
        by (intros Hs; exact (Hseen Hs)).
      destruct (IH seen _ _ e' ltac:(lia) Hseen' Hmatch)
        as (n & l & Hs & _ & Hn0 & Hl & Hl1 & Hl0).
      exists (firstn k s), l.
      split.
      { rewrite <- (firstn_skipn k s) at 1. rewrite Hs.
        rewrite (fill_without_double m n (firstn k s) l Hd0). reflexivity. }
      split; [intros _; rewrite (Hn0 Hd0); reflexivity |].
      split; [intros Hbad; lia |].
      split; [intros Hs'; exact (Hl Hs') |].
      split; [exact Hl1 | exact Hl0].
Qed.

(** A string made from the mask is matched. *)
Lemma match_items_complete (m : list Mask.token) :
  forall (seen : bool) (e : Re.groups) (n l : str),
    (seen = true -> Re.lookup (py "language") e = Some l) ->
    exists e', Re.match_items (Mask.items seen m) e (Mask.fill n l m) = Some e'.
Proof.
  induction m as [| t m IH]; intros seen e n l Hseen; [exists e; reflexivity |].
  unfold Mask.fill in *.
  destruct t as [c | |]; cbn [Mask.items Re.match_items flat_map
                               Mask.fill_token app].
  - destruct (ascii_dec c c); [| contradiction]. apply IH, Hseen.
  - destruct seen.
    + rewrite (Hseen eq_refl), startswith_app.
      rewrite skipn_app, Nat.sub_diag, skipn_all. cbn [app skipn].
      apply IH, Hseen.
    + destruct (IH true ((py "language", l) :: e) n l) as [e' He'];
        [reflexivity |].
      eapply (first_some_found _ _ (length l)).
      * apply in_greedy. rewrite length_app. lia.
      * rewrite firstn_app, Nat.sub_diag, firstn_all, firstn_O, app_nil_r.
        rewrite skipn_app, Nat.sub_diag, skipn_all. cbn [app skipn].
        exact He'.
  - destruct (IH seen ((py "name", n) :: e) n l) as [e' He'];
      [intros Hs; exact (Hseen Hs) |].
    eapply (first_some_found _ _ (length n)).
    + apply in_greedy. rewrite length_app. lia.
    + rewrite firstn_app, Nat.sub_diag, firstn_all, firstn_O, app_nil_r.
      rewrite skipn_app, Nat.sub_diag, skipn_all. cbn [app skipn].
      exact He'.
Qed.

(** *** Masks and their tokens *)

Lemma tokens_cases (P : str -> Prop) :
  P [] ->
  (forall rest, P rest -> P ("*"%char :: "*"%char :: rest)) ->
  (forall rest,
      Py.startswith (py "*") rest = false -> P rest -> P ("*"%char :: rest)) ->
  (forall c rest, c <> "*"%char -> P rest -> P (c :: rest)) ->
  forall s, P s.
Proof.
  intros Hnil Hdouble Hsingle Hlit s.
  assert (Hlen : forall n s, length s <= n -> P s).
  { clear s. induction n as [| n IH]; intros s Hs.
    - destruct s; [exact Hnil | cbn in Hs; lia].
    - destruct s as [| c rest]; [exact Hnil |]. cbn [length] in Hs.
      destruct (ascii_dec c "*") as [-> | Hc].
      + destruct rest as [| c' rest'].
        * apply Hsingle; [reflexivity | exact Hnil].
        * destruct (ascii_dec c' "*") as [-> | Hc'].
          -- apply Hdouble. apply IH. cbn [length] in Hs. lia.
          -- apply Hsingle.
             ++ cbn [Py.startswith list_ascii_of_string].
                destruct (ascii_dec "*" c'); [congruence | reflexivity].
             ++ apply IH. lia.
      + apply Hlit; [exact Hc | apply IH; lia]. }
  exact (Hlen (length s) s (le_n _)).
Qed.

Lemma tokens_double (rest : str) :
  Mask.tokens ("*"%char :: "*"%char :: rest)
  = Mask.DoubleStar :: Mask.tokens rest.
Proof. reflexivity. Qed.

Lemma tokens_single (rest : str) :
  Py.startswith (py "*") rest = false ->
  Mask.tokens ("*"%char :: rest) = Mask.Star :: Mask.tokens rest.
Proof.
  intros Hr. cbn [Mask.tokens]. destruct (ascii_dec "*" "*"); [| contradiction].
  destruct rest as [| c rest]; [reflexivity |].
  cbn [Py.startswith list_ascii_of_string] in Hr.
  destruct (ascii_dec c "*") as [-> |]; [| reflexivity].
  destruct (ascii_dec "*" "*"); [discriminate | contradiction].
Qed.

Lemma tokens_literal (c : ascii) (rest : str) :
  c <> "*"%char -> Mask.tokens (c :: rest) = Mask.Lit c :: Mask.tokens rest.
Proof.
  intros Hc. cbn [Mask.tokens]. destruct (ascii_dec c "*"); [contradiction | reflexivity].
Qed.

(** A mask is the text of its tokens. *)
Lemma render_tokens (s : str) : Mask.render (Mask.tokens s) = s.
Proof.
  induction s using tokens_cases.
  - reflexivity.
  - rewrite tokens_double. unfold Mask.render in *. cbn [flat_map].
    rewrite IHs. reflexivity.
  - rewrite tokens_single by assumption. unfold Mask.render in *.
    cbn [flat_map]. rewrite IHs. reflexivity.
  - rewrite tokens_literal by assumption. unfold Mask.render in *.
    cbn [flat_map]. rewrite IHs. reflexivity.
Qed.

(** In the tokens of a mask, a single wildcard stands apart. *)
Lemma stars_apart_tokens (s : str) : Mask.stars_apart (Mask.tokens s) = true.
Proof.
  induction s using tokens_cases.
  - reflexivity.
  - rewrite tokens_double. cbn [Mask.stars_apart]. exact IHs.
  - rewrite tokens_single by assumption. cbn [Mask.stars_apart].
    rewrite IHs, andb_true_r.
    destruct s as [| c s]; [reflexivity |].
    cbn [Py.startswith list_ascii_of_string] in H.
    destruct (ascii_dec "*" c) as [<- | Hc]; [discriminate |].
    rewrite tokens_literal by congruence. reflexivity.
  - rewrite tokens_literal by assumption. cbn [Mask.stars_apart]. exact IHs.
Qed.

(** The double wildcards of a mask are the occurrences [str.count] finds. *)
Lemma doubles_tokens (s : str) :
  Mask.doubles (Mask.tokens s) = Py.count (py "**") s.
Proof.
  cbn [Py.count list_ascii_of_string].
  induction s using tokens_cases.
  - reflexivity.
  - rewrite tokens_double. cbn [Mask.doubles]. rewrite IHs. reflexivity.
  - rewrite tokens_single by assumption. cbn [Mask.doubles]. rewrite IHs.
    cbn [list_ascii_of_string] in H.
    assert (Hm : Py.startswith ["*"; "*"]%char ("*"%char :: s) = false).
    { cbn [Py.startswith]. destruct (ascii_dec "*" "*"); [| contradiction].
      destruct s as [| c s]; [reflexivity |]. cbn [Py.startswith] in H.
      destruct (ascii_dec "*" c); [discriminate | reflexivity]. }
    cbn [Py.count_scan]. rewrite Hm. reflexivity.
  - rewrite tokens_literal by assumption. cbn [Mask.doubles]. rewrite IHs.
    cbn [Py.count_scan Py.startswith].
    destruct (ascii_dec "*" c); [congruence | reflexivity].
Qed.

Lemma contains_char_cons (c x : ascii) (s : str) :
  Py.contains [c] (x :: s) = bool_decide (c = x) || Py.contains [c] s.
Proof.
  cbn [Py.contains Py.startswith].
  destruct (ascii_dec c x) as [-> | Hne].
  - rewrite bool_decide_eq_true_2 by reflexivity. reflexivity.
  - rewrite bool_decide_eq_false_2 by exact Hne. reflexivity.
Qed.

(** A mask without [?] and without an opening bracket has plain literals. *)
Lemma literal_ok_tokens (s : str) :
  Py.contains (py "?") s = false ->
  Py.contains (py "[") s = false ->
  forallb Mask.literal_ok (Mask.tokens s) = true.
Proof.
  cbn [list_ascii_of_string].
  induction s using tokens_cases; intros Hq Hb.
  - reflexivity.
  - rewrite tokens_double. cbn [forallb Mask.literal_ok].
    rewrite !contains_char_cons, !orb_false_iff in Hq, Hb. apply IHs; tauto.
  - rewrite tokens_single by assumption. cbn [forallb Mask.literal_ok].
    rewrite !contains_char_cons, !orb_false_iff in Hq, Hb. apply IHs; tauto.
  - rewrite tokens_literal by assumption. cbn [forallb Mask.literal_ok].
    rewrite !contains_char_cons, !orb_false_iff in Hq, Hb.
    destruct Hq as [Hq1 Hq], Hb as [Hb1 Hb]. rewrite (IHs Hq Hb), andb_true_r.
    unfold Mask.plain. apply bool_decide_eq_false_1 in Hq1, Hb1.
    rewrite !bool_decide_eq_false_2 by congruence. reflexivity.
Qed.

(** The mask test of [parse_options] asks for a single wildcard. *)
Lemma singles_tokens (s : str) :
  Py.contains (py "*") (Py.replace (py "**") [] s) = true ->
  0 < Mask.singles (Mask.tokens s).
Proof.
  unfold Py.replace. cbn [Py.replace_count list_ascii_of_string].
  induction s using tokens_cases.
  - discriminate.
  - rewrite tokens_double. cbn [Mask.singles].
    change ("*"%char :: "*"%char :: s) with (["*"; "*"]%char ++ s).
    rewrite (replace_scan_hit ["*"; "*"]%char [] None s)
      by (discriminate || reflexivity).
    exact IHs.
  - rewrite tokens_single by assumption. cbn [Mask.singles]. lia.
  - rewrite tokens_literal by assumption. cbn [Mask.singles].
    rewrite replace_scan_miss.
    + rewrite contains_char_cons, bool_decide_eq_false_2 by congruence.
      exact IHs.
    + cbn [Py.startswith]. destruct (ascii_dec "*" c); [congruence | reflexivity].
Qed.

(** *** The expression of the command *)

Lemma group_names_items (m : list Mask.token) (seen : bool) :
  (0 < Mask.doubles m -> py "name" ∈ Re.group_names (Mask.items seen m))
  /\ (seen = false -> 0 < Mask.singles m ->
      py "language" ∈ Re.group_names (Mask.items seen m)).
Proof.
  revert seen. induction m as [| t m IH]; intros seen.
  - split; cbn; intros; lia.
  - destruct t as [c | |]; cbn [Mask.items Re.group_names Mask.doubles
                                 Mask.singles].
    + apply IH.
    + destruct seen.
      * split; [apply (IH true) | discriminate].
      * split.
        -- intros Hd. apply elem_of_cons. right. apply (IH true), Hd.
        -- intros _ _. apply elem_of_cons. left. reflexivity.
    + split.
      * intros _. apply elem_of_cons. left. reflexivity.
      * intros Hs Hn. apply elem_of_cons. right. apply (IH seen); assumption.
Qed.

(** The mask's own expression, when no custom expression was given and
    none is cached yet. *)
Lemma match_regexp_mask (mask : str) (st : State) :
  Py.count (py "**") mask = 1 ->
  Py.contains (py "?") mask = false ->
  Py.contains (py "[") mask = false ->
  component_re (self st) = None ->
  _mask_regexp (self st) = None ->
  filemask (self st) = mask ->
  mask_regexp_text mask = Mask.regexp_text (Mask.tokens mask)
  /\ match_regexp st
     = (Ok (Re.of_items (Mask.items false (Mask.tokens mask))),
        {| self := set_mask_regexp
                     (Re.of_items (Mask.items false (Mask.tokens mask)))
                     (self st);
           world := world st |}).
Proof.
  intros Hcount Hq Hb Hre Hcache Hmask.
  assert (Htext : mask_regexp_text mask = Mask.regexp_text (Mask.tokens mask)).
  { rewrite <- (render_tokens mask) at 1.
    apply mask_regexp_text_items;
      [apply literal_ok_tokens; assumption | apply stars_apart_tokens]. }
  split; [exact Htext |].
  unfold match_regexp.
  rewrite (bind_ok get_self _ st st (self st) eq_refl).
  rewrite Hre, Hcache, Hmask, Htext. unfold Re.compile.
  rewrite compile_items_mask by (rewrite doubles_tokens; exact Hcount).
  reflexivity.
Qed.






(** * Further properties of the importer *)

(** ** What a method leaves as it was

    A relation between the state a method starts in and the state it
    leaves is kept by the whole command when it is kept by the steps that
    change the state: a line to the log, the cache of the expression, a
    new row, a change of the disk. *)

Lemma name_or_slug_free (project : Project.t) (name slug : str)
      (table : list SubProject.t) :
  name_or_slug_exists project name slug table = false ->
  slug_exists project slug table = false.
Proof.
  unfold name_or_slug_exists, slug_exists.
  induction table as [| sp table IH]; [reflexivity |].
  cbn [existsb]. intros Hex. apply orb_false_elim in Hex as [Hsp Hrest].
  rewrite (IH Hrest), orb_false_r.
  destruct (bool_decide (SubProject.project sp = Project.slug project));
    [| reflexivity].
  cbn [andb] in *. apply orb_false_elim in Hsp as [_ ->]. reflexivity.
Qed.

Section Pure.

Context `{Platform}.

Lemma format_string_state (template match_ : str) (st st' : State)
      (r : result str) :
  format_string template match_ st = (r, st') -> st' = st.
Proof.
  unfold format_string. destruct (Py.contains _ _); [| intros [= _ <-]; reflexivity].
  destruct (percent _ _); intros [= _ <-]; reflexivity.
Qed.

Lemma find_usable_slug_free (name : str) (slug_len : Z) (project : Project.t)
      (st st' : State) (newname slug : str) :
  find_usable_slug name slug_len project st = (Ok (newname, slug), st') ->
  st' = st
  /\ name_or_slug_exists project newname slug (components (world st)) = false
  /\ exists i : nat,
      1 <= i <= 999
      /\ (newname, slug) = candidate (Py.slice_to (slug_len - 4) name) i.
Proof.
  unfold find_usable_slug, bind, get_world.
  destruct (find _ _) as [i |] eqn:Hfind; [| discriminate].
  intros Heq. apply find_some in Hfind as [Hin Hfree].
  apply negb_true_iff in Hfree.
  set (base := Py.slice_to (slug_len - 4) name) in *.
  assert (Hc : candidate base i = (newname, slug))
    by (unfold ret in Heq; congruence).
  assert (Hst : st' = st) by (unfold ret in Heq; congruence).
  rewrite Hc in Hfree. cbn [fst snd] in Hfree.
  split; [exact Hst |]. split; [exact Hfree |].
  exists i. apply in_seq in Hin. split; [lia | symmetry; exact Hc].
Qed.

End Pure.

Section Keeps.

Context `{Platform}.

Variable R : State -> State -> Prop.

Hypothesis R_refl : forall st, R st st.
Hypothesis R_trans : forall a b c, R a b -> R b c -> R a c.

(** The rule for [bind], at a state: the rest of the method may use
    what the first step returned, and where. *)
Lemma keeps_bind_at {A B : Type} (m : M A) (k : A -> M B) (st : State) :
  R st (snd (m st)) ->
  (forall a st1, m st = (Ok a, st1) -> R st1 (snd (k a st1))) ->
  R st (snd (bind m k st)).
Proof.
  intros Hm Hk. unfold bind.
  destruct (m st) as [[a | e] st1]; cbn [snd] in *.
  - exact (R_trans _ _ _ Hm (Hk a st1 eq_refl)).
  - exact Hm.
Qed.

Lemma keeps_bind {A B : Type} (m : M A) (k : A -> M B) :
  keeps R m -> (forall a, keeps R (k a)) -> keeps R (bind m k).
Proof.
  intros Hm Hk st. apply keeps_bind_at; [apply Hm |].
  intros a st1 _. apply Hk.
Qed.

Lemma keeps_ret {A : Type} (a : A) : keeps R (ret a).
Proof. intros st. apply R_refl. Qed.

Lemma keeps_raise {A : Type} (e : exn) : keeps R (@raise A e).
Proof. intros st. apply R_refl. Qed.

Lemma keeps_get_self : keeps R get_self.
Proof. intros st. apply R_refl. Qed.

Lemma keeps_get_world : keeps R get_world.
Proof. intros st. apply R_refl. Qed.

Lemma keeps_for_each {A : Type} (l : list A) (body : A -> M unit) :
  (forall a, keeps R (body a)) -> keeps R (for_each l body).
Proof.
  intros Hb. induction l as [| x l IH]; cbn [for_each].
  - apply keeps_ret.
  - apply keeps_bind; [apply Hb | intros _; exact IH].
Qed.

Lemma keeps_format_string (template match_ : str) :
  keeps R (format_string template match_).
Proof.
  unfold format_string. destruct (Py.contains _ _); [| apply keeps_ret].
  destruct (percent _ _); [apply keeps_ret | apply keeps_raise].
Qed.

Lemma keeps_find_usable_slug (name : str) (slug_len : Z) (project : Project.t) :
  keeps R (find_usable_slug name slug_len project).
Proof.
  unfold find_usable_slug. apply keeps_bind; [apply keeps_get_world |].
  intros w. destruct (find _ _); [apply keeps_ret | apply keeps_raise].
Qed.

Lemma keeps_get_matching_files (repo : str) :
  keeps R (get_matching_files repo).
Proof.
  unfold get_matching_files. apply keeps_bind; [apply keeps_get_self |].
  intros c. apply keeps_bind; [apply keeps_get_world |].
  intros w. apply keeps_ret.
Qed.

Lemma keeps_pop (matches : list str) : keeps R (pop matches).
Proof.
  unfold pop. destruct (last matches); [apply keeps_ret | apply keeps_raise].
Qed.

(** *** Methods that write to the log and to the cache *)

Hypothesis R_log : forall lv msg st, R st (logged lv msg st).

Hypothesis R_cache :
  forall p st, R st {| self := set_mask_regexp p (self st); world := world st |}.

Lemma keeps_logger (lv : level) (msg : str) : keeps R (logger lv msg).
Proof. intros st. apply R_log. Qed.

Lemma keeps_match_regexp : keeps R match_regexp.
Proof.
  intros st. unfold match_regexp, bind, get_self.
  destruct (component_re (self st)); [apply R_refl |].
  destruct (_mask_regexp (self st)); [apply R_refl |].
  destruct (Re.compile _); [apply R_cache | apply R_refl].
Qed.

Lemma keeps_get_name (path : str) : keeps R (get_name path).
Proof.
  unfold get_name. apply keeps_bind; [apply keeps_match_regexp |].
  intros p. destruct (Re.exec p path) as [m |].
  - destruct (Re.group p m _); [destruct (Re.group p m _) |];
      first [apply keeps_ret | apply keeps_raise].
  - apply keeps_bind; [apply keeps_logger | intros _; apply keeps_ret].
Qed.

Lemma keeps_collect (matches : list str) :
  forall names langs, keeps R (collect matches names langs).
Proof.
  induction matches as [| f rest IH]; intros names langs; cbn [collect].
  - apply keeps_ret.
  - apply keeps_bind; [apply keeps_get_name |].
    intros [[name |] lang]; [destruct (Py.truthy name) |]; apply IH.
Qed.

Lemma keeps_get_matching_subprojects (repo : str) :
  keeps R (get_matching_subprojects repo).
Proof.
  unfold get_matching_subprojects.
  apply keeps_bind; [apply keeps_get_matching_files |].
  intros matches. apply keeps_bind; [apply keeps_logger |].
  intros _. destruct (negb _); [apply keeps_raise |].
  apply keeps_bind; [apply keeps_collect |].
  intros [names langs]. apply keeps_bind; [apply keeps_logger |].
  intros _. apply keeps_bind; [apply keeps_logger |].
  intros _. apply keeps_bind; [apply keeps_get_world |].
  intros w. destruct (_ =? 0); [apply keeps_raise | apply keeps_ret].
Qed.

(** *** Methods that add to the component table

    A row is only added for the project and the branch of the command
    line, with the attributes of the command object, and under a slug the
    project does not have. *)

Variable project : Project.t.
Variable branch : str.

Hypothesis R_create :
  forall st name slug push repo template filemask_,
    slug_exists project slug (components (world st)) = false ->
    R st (stored (new_component (self st) name slug project push repo branch
                                template filemask_) st).

(** [logger.info(...)] and [SubProject.objects.create(...)], when the
    slug is free. *)
Lemma keeps_make (st : State) (msg name slug : str) (push : option str)
      (repo template filemask_ : str) :
  slug_exists project slug (components (world st)) = false ->
  R st (snd ((logger INFO msg ;;;
              create (new_component (self st) name slug project push repo
                                    branch template filemask_)) st)).
Proof.
  intros Hfree.
  apply (R_trans _ (logged INFO msg st)); [apply R_log |].
  exact (R_create (logged INFO msg st) name slug push repo template filemask_
                  Hfree).
Qed.

Lemma keeps_create_remaining (o : Options.t) (sharedrepo : str)
      (slug_len name_len : Z) (match_ : str) :
  keeps R (create_remaining o project sharedrepo branch slug_len name_len
                            match_).
Proof.
  intros st. unfold create_remaining.
  apply keeps_bind_at; [apply keeps_get_self |].
  intros c st1 [= <- <-].
  apply keeps_bind_at; [apply keeps_format_string |].
  intros formatted st1 Hname. apply format_string_state in Hname as ->.
  apply keeps_bind_at; [apply keeps_format_string |].
  intros template st1 Htemplate. apply format_string_state in Htemplate as ->.
  apply keeps_bind_at; [apply keeps_get_world |].
  intros w st1 [= <- <-]. cbv zeta.
  destruct (name_or_slug_exists _ _ _ _) eqn:Hex.
  - destruct (negb _); [apply R_log |].
    apply keeps_bind_at; [apply keeps_find_usable_slug |].
    intros [newname slug] st1 Hfound.
    apply find_usable_slug_free in Hfound as (-> & Hfree & _).
    apply keeps_make. exact (name_or_slug_free _ _ _ _ Hfree).
  - apply keeps_make. exact (name_or_slug_free _ _ _ _ Hex).
Qed.

(** [handle] for a [weblate://] link, from the lookup of the component
    on. *)
Lemma keeps_linked (o : Options.t) (w : World) :
  Options.branch o = branch ->
  keeps R
    (found <-
       match get_linked (components w) (Options.repo o) with
       | None =>
           raise (CommandError
                    (py "Component " ++ [dq] ++ Options.repo o ++ [dq]
                        ++ py " not found, please create it first!"))
       | Some sub_project =>
           matches <- get_matching_subprojects
                        (subproject_full_path (projects w) sub_project) ;;
           ret (matches, Options.repo o)
       end ;;
     let '(matches, sharedrepo) := found in
     for_each matches
              (create_remaining o project sharedrepo (Options.branch o)
                                slug_max_length name_max_length)).
Proof.
  intros ->. apply keeps_bind.
  - destruct (get_linked _ _); [| apply keeps_raise].
    apply keeps_bind; [apply keeps_get_matching_subprojects |].
    intros matches. apply keeps_ret.
  - intros [matches sharedrepo]. apply keeps_for_each.
    intros match_. apply keeps_create_remaining.
Qed.

(** *** Methods that change the disk *)

Hypothesis R_dirs :
  forall (f : list Dir.t -> list Dir.t) st,
    R st {| self := self st;
            world := with_dirs (f (dirs (world st))) (world st) |}.

Lemma keeps_chmod (p : str) (mode : nat) : keeps R (chmod p mode).
Proof. intros st. apply (R_dirs (map _)). Qed.

Lemma keeps_set_files (p : str) (files : list str) : keeps R (set_files p files).
Proof. intros st. apply (R_dirs (map _)). Qed.

Lemma keeps_rmtree (p : str) : keeps R (rmtree p).
Proof.
  intros st. unfold rmtree, bind, get_world.
  destruct (dir_exists p (dirs (world st))); [| apply R_refl].
  exact (R_dirs (remove_dir p) st).
Qed.

Lemma keeps_rename (src dst : str) : keeps R (rename src dst).
Proof.
  intros st. unfold rename, bind, get_world.
  destruct (find_dir src (dirs (world st))) as [d |]; [| apply R_refl].
  destruct (match find_dir dst (dirs (world st)) with
            | Some t => Py.truthy_list (Dir.files t)
            | None => false
            end); [apply R_refl |].
  exact (R_dirs (fun ds => remove_dir src (remove_dir dst ds)
                             ++ [{| Dir.path := dst; Dir.mode := Dir.mode d;
                                    Dir.files := Dir.files d |}]) st).
Qed.

(** [checkout_tmp], once the directory is made. *)
Lemma keeps_checkout_tail (workdir repo branch_ : str) :
  keeps R
    (chmod workdir 493 ;;;
     logger INFO (py "Cloning git repository...") ;;;
     c <- get_self ;;
     match clone (vcs c) repo with
     | None => raise RepositoryError
     | Some files =>
         set_files workdir files ;;;
         logger INFO (py "Updating working copy in git repository...") ;;;
         match configure_branch (vcs c) branch_ files with
         | None => raise RepositoryError
         | Some files' => set_files workdir files' ;;; ret workdir
         end
     end).
Proof.
  apply keeps_bind; [apply keeps_chmod |].
  intros _. apply keeps_bind; [apply keeps_logger |].
  intros _. apply keeps_bind; [apply keeps_get_self |].
  intros c. destruct (clone _ _) as [files |]; [| apply keeps_raise].
  apply keeps_bind; [apply keeps_set_files |].
  intros _. apply keeps_bind; [apply keeps_logger |].
  intros _. destruct (configure_branch _ _ _); [| apply keeps_raise].
  apply keeps_bind; [apply keeps_set_files | intros _; apply keeps_ret].
Qed.

Lemma keeps_checkout_tmp (project_ : Project.t) (repo branch_ : str) :
  keeps R (checkout_tmp project_ repo branch_).
Proof.
  intros st.
  set (workdir := mkdtemp_name (dirs (world st)) (Project.full_path project_)).
  exact (R_trans _ _ _
           (R_dirs (fun ds => ds ++ [{| Dir.path := workdir; Dir.mode := 448;
                                        Dir.files := [] |}]) st)
           (keeps_checkout_tail workdir repo branch_ _)).
Qed.

Lemma keeps_import_initial (repo : str) (slug_len name_len : Z) :
  keeps R (import_initial project repo branch slug_len name_len).
Proof.
  unfold import_initial. apply keeps_bind; [apply keeps_checkout_tmp |].
  intros workdir. apply keeps_bind; [apply keeps_get_matching_subprojects |].
  intros matches st.
  apply keeps_bind_at; [apply keeps_get_self |].
  intros c st1 [= <- <-].
  apply keeps_bind_at.
  { destruct (Py.truthy_opt _); [| apply keeps_pop].
    destruct (negb _); [apply keeps_raise | apply keeps_ret]. }
  intros [match_ rest] st1 Hpicked.
  assert (st1 = st) as ->.
  { revert Hpicked. unfold pop.
    destruct (Py.truthy_opt _);
      [destruct (negb _) | destruct (last matches)];
      unfold ret, raise; congruence. }
  apply keeps_bind_at; [apply keeps_format_string |].
  intros formatted st1 Hname. apply format_string_state in Hname as ->.
  apply keeps_bind_at; [apply keeps_format_string |].
  intros template st1 Htemplate. apply format_string_state in Htemplate as ->.
  apply keeps_bind_at; [apply keeps_get_world |].
  intros w st1 [= <- <-].
  destruct (slug_exists _ _ _) eqn:Hex.
  - apply keeps_bind; [apply keeps_logger |].
    intros _. apply keeps_bind; [apply keeps_rmtree |].
    intros _. apply keeps_ret.
  - apply keeps_bind_at; [apply keeps_logger |].
    intros [] st1 [= <-].
    apply keeps_bind_at; [apply keeps_rename |].
    intros [] st2 Hrename.
    assert (Hsame : components (world st2) = components (world st)
                    /\ self st2 = self st).
    { revert Hrename. unfold rename, bind, get_world.
      destruct (find_dir _ _); [| discriminate].
      destruct (match find_dir _ _ with
                | Some t => Py.truthy_list (Dir.files t)
                | None => false
                end); [discriminate |].
      intros [= <-]. split; reflexivity. }
    destruct Hsame as [Hcomp Hself].
    apply keeps_bind_at; [| intros; apply R_refl].
    rewrite <- Hself. apply R_create. rewrite Hcomp. exact Hex.
Qed.

(** [handle], once the project is found. *)
Lemma keeps_found (o : Options.t) (w : World) :
  Options.branch o = branch ->
  keeps R
    (found <-
       (if is_repo_link (Options.repo o) then
          match get_linked (components w) (Options.repo o) with
          | None =>
              raise (CommandError
                       (py "Component " ++ [dq] ++ Options.repo o ++ [dq]
                           ++ py " not found, please create it first!"))
          | Some sub_project =>
              matches <- get_matching_subprojects
                           (subproject_full_path (projects w) sub_project) ;;
              ret (matches, Options.repo o)
          end
        else import_initial project (Options.repo o) (Options.branch o)
                            slug_max_length name_max_length) ;;
     let '(matches, sharedrepo) := found in
     for_each matches
              (create_remaining o project sharedrepo (Options.branch o)
                                slug_max_length name_max_length)).
Proof.
  intros Hb. destruct (is_repo_link _); [apply keeps_linked, Hb |].
  rewrite Hb. apply keeps_bind; [apply keeps_import_initial |].
  intros [matches sharedrepo]. apply keeps_for_each.
  intros match_. apply keeps_create_remaining.
Qed.

End Keeps.

(** ** What the command never takes away *)

Section Grows.

Context `{Platform}.

Lemma grows_refl (st : State) : grows st st.
Proof. repeat split; reflexivity. Qed.

Lemma grows_trans (a b c : State) : grows a b -> grows b c -> grows a c.
Proof.
  intros (C1 & L1 & P1 & G1) (C2 & L2 & P2 & G2).
  repeat split; [etrans; eassumption | etrans; eassumption | congruence ..].
Qed.

Lemma grows_logged (lv : level) (msg : str) (st : State) :
  grows st (logged lv msg st).
Proof.
  repeat split; try reflexivity. cbn. apply prefix_app_r. reflexivity.
Qed.

Lemma grows_stored (sp : SubProject.t) (st : State) : grows st (stored sp st).
Proof.
  repeat split; try reflexivity. cbn. apply prefix_app_r. reflexivity.
Qed.

(** X1. Whatever its outcome, [handle] leaves every row of the component
    table and every line of the log where it was, new ones coming after
    them, and it leaves the project and language tables as they were. *)
Theorem handle_never_removes (o : Options.t) (w : World) :
  components w `prefix_of` components (snd (handle o w))
  /\ log w `prefix_of` log (snd (handle o w))
  /\ projects (snd (handle o w)) = projects w
  /\ languages (snd (handle o w)) = languages w.
Proof.
  unfold handle. destruct (parse_options _ o) as [c | e];
    [| repeat split; reflexivity].
  set (st := {| self := c; world := w |}).
  assert (Hrun : grows st (snd (run o st))).
  { unfold run. rewrite (bind_ok get_world _ st st (world st) eq_refl).
    cbv zeta. destruct (find _ _) as [project |]; [| apply grows_refl].
    apply (keeps_found grows grows_refl grows_trans grows_logged) with
      (branch := Options.branch o); try reflexivity.
    - intros; repeat split; reflexivity.
    - intros; apply grows_stored.
    - intros; repeat split; reflexivity. }
  destruct (run o st) as [r st']. exact Hrun.
Qed.

End Grows.

(** ** An import from a link *)

Section Linked.

Context `{Platform}.

(** X2. With a [weblate://] link as the repository, [handle] leaves the
    disk as it was, whatever its outcome: nothing is checked out,
    removed or renamed. *)
Theorem linked_import_keeps_disk (o : Options.t) (w : World) :
  is_repo_link (Options.repo o) = true ->
  dirs (snd (handle o w)) = dirs w.
Proof.
  intros Hlink. unfold handle.
  destruct (parse_options _ o) as [c | e]; [| reflexivity].
  set (st := {| self := c; world := w |}).
  assert (Hrun : same_disk st (snd (run o st))).
  { unfold run. rewrite (bind_ok get_world _ st st (world st) eq_refl).
    cbv zeta. destruct (find _ _) as [project |]; [| reflexivity].
    rewrite Hlink.
    apply (keeps_linked same_disk) with (branch := Options.branch o);
      try reflexivity.
    unfold same_disk. congruence. }
  destruct (run o st) as [r st']. exact Hrun.
Qed.

End Linked.

(** An import from the link to [alpha], whose working copy is on the
    disk: [beta] is added, and the disk is as it was. *)
Lemma linked_import_keeps_disk_witness :
  let o := Demo.command_line (py "hello") (py "weblate://hello/alpha")
                             (py "**/*.po") (py "auto") in
  let r := @handle Demo.platform o Demo.site_with_alpha in
  fst r = Ok tt
  /\ map SubProject.name (components (snd r)) = [py "alpha"; py "beta"]
  /\ dirs (snd r) = dirs Demo.site_with_alpha.
Proof.
  intros o r. split; [vm_compute; reflexivity |].
  split; [vm_compute; reflexivity |].
  exact (@linked_import_keeps_disk Demo.platform o Demo.site_with_alpha
           eq_refl).
Defined.

(** ** The rows the command adds *)

Section Rows.

Context `{Platform}.

Lemma slug_free_new (project : Project.t) (slug : str)
      (table : list SubProject.t) :
  slug_exists project slug table = false ->
  (Project.slug project, slug)
    ∉ map (fun sp => (SubProject.project sp, SubProject.slug sp)) table.
Proof.
  unfold slug_exists. induction table as [| sp table IH]; cbn [existsb map].
  - intros _. apply not_elem_of_nil.
  - intros Hex. apply orb_false_elim in Hex as [Hsp Hrest].
    apply not_elem_of_cons. split; [| exact (IH Hrest)].
    intros [= Hp Hs]. rewrite <- Hp, <- Hs in Hsp.
    rewrite !bool_decide_eq_true_2 in Hsp by reflexivity. discriminate.
Qed.

(** X3. When no two components of a project have the same slug, [handle]
    leaves a table of which this holds, whatever its outcome: a row is
    only added under a slug its project does not have. *)
Theorem handle_keeps_slugs_unique (o : Options.t) (w : World) :
  unique_slugs (components w) ->
  unique_slugs (components (snd (handle o w))).
Proof.
  intros Hw. unfold handle.
  destruct (parse_options _ o) as [c | e]; [| exact Hw].
  set (st := {| self := c; world := w |}).
  set (R := fun a b : State =>
              unique_slugs (components (world a)) ->
              unique_slugs (components (world b))).
  assert (Hrun : R st (snd (run o st))).
  { unfold run. rewrite (bind_ok get_world _ st st (world st) eq_refl).
    cbv zeta. destruct (find _ _) as [project |]; [| exact (fun u => u)].
    apply (keeps_found R) with (branch := Options.branch o) (project := project);
      subst R; cbv beta; try reflexivity; try (intros; assumption).
    - intros a b d Hab Hbd Ha. exact (Hbd (Hab Ha)).
    - intros st0 name slug push repo template filemask_ Hfree Hu.
      unfold unique_slugs. cbn [stored world components with_components].
      rewrite map_app. apply NoDup_app. repeat split; [exact Hu | |].
      + intros x Hx Hx'. cbn in Hx'. apply list_elem_of_singleton in Hx' as ->.
        exact (slug_free_new _ _ _ Hfree Hx).
      + apply NoDup_singleton. }
  destruct (run o st) as [r st']. exact (Hrun Hw).
Qed.

(** X4. Every row [handle] adds belongs to the project of the command
    line and is on its branch, with the file format, the version control
    system, the push-on-commit flag, the licence, its URL and the
    language filter of the command line. *)
Theorem handle_rows_carry_options (o : Options.t) (w : World) :
  exists new : list SubProject.t,
    components (snd (handle o w)) = components w ++ new
    /\ Forall (fun sp =>
                 SubProject.project sp = Options.project o
                 /\ SubProject.branch sp = Options.branch o
                 /\ row_attribs sp
                    = (Options.file_format o, Options.vcs o,
                       Options.push_on_commit o, Options.license o,
                       Options.license_url o, Options.language_regex o))
              new.
Proof.
  unfold handle.
  destruct (parse_options _ o) as [c | e] eqn:Hparse;
    [| exists []; split; [symmetry; apply app_nil_r | constructor]].
  set (st := {| self := c; world := w |}).
  assert (Hc : attribs c
               = (Options.file_format o, Options.vcs o,
                  Options.push_on_commit o, Options.license o,
                  Options.license_url o, Options.language_regex o)).
  { revert Hparse. unfold parse_options.
    destruct (parse_component_regexp o); [| discriminate].
    repeat (destruct (negb _); [discriminate |]).
    destruct (mask_rejected _); [discriminate |].
    intros [= <-]. reflexivity. }
  set (R := fun a b : State =>
              attribs (self b) = attribs (self a)
              /\ exists new : list SubProject.t,
                  components (world b) = components (world a) ++ new
                  /\ Forall (fun sp =>
                               SubProject.project sp = Options.project o
                               /\ SubProject.branch sp = Options.branch o
                               /\ row_attribs sp = attribs (self a)) new).
  assert (Hframe : forall a b,
             attribs (self b) = attribs (self a) ->
             components (world b) = components (world a) ->
             R a b).
  { intros a b Ha Hb. split; [exact Ha |].
    exists []. split; [rewrite Hb; symmetry; apply app_nil_r | constructor]. }
  assert (Hrun : R st (snd (run o st))).
  { unfold run. rewrite (bind_ok get_world _ st st (world st) eq_refl).
    cbv zeta. destruct (find _ _) as [project |] eqn:Hfind;
      [| apply Hframe; reflexivity].
    apply find_some in Hfind as [_ Hslug].
    apply bool_decide_eq_true_1 in Hslug.
    apply (keeps_found R) with (branch := Options.branch o) (project := project);
      try reflexivity.
    - intros. apply Hframe; reflexivity.
    - intros a b d (Hab & new1 & Hc1 & Hf1) (Hbd & new2 & Hc2 & Hf2).
      split; [congruence |]. exists (new1 ++ new2).
      split; [rewrite Hc2, Hc1, app_assoc; reflexivity |].
      apply Forall_app. split; [exact Hf1 |].
      apply (Forall_impl _ _ _ Hf2). intros sp (Hp & Hb & Ha).
      repeat split; [exact Hp | exact Hb | congruence].
    - intros. apply Hframe; reflexivity.
    - intros. apply Hframe; reflexivity.
    - intros st0 name slug push repo template filemask_ _.
      split; [reflexivity |]. eexists [_]. split; [reflexivity |].
      repeat constructor. exact Hslug.
    - intros. apply Hframe; reflexivity. }
  destruct (run o st) as [r st'].
  destruct Hrun as (_ & new & Hnew & Hf). exists new.
  split; [exact Hnew |].
  apply (Forall_impl _ _ _ Hf). intros sp (Hp & Hb & Ha).
  repeat split; [exact Hp | exact Hb | rewrite Ha; exact Hc].
Qed.

End Rows.

(** The import into the site that has [alpha]. *)
Lemma handle_keeps_slugs_unique_witness :
  unique_slugs
    (components
       (snd (@handle Demo.platform (Demo.options (py "**/*.po") None false)
                     Demo.site_with_alpha))).
Proof.
  apply (@handle_keeps_slugs_unique Demo.platform).
  unfold unique_slugs. cbn [Demo.site_with_alpha components map].
  apply NoDup_singleton.
Defined.

(** ** The names [get_matching_subprojects] returns *)

Lemma insert_sorted_perm (x : str) (l : list str) :
  Py.insert_sorted x l ≡ₚ x :: l.
Proof.
  induction l as [| y l IH]; [reflexivity |].
  cbn [Py.insert_sorted]. destruct (Py.str_leb x y); [reflexivity |].
  rewrite IH. apply Permutation_swap.
Qed.

Lemma sorted_perm (l : list str) : Py.sorted l ≡ₚ l.
Proof.
  induction l as [| x l IH]; [reflexivity |].
  change (Py.sorted (x :: l)) with (Py.insert_sorted x (Py.sorted l)).
  rewrite insert_sorted_perm, IH. reflexivity.
Qed.

Lemma set_add_NoDup {A : Type} `{EqDecision A} (x : A) (s : list A) :
  NoDup s -> NoDup (Py.set_add x s).
Proof.
  intros Hs. unfold Py.set_add. case_bool_decide as Hin; [exact Hs |].
  apply NoDup_app. repeat split; [exact Hs | | apply NoDup_singleton].
  intros y Hy Hy'. apply list_elem_of_singleton in Hy' as ->. contradiction.
Qed.

Lemma set_add_Forall {A : Type} `{EqDecision A} (P : A -> Prop) (x : A)
      (s : list A) :
  P x -> Forall P s -> Forall P (Py.set_add x s).
Proof.
  intros Hx Hs. unfold Py.set_add. case_bool_decide; [exact Hs |].
  apply Forall_app. split; [exact Hs | repeat constructor; exact Hx].
Qed.

Section Names.

Context `{Platform}.

(** What the loop keeps of its set of names: a property that holds
    before and survives the addition of a non-empty name holds after. *)
Lemma collect_names_invariant (P : list str -> Prop) :
  (forall name names, Py.truthy name = true -> P names ->
                      P (Py.set_add name names)) ->
  forall (matches names : list str) (langs : list (option str))
         (st st' : State) (names' : list str) (langs' : list (option str)),
    collect matches names langs st = (Ok (names', langs'), st') ->
    P names -> P names'.
Proof.
  intros Hadd matches.
  induction matches as [| f rest IH]; intros names langs st st' names' langs'.
  - intros [= <- _ _] Hp. exact Hp.
  - cbn [collect]. unfold bind at 1.
    destruct (get_name f st) as [[[n l] | e] st1]; [| discriminate].
    intros Hc Hp.
    destruct n as [name |]; [destruct (Py.truthy name) eqn:Ht |].
    + apply (IH _ _ _ _ _ _ Hc). apply Hadd; assumption.
    + exact (IH _ _ _ _ _ _ Hc Hp).
    + exact (IH _ _ _ _ _ _ Hc Hp).
Qed.

Lemma get_matching_subprojects_NoDup (repo : str) (st st' : State)
      (names : list str) :
  get_matching_subprojects repo st = (Ok names, st') ->
  NoDup names /\ Forall (fun name => name <> []) names.
Proof.
  unfold get_matching_subprojects.
  rewrite (bind_ok (get_matching_files repo) _ st st _ eq_refl).
  rewrite (bind_ok _ _ _ _ _ (logger_logged _ _ _)).
  destruct (negb _); [discriminate |].
  unfold bind at 1.
  destruct (collect _ [] [] _) as [[[ns langs] | e] st1] eqn:Hc;
    [| discriminate].
  rewrite (bind_ok _ _ _ _ _ (logger_logged _ _ _)).
  rewrite (bind_ok _ _ _ _ _ (logger_logged _ _ _)).
  unfold bind, get_world.
  destruct (_ =? 0); [discriminate |].
  intros [= <- _]. rewrite sorted_perm.
  refine (collect_names_invariant
            (fun l => NoDup l /\ Forall (fun name => name <> []) l)
            _ _ _ _ _ _ _ _ Hc _); [| split; constructor].
  intros name names0 Ht [Hd Hf]. split.
  - apply set_add_NoDup, Hd.
  - apply set_add_Forall; [| exact Hf]. intros ->. discriminate.
Qed.

(** X5. When [get_matching_subprojects] returns, its list is not empty,
    it is in ascending order and without repetitions, and no name in it
    is the empty string. *)
Theorem matching_subprojects_sorted_distinct (repo : str) (st st' : State)
        (names : list str) :
  get_matching_subprojects repo st = (Ok names, st') ->
  names <> []
  /\ StronglySorted Py.str_le names
  /\ NoDup names
  /\ Forall (fun name => name <> []) names.
Proof.
  intros Hgm.
  destruct (get_matching_subprojects_NoDup _ _ _ _ Hgm) as [Hd Hf].
  destruct (get_matching_subprojects_sorted _ _ _ _ Hgm) as (ns & Hns & ->).
  split; [| split; [| split; assumption]].
  - intros Hnil. apply Hns. apply Permutation_nil_r.
    rewrite <- Hnil. symmetry. apply sorted_perm.
  - apply sorted_ordered.
Qed.

End Names.

(** The names of the first import. *)
Lemma matching_subprojects_sorted_distinct_witness :
  [py "alpha"; py "beta"] <> []
  /\ StronglySorted Py.str_le [py "alpha"; py "beta"]
  /\ NoDup [py "alpha"; py "beta"]
  /\ Forall (fun name : str => name <> []) [py "alpha"; py "beta"].
Proof.
  pose (st := {| self := Demo.command (py "**/*.po"); world := Demo.site |}).
  pose (c1 := @checkout_tmp Demo.platform Demo.hello Demo.remote (py "master") st).
  pose (g1 := @get_matching_subprojects Demo.platform (py "/data/hello/tmp0")
                                        (snd c1)).
  assert (Hg : g1 = (Ok [py "alpha"; py "beta"], snd g1))
    by (vm_compute; reflexivity).
  exact (@matching_subprojects_sorted_distinct Demo.platform
           (py "/data/hello/tmp0") (snd c1) (snd g1) [py "alpha"; py "beta"] Hg).
Defined.

(** ** The scan of the working copy *)

Section Scan.

Context `{Platform}.

(** X6. Whatever its outcome, [get_matching_subprojects] leaves the disk
    and the tables as they were and the mask and the custom expression
    of the command object as they were; it only adds lines to the log
    (and fills the cache of the expression). *)
Theorem matching_subprojects_read_only (repo : str) (st : State) :
  let st' := snd (get_matching_subprojects repo st) in
  same_tables st st'
  /\ log (world st) `prefix_of` log (world st')
  /\ filemask (self st') = filemask (self st)
  /\ component_re (self st') = component_re (self st)
  /\ attribs (self st') = attribs (self st).
Proof.
  set (R := fun a b : State =>
              same_tables a b
              /\ log (world a) `prefix_of` log (world b)
              /\ filemask (self b) = filemask (self a)
              /\ component_re (self b) = component_re (self a)
              /\ attribs (self b) = attribs (self a)).
  apply (keeps_get_matching_subprojects R); subst R; cbv beta.
  - intros a. repeat split; reflexivity.
  - intros a b c ((D1 & C1 & P1 & G1) & L1 & F1 & E1 & A1)
           ((D2 & C2 & P2 & G2) & L2 & F2 & E2 & A2).
    repeat split; try congruence. etrans; eassumption.
  - intros lv msg a. repeat split; try reflexivity.
    cbn. apply prefix_app_r. reflexivity.
  - intros p a. repeat split; reflexivity.
Qed.

End Scan.

(** ** The main component named on the command line *)

Lemma list_remove_perm (x : str) (l : list str) :
  x ∈ l -> l ≡ₚ x :: Py.list_remove x l.
Proof.
  induction l as [| y l IH]; [intros Hx; inversion Hx |].
  intros Hx. cbn [Py.list_remove]. destruct (decide (y = x)) as [-> | Hne].
  - reflexivity.
  - apply elem_of_cons in Hx as [-> | Hx]; [contradiction |].
    rewrite (IH Hx) at 1. apply Permutation_swap.
Qed.

Lemma list_remove_NoDup (x : str) (l : list str) :
  NoDup l -> x ∉ Py.list_remove x l.
Proof.
  induction 1 as [| y l Hy Hl IH]; cbn [Py.list_remove].
  - apply not_elem_of_nil.
  - destruct (decide (y = x)) as [-> | Hne]; [exact Hy |].
    apply not_elem_of_cons. split; [congruence | exact IH].
Qed.

Section GivenMain.

Context `{Platform}.

(** X7. [--main-component] names one of the matches: it is the main
    component, whatever its place in the list, and the other names are
    left for the loop of [handle] in their order. As without the option,
    the temporary checkout is removed when the project has the slug, and
    renamed for the new component otherwise. *)
Theorem given_main_component_is_main
        (project : Project.t) (repo branch : str) (slug_len name_len : Z)
        (st st1 st2 : State) (workdir : str) (names : list str) (main : str) :
  checkout_tmp project repo branch st = (Ok workdir, st1) ->
  get_matching_subprojects workdir st1 = (Ok names, st2) ->
  main_component (self st2) = Some main ->
  main ∈ names ->
  let rest := Py.list_remove main names in
  (names ≡ₚ main :: rest)
  /\ (main ∉ rest)
  /\ exists d : Dir.t,
      find_dir workdir (dirs (world st2)) = Some d
      /\ forall formatted template : str,
          format_string (name_template (self st2)) main st2
          = (Ok formatted, st2) ->
          format_string (base_file_template (self st2)) main st2
          = (Ok template, st2) ->
          let name := Py.slice_to name_len formatted in
          let slug := Py.slice_to slug_len (slugify name) in
          let target := os_path_join (Project.full_path project) slug in
          let run := import_initial project repo branch slug_len name_len st in
          (slug_exists project slug (components (world st2)) = true ->
           run = (Ok (rest, weblate_link project slug),
                  removed workdir
                    (logged WARNING
                       (py "Component " ++ name
                           ++ py " already exists, skipping and using it as main component")
                       st2)))
          /\ (slug_exists project slug (components (world st2)) = false ->
              match find_dir target (dirs (world st2)) with
              | Some t => Dir.files t = []
              | None => True
              end ->
              run = (Ok (rest, weblate_link project slug),
                     stored
                       (new_component (self st2) name slug project
                          (Some (push_url (self st2))) repo branch template
                          (Py.replace (py "**") main (filemask (self st2))))
                       (moved workdir target d
                          (logged INFO
                             (py "Creating component " ++ name
                                 ++ py " as main one")
                             st2)))).
Proof.
  intros Hco Hgm Hmain Hin rest.
  destruct (get_matching_subprojects_NoDup _ _ _ _ Hgm) as [Hd Hf].
  assert (Htruthy : Py.truthy main = true).
  { pose proof (proj1 (Forall_forall _ _) Hf main Hin) as Hne.
    destruct main; [contradiction | reflexivity]. }
  assert (Hdir : dir_exists workdir (dirs (world st2)) = true).
  { destruct (get_matching_subprojects_same_tables _ _ _ _ Hgm) as (-> & _).
    exact (proj1 (checkout_tmp_exists _ _ _ _ _ _ Hco)). }
  destruct (dir_exists_find _ _ Hdir) as [d Hfound].
  split; [exact (list_remove_perm _ _ Hin) |].
  split; [exact (list_remove_NoDup _ _ Hd) |].
  exists d. split; [exact Hfound |].
  intros formatted template Hname Htemplate name slug target run.
  subst run. unfold import_initial.
  rewrite (bind_ok _ _ _ _ _ Hco), (bind_ok _ _ _ _ _ Hgm).
  rewrite (bind_ok get_self _ st2 st2 (self st2) eq_refl).
  rewrite Hmain. cbn [Py.truthy_opt default]. rewrite Htruthy.
  rewrite (bool_decide_eq_true_2 _ Hin). cbn [negb].
  rewrite (bind_ok (ret (main, Py.list_remove main names)) _ st2 st2 _ eq_refl).
  cbv beta iota zeta.
  rewrite (bind_ok _ _ _ _ _ Hname), (bind_ok _ _ _ _ _ Htemplate).
  rewrite (bind_ok get_world _ st2 st2 (world st2) eq_refl).
  fold name. fold slug. fold target.
  split.
  - intros ->.
    rewrite (bind_ok _ _ _ _ _ (logger_logged _ _ _)).
    set (logged_ := logged WARNING _ st2).
    rewrite (bind_ok _ _ _ _ _ (rmtree_removed workdir logged_ Hdir)).
    reflexivity.
  - intros -> Hfree.
    rewrite (bind_ok _ _ _ _ _ (logger_logged _ _ _)).
    set (logged_ := logged INFO _ st2).
    rewrite (bind_ok _ _ _ _ _
               (rename_moved workdir target d logged_ Hfound Hfree)).
    rewrite (bind_ok _ _ _ _ _ (create_stored _ _)).
    reflexivity.
Qed.

(** X8. [--main-component] names none of the matches: [import_initial]
    stops with a [CommandError]; no component is created, and the
    temporary checkout is on the disk. *)
Theorem main_component_not_found
        (project : Project.t) (repo branch : str) (slug_len name_len : Z)
        (st st1 st2 : State) (workdir : str) (names : list str) (main : str) :
  checkout_tmp project repo branch st = (Ok workdir, st1) ->
  get_matching_subprojects workdir st1 = (Ok names, st2) ->
  main_component (self st2) = Some main ->
  main <> [] ->
  main ∉ names ->
  import_initial project repo branch slug_len name_len st
  = (Raise (CommandError
              (py "Specified --main-component was not found in matches!")),
     st2)
  /\ components (world st2) = components (world st)
  /\ dir_exists workdir (dirs (world st2)) = true.
Proof.
  intros Hco Hgm Hmain Hne Hnotin.
  split; [| split].
  - unfold import_initial.
    rewrite (bind_ok _ _ _ _ _ Hco), (bind_ok _ _ _ _ _ Hgm).
    rewrite (bind_ok get_self _ st2 st2 (self st2) eq_refl).
    rewrite Hmain. cbn [Py.truthy_opt default].
    destruct main as [| c main]; [contradiction |]. cbn [Py.truthy].
    rewrite (bool_decide_eq_false_2 _ Hnotin). reflexivity.
  - destruct (get_matching_subprojects_same_tables _ _ _ _ Hgm) as (_ & -> & _).
    exact (proj2 (checkout_tmp_exists _ _ _ _ _ _ Hco)).
  - destruct (get_matching_subprojects_same_tables _ _ _ _ Hgm) as (-> & _).
    exact (proj1 (checkout_tmp_exists _ _ _ _ _ _ Hco)).
Qed.

End GivenMain.

(** [--main-component gamma], which no file gives. *)
Lemma main_component_not_found_witness :
  let st := {| self := Demo.command_with_main (py "**/*.po") (py "gamma");
               world := Demo.site |} in
  fst (@import_initial Demo.platform Demo.hello Demo.remote (py "master")
                       100 100 st)
  = Raise (CommandError
             (py "Specified --main-component was not found in matches!")).
Proof.
  intros st.
  pose (c1 := @checkout_tmp Demo.platform Demo.hello Demo.remote (py "master") st).
  pose (g1 := @get_matching_subprojects Demo.platform (py "/data/hello/tmp0")
                                        (snd c1)).
  assert (Hc : c1 = (Ok (py "/data/hello/tmp0"), snd c1))
    by (vm_compute; reflexivity).
  assert (Hg : g1 = (Ok [py "alpha"; py "beta"], snd g1))
    by (vm_compute; reflexivity).
  rewrite (proj1 (@main_component_not_found Demo.platform Demo.hello
                    Demo.remote (py "master") 100 100 st (snd c1) (snd g1)
                    (py "/data/hello/tmp0") [py "alpha"; py "beta"]
                    (py "gamma") Hc Hg eq_refl ltac:(discriminate)
                    ltac:(intros Hin;
                          repeat (apply elem_of_cons in Hin as [Hin | Hin];
                                  [discriminate |]);
                          inversion Hin))).
  reflexivity.
Defined.

(** [--main-component alpha]: [alpha] is the main component, and [beta]
    is left. *)
Lemma given_main_component_is_main_witness :
  let st := {| self := Demo.command_with_main (py "**/*.po") (py "alpha");
               world := Demo.site |} in
  let r := @import_initial Demo.platform Demo.hello Demo.remote (py "master")
                           100 100 st in
  fst r = Ok ([py "beta"], py "weblate://hello/alpha")
  /\ map SubProject.name (components (world (snd r))) = [py "alpha"].
Proof.
  intros st r.
  pose (c1 := @checkout_tmp Demo.platform Demo.hello Demo.remote (py "master") st).
  pose (g1 := @get_matching_subprojects Demo.platform (py "/data/hello/tmp0")
                                        (snd c1)).
  assert (Hc : c1 = (Ok (py "/data/hello/tmp0"), snd c1))
    by (vm_compute; reflexivity).
  assert (Hg : g1 = (Ok [py "alpha"; py "beta"], snd g1))
    by (vm_compute; reflexivity).
  destruct (@given_main_component_is_main Demo.platform Demo.hello
              Demo.remote (py "master") 100 100 st (snd c1) (snd g1)
              (py "/data/hello/tmp0") [py "alpha"; py "beta"] (py "alpha")
              Hc Hg eq_refl ltac:(constructor))
    as (_ & _ & d & Hd & E).
  assert (Hd' : Some d = Some {| Dir.path := py "/data/hello/tmp0";
                                 Dir.mode := 493;
                                 Dir.files := Demo.remote_files |})
    by (rewrite <- Hd; vm_compute; reflexivity).
  injection Hd' as ->.
  pose proof (proj2 (E (py "alpha") [] eq_refl eq_refl) eq_refl I) as E'.
  subst r. rewrite E'.
  split; vm_compute; reflexivity.
Defined.

(** ** Errors before the import starts *)

Section Refusals.

Context `{Platform}.

(** X9. A file format or a version control system the site does not know
    stops [handle] with a [CommandError] that names it, and the world is
    as it was; of the two checks, the one of the file format comes
    first. *)
Theorem unknown_format_or_vcs_rejected (o : Options.t) (w : World)
        (re : option Re.Pattern) :
  parse_component_regexp o = Ok re ->
  (Options.file_format o ∉ FILE_FORMATS ->
   handle o w
   = (Raise (CommandError (py "Invalid file format: "
                              ++ Options.file_format o)), w))
  /\ (Options.file_format o ∈ FILE_FORMATS ->
      Options.vcs o ∉ VCS_REGISTRY ->
      handle o w
      = (Raise (CommandError (py "Invalid vcs: " ++ Options.vcs o)), w)).
Proof.
  intros Hre. unfold handle, parse_options. rewrite Hre. split.
  - intros Hformat. rewrite (bool_decide_eq_false_2 _ Hformat). reflexivity.
  - intros Hformat Hvcs.
    rewrite (bool_decide_eq_true_2 _ Hformat),
            (bool_decide_eq_false_2 _ Hvcs).
    reflexivity.
Qed.

(** X10. When the options are accepted and the site has no project with
    the slug given, or has the project and the [weblate://] link given
    as the repository leads to no component, [handle] stops with a
    [CommandError] and the world is as it was: nothing is logged,
    checked out or created. *)
Theorem missing_project_or_component_rejected (o : Options.t) (w : World)
        (c : Command) :
  parse_options (Options.repo o) o = Ok c ->
  (find (fun p => bool_decide (Project.slug p = Options.project o))
        (projects w) = None ->
   handle o w
   = (Raise (CommandError
               (py "Project " ++ [dq] ++ Options.project o ++ [dq]
                   ++ py " not found, please create it first!")), w))
  /\ (forall project : Project.t,
         find (fun p => bool_decide (Project.slug p = Options.project o))
              (projects w) = Some project ->
         is_repo_link (Options.repo o) = true ->
         get_linked (components w) (Options.repo o) = None ->
         handle o w
         = (Raise (CommandError
                     (py "Component " ++ [dq] ++ Options.repo o ++ [dq]
                         ++ py " not found, please create it first!")), w)).
Proof.
  intros Hparse. unfold handle. rewrite Hparse.
  set (st := {| self := c; world := w |}). unfold run.
  rewrite (bind_ok get_world _ st st (world st) eq_refl). cbv zeta.
  cbn [world st]. split.
  - intros ->. reflexivity.
  - intros project -> -> Hlinked. unfold bind at 1.
    rewrite Hlinked. reflexivity.
Qed.

End Refusals.

(** The project [world], which the site does not have. *)
Lemma missing_project_or_component_rejected_witness :
  @handle Demo.platform
          (Demo.command_line (py "world") Demo.remote (py "**/*.po") (py "auto"))
          Demo.site
  = (Raise (CommandError
              (py "Project " ++ [dq] ++ py "world" ++ [dq]
                  ++ py " not found, please create it first!")), Demo.site).
Proof.
  pose (o := Demo.command_line (py "world") Demo.remote (py "**/*.po")
                               (py "auto")).
  destruct (@parse_options Demo.platform (Options.repo o) o) as [c | e] eqn:Hc;
    [| vm_compute in Hc; discriminate].
  exact (proj1 (@missing_project_or_component_rejected Demo.platform o
                  Demo.site c Hc) eq_refl).
Defined.

(** The file format [xyz]. *)
Lemma unknown_format_or_vcs_rejected_witness :
  @handle Demo.platform
          (Demo.command_line (py "hello") Demo.remote (py "**/*.po") (py "xyz"))
          Demo.site
  = (Raise (CommandError (py "Invalid file format: xyz")), Demo.site).
Proof.
  apply (proj1 (@unknown_format_or_vcs_rejected Demo.platform
                  (Demo.command_line (py "hello") Demo.remote (py "**/*.po")
                                     (py "xyz"))
                  Demo.site None eq_refl)).
  intros Hin.
  repeat (apply elem_of_cons in Hin as [Hin | Hin]; [discriminate |]).
  inversion Hin.
Defined.

(** ** The name [find_usable_slug] picks *)

Lemma slice_to_length (k : Z) (s : str) :
  (0 <= k)%Z -> (Z.of_nat (length (Py.slice_to k s)) <= k)%Z.
Proof.
  intros Hk. unfold Py.slice_to.
  rewrite (proj2 (Z.leb_le 0 k) Hk), length_take. lia.
Qed.

Section UsableSlug.

Context `{Platform}.

(** X11. When [find_usable_slug] returns, the state is as it was; no
    component of the project has the name or the slug returned; the name
    is the old one, cut to four characters less than the slug may have,
    with a space and three digits after it, so that it is no longer than
    a slug may be; and the slug is [slugify] of that name. *)
Theorem find_usable_slug_result (name : str) (slug_len : Z)
        (project : Project.t) (st st' : State) (newname slug : str) :
  find_usable_slug name slug_len project st = (Ok (newname, slug), st') ->
  st' = st
  /\ name_or_slug_exists project newname slug (components (world st)) = false
  /\ slug = slugify newname
  /\ (exists i : nat,
         1 <= i <= 999
         /\ length (Py.format_03d i) = 3
         /\ newname = Py.slice_to (slug_len - 4) name ++ py " "
                        ++ Py.format_03d i)
  /\ ((4 <= slug_len)%Z -> (Z.of_nat (length newname) <= slug_len)%Z).
Proof.
  intros Hfound.
  apply find_usable_slug_free in Hfound as (-> & Hfree & i & Hi & Hc).
  unfold candidate in Hc. injection Hc as Hn Hs.
  assert (Hdigits : length (Py.format_03d i) = 3)
    by (rewrite format_03d_digits by lia; reflexivity).
  split; [reflexivity |]. split; [exact Hfree |].
  split; [rewrite Hs, Hn; reflexivity |].
  split; [exists i; repeat split; [lia | lia | exact Hdigits | exact Hn] |].
  intros Hlen. rewrite Hn, length_app.
  cbn [length]. rewrite Hdigits.
  pose proof (slice_to_length (slug_len - 4) name ltac:(lia)). lia.
Qed.

End UsableSlug.

(** The second [alpha] of the project. *)
Lemma find_usable_slug_result_witness :
  name_or_slug_exists Demo.hello (py "alpha 001") (py "alpha-001")
                      (components Demo.site_with_alpha) = false
  /\ (Z.of_nat (length (py "alpha 001")) <= 100)%Z.
Proof.
  pose (st := {| self := Demo.command (py "**/*.po");
                 world := Demo.site_with_alpha |}).
  destruct (@find_usable_slug_result Demo.platform (py "alpha") 100 Demo.hello
              st st (py "alpha 001") (py "alpha-001") eq_refl)
    as (_ & Hfree & _ & _ & Hlen).
  split; [exact Hfree | apply Hlen; lia].
Defined.

(** ** The temporary checkout, when it is made *)

Lemma find_dir_map (f : Dir.t -> Dir.t) (p : str) (ds : list Dir.t) :
  (forall d, Dir.path (f d) = Dir.path d) ->
  find_dir p (map f ds) = option_map f (find_dir p ds).
Proof.
  intros Hf. unfold find_dir.
  induction ds as [| d ds IH]; [reflexivity |].
  cbn [map find]. rewrite Hf. destruct (bool_decide _); [reflexivity | exact IH].
Qed.

Lemma find_dir_path (p : str) (ds : list Dir.t) (d : Dir.t) :
  find_dir p ds = Some d -> Dir.path d = p.
Proof.
  unfold find_dir. intros Hd. apply find_some in Hd as [_ Hd].
  apply bool_decide_eq_true_1 in Hd. exact Hd.
Qed.

Lemma find_dir_app (p : str) (ds : list Dir.t) (d : Dir.t) :
  find_dir p (ds ++ [d])
  = match find_dir p ds with
    | Some x => Some x
    | None => if bool_decide (Dir.path d = p) then Some d else None
    end.
Proof.
  unfold find_dir. induction ds as [| x ds IH]; [reflexivity |].
  cbn [app find]. destruct (bool_decide (Dir.path x = p)); [reflexivity | exact IH].
Qed.

Section CheckoutResult.

Context `{Platform}.

(** X12. When [checkout_tmp] returns, the directory it names is the one
    [mkdtemp] made under the project's directory; it has the mode 0755
    and holds the working copy as [configure_branch] left it; every
    other directory is as it was, and so are the component table and the
    command object. *)
Theorem checkout_tmp_result (project : Project.t) (repo branch : str)
        (st st1 : State) (workdir : str) :
  checkout_tmp project repo branch st = (Ok workdir, st1) ->
  workdir = mkdtemp_name (dirs (world st)) (Project.full_path project)
  /\ (exists files files' : list str,
         clone (vcs (self st)) repo = Some files
         /\ configure_branch (vcs (self st)) branch files = Some files'
         /\ find_dir workdir (dirs (world st1))
            = Some {| Dir.path := workdir; Dir.mode := 493;
                      Dir.files := files' |})
  /\ (forall p : str,
         p <> workdir ->
         find_dir p (dirs (world st1)) = find_dir p (dirs (world st)))
  /\ components (world st1) = components (world st)
  /\ self st1 = self st.
Proof.
  unfold checkout_tmp, chmod, set_files, logger, bind, get_world, put_world,
    get_self, ret, raise.
  cbn [world self dirs components with_dirs with_log].
  set (tmp := mkdtemp_name _ _).
  destruct (clone _ repo) as [files |]; [| discriminate].
  destruct (configure_branch _ branch files) as [files' |] eqn:Hbranch;
    [| discriminate].
  intros [= <- <-]. cbn [world self dirs components with_dirs with_log].
  split; [reflexivity |].
  split; [| split; [| split; reflexivity]].
  - exists files, files'. split; [reflexivity |]. split; [exact Hbranch |].
    rewrite !find_dir_map, find_dir_app
      by (intros d; case_bool_decide as E; [symmetry; exact E | reflexivity]).
    destruct (find_dir tmp (dirs (world st))) as [d |] eqn:Hd.
    + apply find_dir_path in Hd. cbn [option_map].
      rewrite (bool_decide_eq_true_2 _ Hd).
      repeat (cbn [Dir.path Dir.mode Dir.files];
              rewrite (bool_decide_eq_true_2 (tmp = tmp) eq_refl)).
      reflexivity.
    + repeat (cbn [option_map Dir.path Dir.mode Dir.files];
              rewrite (bool_decide_eq_true_2 (tmp = tmp) eq_refl)).
      reflexivity.
  - intros p Hp.
    rewrite !find_dir_map, find_dir_app
      by (intros d; case_bool_decide as E; [symmetry; exact E | reflexivity]).
    cbn [Dir.path].
    rewrite (bool_decide_eq_false_2 (tmp = p)) by congruence.
    destruct (find_dir p (dirs (world st))) as [d |] eqn:Hd; [| reflexivity].
    apply find_dir_path in Hd. cbn [option_map].
    assert (Hne : Dir.path d <> tmp) by congruence.
    repeat (rewrite (bool_decide_eq_false_2 (Dir.path d = tmp) Hne);
            cbv iota).
    reflexivity.
Qed.

End CheckoutResult.

(** The checkout of the first import. *)
Lemma checkout_tmp_result_witness :
  let st := {| self := Demo.command (py "**/*.po"); world := Demo.site |} in
  let st1 := snd (@checkout_tmp Demo.platform Demo.hello Demo.remote
                                (py "master") st) in
  find_dir (py "/data/hello/tmp0") (dirs (world st1))
  = Some {| Dir.path := py "/data/hello/tmp0"; Dir.mode := 493;
            Dir.files := Demo.remote_files |}.
Proof.
  intros st st1.
  destruct (@checkout_tmp_result Demo.platform Demo.hello Demo.remote
              (py "master") st st1 (py "/data/hello/tmp0") eq_refl)
    as (_ & (files & files' & Hclone & Hbranch & Hfound) & _).
  rewrite Hfound. injection Hclone as <-. injection Hbranch as <-.
  reflexivity.
Defined.

(** ** What [import_initial] returns *)

Lemma dir_exists_removed (p : str) (ds : list Dir.t) :
  dir_exists p (remove_dir p ds) = false.
Proof.
  unfold dir_exists, remove_dir. induction ds as [| d ds IH]; [reflexivity |].
  cbn [List.filter]. destruct (bool_decide (Dir.path d = p)) eqn:Hd; cbn [negb].
  - exact IH.
  - cbn [existsb]. rewrite Hd, IH. reflexivity.
Qed.

Lemma slug_exists_new (project : Project.t) (slug : str)
      (table : list SubProject.t) (sp : SubProject.t) :
  SubProject.project sp = Project.slug project ->
  SubProject.slug sp = slug ->
  slug_exists project slug (table ++ [sp]) = true.
Proof.
  intros Hp Hs. unfold slug_exists. rewrite existsb_app. cbn [existsb].
  rewrite (bool_decide_eq_true_2 _ Hp), (bool_decide_eq_true_2 _ Hs).
  apply orb_true_r.
Qed.

Section InitialResult.

Context `{Platform}.

(** X13. When [import_initial] returns, the names it leaves for the loop
    are the names [get_matching_subprojects] found without the main one;
    the link it returns is that of a component the project has (the one
    it found, or the one it created); and the temporary checkout is no
    longer on the disk under its temporary name (unless that is the very
    place of the main component). *)
Theorem import_initial_result
        (project : Project.t) (repo branch : str) (slug_len name_len : Z)
        (st st' : State) (rest : list str) (link : str) :
  import_initial project repo branch slug_len name_len st
  = (Ok (rest, link), st') ->
  exists (workdir : str) (st1 : State) (names : list str) (st2 : State)
         (main slug : str),
    checkout_tmp project repo branch st = (Ok workdir, st1)
    /\ get_matching_subprojects workdir st1 = (Ok names, st2)
    /\ (names ≡ₚ main :: rest)
    /\ (main ∉ rest)
    /\ link = weblate_link project slug
    /\ slug_exists project slug (components (world st')) = true
    /\ (os_path_join (Project.full_path project) slug <> workdir ->
        dir_exists workdir (dirs (world st')) = false).
Proof.
  unfold import_initial. unfold bind at 1.
  destruct (checkout_tmp project repo branch st) as [[workdir | e] st1] eqn:Hco;
    [| discriminate].
  unfold bind at 1.
  destruct (get_matching_subprojects workdir st1) as [[names | e] st2] eqn:Hgm;
    [| discriminate].
  destruct (get_matching_subprojects_NoDup _ _ _ _ Hgm) as [Hd _].
  rewrite (bind_ok get_self _ st2 st2 (self st2) eq_refl).
  unfold bind at 1.
  set (picked := if Py.truthy_opt (main_component (self st2)) then _ else _).
  destruct (picked st2) as [[[main rest0] | e] st3] eqn:Hpicked;
    [| discriminate].
  assert (Hmain : st3 = st2 /\ (names ≡ₚ main :: rest0) /\ (main ∉ rest0)).
  { subst picked. revert Hpicked.
    destruct (Py.truthy_opt _).
    - case_bool_decide as Hin; cbn [negb]; [| discriminate].
      intros [= <- <- <-].
      split; [reflexivity |].
      split; [apply list_remove_perm, Hin | apply list_remove_NoDup, Hd].
    - unfold pop. destruct (last names) as [m |] eqn:Hlast; [| discriminate].
      intros [= <- <- <-]. split; [reflexivity |].
      apply last_Some in Hlast as [l' ->].
      rewrite removelast_last. split.
      + rewrite Permutation_app_comm. reflexivity.
      + apply NoDup_app in Hd as (_ & Hd & _). intros Hin.
        apply (Hd _ Hin). constructor. }
  destruct Hmain as (-> & Hperm & Hnotin). clear Hpicked picked.
  cbv beta iota zeta. unfold bind at 1.
  destruct (format_string (name_template (self st2)) main st2)
    as [[formatted | e] st3] eqn:Hname; [| discriminate].
  apply format_string_state in Hname as ->.
  unfold bind at 1.
  destruct (format_string (base_file_template (self st2)) main st2)
    as [[template | e] st3] eqn:Htemplate; [| discriminate].
  apply format_string_state in Htemplate as ->.
  rewrite (bind_ok get_world _ st2 st2 (world st2) eq_refl).
  set (slug := Py.slice_to slug_len (slugify (Py.slice_to name_len formatted))).
  destruct (slug_exists project slug (components (world st2))) eqn:Hex.
  - rewrite (bind_ok _ _ _ _ _ (logger_logged _ _ _)).
    unfold rmtree, bind, get_world.
    destruct (dir_exists workdir _); [| discriminate].
    intros [= <- <- <-].
    exists workdir, st1, names, st2, main, slug.
    repeat split; try assumption.
    intros _. apply dir_exists_removed.
  - rewrite (bind_ok _ _ _ _ _ (logger_logged _ _ _)).
    unfold rename, create, bind, get_world.
    destruct (find_dir workdir _) as [d |]; [| discriminate].
    destruct (match find_dir _ _ with
              | Some t => Py.truthy_list (Dir.files t)
              | None => false
              end); [discriminate |].
    intros [= <- <- <-].
    exists workdir, st1, names, st2, main, slug.
    repeat split; try assumption.
    + cbn. apply slug_exists_new; reflexivity.
    + intros Hne. cbn. unfold dir_exists. rewrite existsb_app.
      fold (dir_exists workdir
              (remove_dir workdir
                 (remove_dir (os_path_join (Project.full_path project) slug)
                    (dirs (world st2))))).
      rewrite dir_exists_removed. cbn.
      rewrite (bool_decide_eq_false_2 _ Hne). reflexivity.
Qed.

End InitialResult.

(** The first import: [beta] is the main component, [alpha] is left. *)
Lemma import_initial_result_witness :
  let st := {| self := Demo.command (py "**/*.po"); world := Demo.site |} in
  let st' := snd (@import_initial Demo.platform Demo.hello Demo.remote
                                  (py "master") 100 100 st) in
  exists slug : str,
    py "weblate://hello/beta" = weblate_link Demo.hello slug
    /\ slug_exists Demo.hello slug (components (world st')) = true.
Proof.
  intros st st'.
  destruct (@import_initial_result Demo.platform Demo.hello Demo.remote
              (py "master") 100 100 st st' [py "alpha"]
              (py "weblate://hello/beta")
              ltac:(vm_compute; reflexivity))
    as (workdir & st1 & names & st2 & main & slug & _ & _ & _ & _
        & Hlink & Hex & _).
  exists slug. split; [exact Hlink | exact Hex].
Defined.

(** ** The components of the loop *)

Section Loop.

Context `{Platform}.

Variable o : Options.t.
Variable project : Project.t.
Variables sharedrepo branch : str.
Variables slug_len name_len : Z.

(** One round of the loop adds at most one row. *)
Lemma create_remaining_row (match_ : str) (st : State) :
  let st' := snd (create_remaining o project sharedrepo branch slug_len
                                   name_len match_ st) in
  self st' = self st
  /\ exists new : list SubProject.t,
      components (world st') = components (world st) ++ new
      /\ length new <= 1
      /\ Forall (fun sp =>
                   SubProject.repo sp = sharedrepo
                   /\ SubProject.push sp = None
                   /\ SubProject.filemask sp
                      = Py.replace (py "**") match_ (filemask (self st))
                   /\ (Options.duplicates o = false ->
                       (0 <= name_len)%Z -> (0 <= slug_len)%Z ->
                       (Z.of_nat (length (SubProject.name sp)) <= name_len)%Z
                       /\ (Z.of_nat (length (SubProject.slug sp))
                           <= slug_len)%Z))
                new.
Proof.
  assert (Hnone : forall st' : State,
             self st' = self st ->
             components (world st') = components (world st) ->
             self st' = self st
             /\ exists new : list SubProject.t,
                 components (world st') = components (world st) ++ new
                 /\ length new <= 1
                 /\ Forall (fun sp =>
                              SubProject.repo sp = sharedrepo
                              /\ SubProject.push sp = None
                              /\ SubProject.filemask sp
                                 = Py.replace (py "**") match_
                                              (filemask (self st))
                              /\ (Options.duplicates o = false ->
                                  (0 <= name_len)%Z -> (0 <= slug_len)%Z ->
                                  (Z.of_nat (length (SubProject.name sp))
                                   <= name_len)%Z
                                  /\ (Z.of_nat (length (SubProject.slug sp))
                                      <= slug_len)%Z))
                           new).
  { intros st' Hs Hc. split; [exact Hs |]. exists [].
    split; [rewrite Hc; symmetry; apply app_nil_r |].
    split; [cbn; lia | constructor]. }
  cbv zeta. unfold create_remaining.
  rewrite (bind_ok get_self _ st st (self st) eq_refl).
  destruct (format_string (name_template (self st)) match_ st)
    as [[formatted | e] st1] eqn:Hname;
    pose proof (format_string_state _ _ _ _ _ Hname) as ->;
    [rewrite (bind_ok _ _ _ _ _ Hname)
    | rewrite (bind_raise _ _ _ _ _ Hname); apply Hnone; reflexivity].
  destruct (format_string (base_file_template (self st)) match_ st)
    as [[template | e] st1] eqn:Htemplate;
    pose proof (format_string_state _ _ _ _ _ Htemplate) as ->;
    [rewrite (bind_ok _ _ _ _ _ Htemplate)
    | rewrite (bind_raise _ _ _ _ _ Htemplate); apply Hnone; reflexivity].
  rewrite (bind_ok get_world _ st st (world st) eq_refl).
  destruct (name_or_slug_exists _ _ _ _).
  - destruct (Options.duplicates o) eqn:Hdup; cbn [negb];
      [| apply Hnone; reflexivity].
    destruct (find_usable_slug (Py.slice_to name_len formatted) slug_len
                               project st)
      as [[[newname slug] | e] st1] eqn:Hfound.
    + rewrite (bind_ok _ _ _ _ _ Hfound).
      apply find_usable_slug_free in Hfound as (-> & _ & _).
      split; [reflexivity |]. eexists [_].
      split; [reflexivity |]. split; [cbn; lia |].
      constructor; [| constructor].
      split; [reflexivity |]. split; [reflexivity |]. split; [reflexivity |].
      intros [=].
    + rewrite (bind_raise _ _ _ _ _ Hfound).
      assert (st1 = st) as ->.
      { revert Hfound. unfold find_usable_slug, bind, get_world.
        destruct (find _ _); unfold ret, raise; congruence. }
      apply Hnone; reflexivity.
  - split; [reflexivity |]. eexists [_].
    split; [reflexivity |]. split; [cbn; lia |].
    constructor; [| constructor].
    split; [reflexivity |]. split; [reflexivity |]. split; [reflexivity |].
    intros _ Hn Hs.
    cbn [SubProject.name SubProject.slug new_component].
    split; apply slice_to_length; assumption.
Qed.

(** X14. The loop of [handle] adds at most one row for each name, every
    one of them on the shared repository and without a push URL, its
    mask being the mask of the command line with the name in the place
    of the double wildcard; and without [--no-skip-duplicates], the name
    and the slug of a row are no longer than the table allows. *)
Theorem remaining_components_share_repository (matches : list str)
        (st : State) :
  let st' := snd (for_each matches
                           (create_remaining o project sharedrepo branch
                                             slug_len name_len) st) in
  exists new : list SubProject.t,
    components (world st') = components (world st) ++ new
    /\ length new <= length matches
    /\ Forall (fun sp =>
                 SubProject.repo sp = sharedrepo
                 /\ SubProject.push sp = None
                 /\ (exists match_ : str,
                        match_ ∈ matches
                        /\ SubProject.filemask sp
                           = Py.replace (py "**") match_ (filemask (self st)))
                 /\ (Options.duplicates o = false ->
                     (0 <= name_len)%Z -> (0 <= slug_len)%Z ->
                     (Z.of_nat (length (SubProject.name sp)) <= name_len)%Z
                     /\ (Z.of_nat (length (SubProject.slug sp)) <= slug_len)%Z))
              new.
Proof.
  cbv zeta. revert st.
  induction matches as [| match_ rest IH]; intros st.
  - exists []. split; [symmetry; apply app_nil_r |].
    split; [reflexivity | constructor].
  - cbn [for_each]. unfold bind.
    pose proof (create_remaining_row match_ st) as Hrow. cbv zeta in Hrow.
    destruct (create_remaining _ _ _ _ _ _ match_ st) as [[[] | e] st1];
      cbn [snd] in Hrow; destruct Hrow as (Hself & new1 & Hc1 & Hl1 & Hf1).
    + destruct (IH st1) as (new2 & Hc2 & Hl2 & Hf2).
      exists (new1 ++ new2).
      split; [rewrite Hc2, Hc1, app_assoc; reflexivity |].
      split; [rewrite length_app; cbn [length]; lia |].
      apply Forall_app. split.
      * apply (Forall_impl _ _ _ Hf1). intros sp (Hr & Hp & Hm & Hb).
        split; [exact Hr |]. split; [exact Hp |]. split; [| exact Hb].
        exists match_. split; [constructor | exact Hm].
      * apply (Forall_impl _ _ _ Hf2).
        intros sp (Hr & Hp & (m & Hin & Hm) & Hb).
        split; [exact Hr |]. split; [exact Hp |]. split; [| exact Hb].
        exists m. split; [constructor; exact Hin | rewrite <- Hself; exact Hm].
    + exists new1. split; [exact Hc1 |].
      split; [cbn [length]; lia |].
      apply (Forall_impl _ _ _ Hf1). intros sp (Hr & Hp & Hm & Hb).
      split; [exact Hr |]. split; [exact Hp |]. split; [| exact Hb].
      exists match_. split; [constructor | exact Hm].
Qed.

End Loop.

(** ** The paths [get_matching_files] returns *)

Lemma replace_absent (old new s : str) :
  Py.contains old s = false -> Py.replace_scan old new None 0 s = s.
Proof.
  induction s as [| c s IH]; [reflexivity |].
  cbn [Py.contains]. intros Hc. apply orb_false_elim in Hc as [Hhere Hrest].
  rewrite replace_scan_miss by exact Hhere. rewrite (IH Hrest). reflexivity.
Qed.

Lemma lstrip_other (c x : ascii) (s : str) :
  x <> c -> Py.lstrip c (x :: s) = x :: s.
Proof.
  intros Hx. cbn [Py.lstrip]. destruct (ascii_dec x c); [contradiction |].
  reflexivity.
Qed.

Lemma strip_leading_slash (rel : str) (x y : ascii) (mid : str) :
  rel = x :: mid ->
  last rel = Some y ->
  x <> "/"%char -> y <> "/"%char ->
  Py.strip "/" ("/"%char :: rel) = rel.
Proof.
  intros Hrel Hlast Hx Hy. unfold Py.strip.
  cbn [Py.lstrip]. destruct (ascii_dec "/" "/"); [| contradiction].
  rewrite Hrel at 1. rewrite (lstrip_other _ _ _ Hx), <- Hrel.
  apply last_Some in Hlast as [l' ->].
  rewrite rev_app_distr. cbn [rev app].
  rewrite (lstrip_other _ _ _ Hy).
  change (y :: rev l') with (rev [y] ++ rev l').
  rewrite <- rev_app_distr, rev_involutive. reflexivity.
Qed.

Section RelativePaths.

Context `{Platform}.

(** X15. Where [path_separator] has nothing to change (the separator is
    the slash), a file that [glob] reports as the directory, a slash and
    a relative path is returned as the relative path, provided the name
    of the directory does not occur again in what follows it, and the
    relative path neither starts nor ends with a slash. *)
Theorem matching_files_are_relative (repo : str) (st : State)
        (found : list str) :
  repo <> [] ->
  (forall s : str, path_separator s = s) ->
  glob (dirs (world st)) (os_path_join repo (filemask (self st)))
  = map (fun rel => repo ++ py "/" ++ rel) found ->
  Forall (fun rel =>
            Py.contains repo (py "/" ++ rel) = false
            /\ exists (x y : ascii) (mid : str),
                rel = x :: mid /\ last rel = Some y
                /\ x <> "/"%char /\ y <> "/"%char)
         found ->
  get_matching_files repo st = (Ok found, st).
Proof.
  intros Hrepo Hsep Hglob Hfound. unfold get_matching_files.
  rewrite (bind_ok get_self _ st st (self st) eq_refl).
  rewrite (bind_ok get_world _ st st (world st) eq_refl).
  cbv zeta. rewrite Hglob. unfold ret. f_equal. f_equal.
  rewrite map_map. clear Hglob.
  induction Hfound as [| rel rest (Habsent & x & y & mid & Hrel & Hlast & Hx & Hy)
                         Hrest IH]; [reflexivity |].
  cbn [map]. rewrite IH. f_equal.
  rewrite Hsep. unfold Py.replace, Py.replace_count.
  destruct repo as [| r repo'] eqn:Hr; [contradiction |].
  rewrite <- Hr in *.
  rewrite replace_scan_hit by (congruence || reflexivity).
  cbn [Py.one_less app]. rewrite (replace_absent _ _ _ Habsent).
  exact (strip_leading_slash rel x y mid Hrel Hlast Hx Hy).
Qed.

End RelativePaths.

(** The files of the first import, under the temporary checkout. *)
Lemma matching_files_are_relative_witness :
  let st := {| self := Demo.command (py "**/*.po"); world := Demo.site |} in
  let st1 := snd (@checkout_tmp Demo.platform Demo.hello Demo.remote
                                (py "master") st) in
  @get_matching_files Demo.platform (py "/data/hello/tmp0") st1
  = (Ok [py "alpha/cs.po"; py "alpha/de.po"; py "beta/cs.po"], st1).
Proof.
  intros st st1.
  apply (@matching_files_are_relative Demo.platform).
  - discriminate.
  - reflexivity.
  - vm_compute. reflexivity.
  - repeat constructor; try (vm_compute; reflexivity);
      eexists _, _, _; repeat split; try reflexivity; discriminate.
Defined.

(** ** A match without a name *)

Section EmptyName.

Context `{Platform}.

(** X16. A file the expression matches with an empty name, or with a
    name group that took no part in the match, adds nothing to the names
    and to the languages, and nothing is logged for it: the loop goes on
    in the state [match_regexp] leaves. *)
Theorem nameless_match_is_ignored (st st1 : State) (p : Re.Pattern)
        (path : str) (m : Re.groups) :
  match_regexp st = (Ok p, st1) ->
  py "name" ∈ Re.groupindex p ->
  py "language" ∈ Re.groupindex p ->
  Re.exec p path = Some m ->
  Py.truthy_opt (Re.lookup (py "name") m) = false ->
  log (world st1) = log (world st)
  /\ forall (rest names : list str) (langs : list (option str)),
      collect (path :: rest) names langs st = collect rest names langs st1.
Proof.
  intros Hp Hn Hl Hx Hname. split.
  - rewrite (proj1 (match_regexp_cached _ _ _ Hp)). reflexivity.
  - intros rest names langs. cbn [collect].
    rewrite (bind_ok _ _ _ _ _ (get_name_matched st st1 p path m Hp Hn Hl Hx)).
    destruct (Re.lookup (py "name") m) as [name |]; [| reflexivity].
    cbn [Py.truthy_opt] in Hname. rewrite Hname. reflexivity.
Qed.

End EmptyName.

(** With the mask [**-*.po], the file [-cs.po] has the empty name. *)
Lemma nameless_match_is_ignored_witness :
  let st := {| self := Demo.command (py "**-*.po"); world := Demo.site |} in
  collect [py "-cs.po"] [] [] st = (Ok ([], []), snd (match_regexp st)).
Proof.
  intros st.
  pose (p := Re.of_items
               [Re.Group (py "name"); Re.Char "-"; Re.Group (py "language");
                Re.Char "."; Re.Char "p"; Re.Char "o"]).
  pose (st1 := {| self := set_mask_regexp p (self st); world := world st |}).
  assert (Hp : match_regexp st = (Ok p, st1)) by (vm_compute; reflexivity).
  rewrite (proj2 (nameless_match_is_ignored st st1 p
                    (py "-cs.po") [(py "language", py "cs"); (py "name", [])]
                    Hp ltac:(vm_compute; apply elem_of_cons; left; reflexivity)
                    ltac:(vm_compute; apply elem_of_cons; right;
                          apply elem_of_cons; left; reflexivity)
                    ltac:(vm_compute; reflexivity) eq_refl)
                 [] [] []).
  rewrite Hp. reflexivity.
Defined.

(** ** The expression in use *)

Section Expression.

Context `{Platform}.

(** X17. A custom expression is the one [match_regexp] returns, whatever
    the mask and the cache, and the state is as it was; without one, a
    cached expression is returned as it is; and once [match_regexp] has
    returned an expression, it returns the same one again and the state
    no longer changes: a mask is compiled once. *)
Theorem match_regexp_compiles_once (st : State) :
  (forall p : Re.Pattern,
      component_re (self st) = Some p -> match_regexp st = (Ok p, st))
  /\ (forall p : Re.Pattern,
         component_re (self st) = None ->
         _mask_regexp (self st) = Some p -> match_regexp st = (Ok p, st))
  /\ (forall (p : Re.Pattern) (st1 : State),
         match_regexp st = (Ok p, st1) ->
         match_regexp st1 = (Ok p, st1)
         /\ world st1 = world st
         /\ filemask (self st1) = filemask (self st)
         /\ component_re (self st1) = component_re (self st)).
Proof.
  split; [| split].
  - intros p Hre. unfold match_regexp, bind, get_self. rewrite Hre. reflexivity.
  - intros p Hre Hcache. unfold match_regexp, bind, get_self.
    rewrite Hre, Hcache. reflexivity.
  - intros p st1 Hp.
    destruct (match_regexp_cached _ _ _ Hp) as [Hw Hready].
    split; [apply Hready; reflexivity |]. split; [exact Hw |].
    clear Hw Hready. revert Hp.
    unfold match_regexp, bind, get_self, put_self, ret.
    destruct (component_re (self st)) eqn:Hre;
      [intros [= _ <-]; rewrite Hre; split; reflexivity |].
    destruct (_mask_regexp (self st));
      [intros [= _ <-]; rewrite Hre; split; reflexivity |].
    destruct (Re.compile _); [| discriminate].
    intros [= _ <-]. cbn [self set_mask_regexp component_re filemask].
    rewrite Hre. split; reflexivity.
Qed.

End Expression.

(** ** A custom expression *)

Section CustomExpression.

Context `{Platform}.

(** X18. When [parse_options] accepts a non-empty [--component-regexp],
    the command object holds its compiled form, which has the groups
    [name] and [language]; [match_regexp] returns it without a change of
    state, whatever the mask; and [get_name] never raises: it returns
    what the two groups matched, or logs the path and returns no name. *)
Theorem custom_expression_is_used (repo : str) (o : Options.t) (c : Command)
        (text : str) :
  parse_options repo o = Ok c ->
  Options.component_regexp o = Some text ->
  text <> [] ->
  exists p : Re.Pattern,
    re_compile_flags text = inl p
    /\ component_re c = Some p
    /\ py "name" ∈ Re.groupindex p
    /\ py "language" ∈ Re.groupindex p
    /\ forall (w : World) (path : str),
        let st := {| self := c; world := w |} in
        match_regexp st = (Ok p, st)
        /\ get_name path st
           = match Re.exec p path with
             | Some m => (Ok (Re.lookup (py "name") m,
                              Re.lookup (py "language") m), st)
             | None => (Ok (None, None),
                        logged WARNING (py "Skipping " ++ path) st)
             end.
Proof.
  intros Hparse Hopt Hne.
  assert (Ht : Py.truthy_opt (Options.component_regexp o) = true).
  { rewrite Hopt. destruct text; [contradiction | reflexivity]. }
  revert Hparse. unfold parse_options, parse_component_regexp.
  rewrite Ht, Hopt. change (default [] (Some text)) with text.
  destruct (re_compile_flags text) as [p | error];
    [| cbv beta iota; discriminate].
  destruct (bool_decide (py "name" ∈ Re.groupindex p)) eqn:Hn;
    [| cbn [negb orb]; cbv beta iota; discriminate].
  destruct (bool_decide (py "language" ∈ Re.groupindex p)) eqn:Hl;
    [| cbn [negb orb]; cbv beta iota; discriminate].
  cbn [negb orb]. cbv beta iota.
  repeat (destruct (negb _); [discriminate |]).
  destruct (mask_rejected _); [discriminate |].
  intros Hc. injection Hc as <-. exists p.
  apply bool_decide_eq_true_1 in Hn, Hl.
  split; [reflexivity |]. split; [reflexivity |].
  split; [exact Hn |]. split; [exact Hl |].
  intros w path. set (st := {| self := _; world := w |}).
  assert (Hp : match_regexp st = (Ok p, st)) by reflexivity.
  split; [exact Hp |].
  destruct (Re.exec p path) as [m |] eqn:Hx.
  - exact (get_name_matched st st p path m Hp Hn Hl Hx).
  - exact (get_name_unmatched st st p path Hp Hx).
Qed.

End CustomExpression.

(** An expression with the two groups around a slash, on the path
    [alpha/cs.po]. *)
Lemma custom_expression_is_used_witness :
  let o := Demo.options (py "**/*.po")
                        (Some (py "(?P<name>.*)/(?P<language>.*)\.po"))
                        false in
  exists c : Command,
    @parse_options Demo.platform Demo.remote o = Ok c
    /\ fst (get_name (py "alpha/cs.po") {| self := c; world := Demo.site |})
       = Ok (Some (py "alpha"), Some (py "cs")).
Proof.
  intros o.
  destruct (@parse_options Demo.platform Demo.remote o) as [c | e] eqn:Hc;
    [| vm_compute in Hc; discriminate].
  exists c. split; [reflexivity |].
  destruct (@custom_expression_is_used Demo.platform Demo.remote o c
              (py "(?P<name>.*)/(?P<language>.*)\.po") Hc eq_refl
              ltac:(discriminate))
    as (p & Hp & _ & _ & _ & Huse).
  rewrite (proj2 (Huse Demo.site (py "alpha/cs.po"))).
  vm_compute in Hp. injection Hp as <-.
  vm_compute. reflexivity.
Defined.

(** ** The loop, run again *)

Lemma name_or_slug_exists_grows (project : Project.t) (name slug : str)
      (table table' : list SubProject.t) :
  table `prefix_of` table' ->
  name_or_slug_exists project name slug table = true ->
  name_or_slug_exists project name slug table' = true.
Proof.
  intros [more ->] Hex. unfold name_or_slug_exists in *.
  rewrite existsb_app, Hex. reflexivity.
Qed.

Lemma name_or_slug_exists_new (project : Project.t) (name slug : str)
      (table : list SubProject.t) (sp : SubProject.t) :
  SubProject.project sp = Project.slug project ->
  SubProject.name sp = name ->
  name_or_slug_exists project name slug (table ++ [sp]) = true.
Proof.
  intros Hp Hn. unfold name_or_slug_exists. rewrite existsb_app. cbn [existsb].
  rewrite (bool_decide_eq_true_2 _ Hp), (bool_decide_eq_true_2 _ Hn).
  apply orb_true_r.
Qed.

Section LoopAgain.

Context `{Platform}.

Variable o : Options.t.
Variable project : Project.t.
Variables sharedrepo branch : str.
Variables slug_len name_len : Z.

Lemma format_string_any (template match_ : str) (st st' : State) (r : str) :
  format_string template match_ st = (Ok r, st) ->
  format_string template match_ st' = (Ok r, st').
Proof.
  unfold format_string. destruct (Py.contains _ _).
  - destruct (percent _ _); [| discriminate]. intros [= <-]. reflexivity.
  - intros [= <-]. reflexivity.
Qed.

(** After a round of the loop that raised nothing, the table has a row
    with the name or the slug of the match. *)
Lemma create_remaining_covers (match_ : str) (st st' : State) :
  create_remaining o project sharedrepo branch slug_len name_len match_ st
  = (Ok tt, st') ->
  self st' = self st
  /\ dirs (world st') = dirs (world st)
  /\ components (world st) `prefix_of` components (world st')
  /\ exists formatted template : str,
      format_string (name_template (self st)) match_ st = (Ok formatted, st)
      /\ format_string (base_file_template (self st)) match_ st
         = (Ok template, st)
      /\ name_or_slug_exists
           project (Py.slice_to name_len formatted)
           (Py.slice_to slug_len (slugify (Py.slice_to name_len formatted)))
           (components (world st')) = true.
Proof.
  unfold create_remaining.
  rewrite (bind_ok get_self _ st st (self st) eq_refl).
  destruct (format_string (name_template (self st)) match_ st)
    as [[formatted | e] st1] eqn:Hname;
    pose proof (format_string_state _ _ _ _ _ Hname) as ->;
    [rewrite (bind_ok _ _ _ _ _ Hname)
    | rewrite (bind_raise _ _ _ _ _ Hname); discriminate].
  destruct (format_string (base_file_template (self st)) match_ st)
    as [[template | e] st1] eqn:Htemplate;
    pose proof (format_string_state _ _ _ _ _ Htemplate) as ->;
    [rewrite (bind_ok _ _ _ _ _ Htemplate)
    | rewrite (bind_raise _ _ _ _ _ Htemplate); discriminate].
  rewrite (bind_ok get_world _ st st (world st) eq_refl).
  set (name := Py.slice_to name_len formatted).
  set (slug := Py.slice_to slug_len (slugify name)).
  destruct (name_or_slug_exists project name slug (components (world st)))
    eqn:Hex.
  - destruct (negb _).
    + intros [= <-]. split; [reflexivity |]. split; [reflexivity |].
      split; [reflexivity |]. exists formatted, template.
      split; [reflexivity |]. split; [reflexivity |]. exact Hex.
    + destruct (find_usable_slug name slug_len project st)
        as [[[newname newslug] | e] st1] eqn:Hfound;
        [rewrite (bind_ok _ _ _ _ _ Hfound)
        | rewrite (bind_raise _ _ _ _ _ Hfound); discriminate].
      apply find_usable_slug_free in Hfound as (-> & _ & _).
      intros [= <-]. split; [reflexivity |]. split; [reflexivity |].
      split; [cbn; apply prefix_app_r; reflexivity |].
      exists formatted, template.
      split; [reflexivity |]. split; [reflexivity |].
      apply (name_or_slug_exists_grows _ _ _ (components (world st)));
        [cbn; apply prefix_app_r; reflexivity | exact Hex].
  - intros [= <-]. split; [reflexivity |]. split; [reflexivity |].
    split; [cbn; apply prefix_app_r; reflexivity |].
    exists formatted, template.
    split; [reflexivity |]. split; [reflexivity |].
    apply name_or_slug_exists_new; reflexivity.
Qed.

Lemma loop_covers (matches : list str) :
  forall st st1 : State,
    for_each matches
             (create_remaining o project sharedrepo branch slug_len name_len)
             st = (Ok tt, st1) ->
    self st1 = self st
    /\ dirs (world st1) = dirs (world st)
    /\ components (world st) `prefix_of` components (world st1)
    /\ Forall (fun match_ =>
                 exists formatted template : str,
                   format_string (name_template (self st)) match_ st
                   = (Ok formatted, st)
                   /\ format_string (base_file_template (self st)) match_ st
                      = (Ok template, st)
                   /\ name_or_slug_exists
                        project (Py.slice_to name_len formatted)
                        (Py.slice_to slug_len
                           (slugify (Py.slice_to name_len formatted)))
                        (components (world st1)) = true)
              matches.
Proof.
  induction matches as [| match_ rest IH]; intros st st1.
  - intros [= <-]. repeat split; [reflexivity | constructor].
  - cbn [for_each].
    destruct (create_remaining o project sharedrepo branch slug_len name_len
                               match_ st) as [[[] | e] st'] eqn:Hbody;
      [rewrite (bind_ok _ _ _ _ _ Hbody)
      | rewrite (bind_raise _ _ _ _ _ Hbody); discriminate].
    intros Hrest.
    destruct (create_remaining_covers _ _ _ Hbody)
      as (Hself & Hdirs & Hpre & formatted & template & Hn & Ht & Hex).
    destruct (IH _ _ Hrest) as (Hself' & Hdirs' & Hpre' & Hall).
    split; [congruence |]. split; [congruence |].
    split; [etrans; eassumption |].
    constructor.
    + exists formatted, template. split; [exact Hn |]. split; [exact Ht |].
      exact (name_or_slug_exists_grows _ _ _ _ _ Hpre' Hex).
    + apply (Forall_impl _ _ _ Hall).
      intros m (f & t & Hfn & Hft & Hfex). exists f, t.
      rewrite <- Hself.
      split; [exact (format_string_any _ _ _ _ _ Hfn) |].
      split; [exact (format_string_any _ _ _ _ _ Hft) | exact Hfex].
Qed.

Lemma loop_skips (matches : list str) :
  Options.duplicates o = false ->
  forall st : State,
    Forall (fun match_ =>
              exists formatted template : str,
                format_string (name_template (self st)) match_ st
                = (Ok formatted, st)
                /\ format_string (base_file_template (self st)) match_ st
                   = (Ok template, st)
                /\ name_or_slug_exists
                     project (Py.slice_to name_len formatted)
                     (Py.slice_to slug_len
                        (slugify (Py.slice_to name_len formatted)))
                     (components (world st)) = true)
           matches ->
    exists st' : State,
      for_each matches
               (create_remaining o project sharedrepo branch slug_len name_len)
               st = (Ok tt, st')
      /\ self st' = self st
      /\ components (world st') = components (world st)
      /\ dirs (world st') = dirs (world st)
      /\ length (log (world st')) = length (log (world st)) + length matches.
Proof.
  intros Hdup. induction matches as [| match_ rest IH]; intros st Hall.
  - exists st. repeat split. cbn. lia.
  - inversion Hall as [| m l (formatted & template & Hn & Ht & Hex) Hrest];
      subst.
    set (msg := py "Component " ++ Py.slice_to name_len formatted
                   ++ py " already exists, skipping").
    assert (Hbody : create_remaining o project sharedrepo branch slug_len
                                     name_len match_ st
                    = (Ok tt, logged WARNING msg st)).
    { unfold create_remaining.
      rewrite (bind_ok get_self _ st st (self st) eq_refl).
      rewrite (bind_ok _ _ _ _ _ Hn), (bind_ok _ _ _ _ _ Ht).
      rewrite (bind_ok get_world _ st st (world st) eq_refl).
      cbv zeta. rewrite Hex, Hdup. reflexivity. }
    destruct (IH (logged WARNING msg st)) as (st' & Hloop & Hs & Hc & Hd & Hl).
    { apply (Forall_impl _ _ _ Hrest).
      intros m (f & t & Hfn & Hft & Hfex). exists f, t.
      split; [exact (format_string_any _ _ _ _ _ Hfn) |].
      split; [exact (format_string_any _ _ _ _ _ Hft) | exact Hfex]. }
    exists st'. cbn [for_each]. rewrite (bind_ok _ _ _ _ _ Hbody).
    split; [exact Hloop |]. split; [exact Hs |]. split; [exact Hc |].
    split; [exact Hd |].
    rewrite Hl. cbn. rewrite length_app. cbn. lia.
Qed.

(** X19. Without [--no-skip-duplicates], the loop of [handle] run again
    on the same names, in the state it has left, raises nothing and adds
    no row: every name is skipped with a warning, and the disk is not
    touched. *)
Theorem remaining_loop_is_idempotent (matches : list str) (st st1 : State) :
  Options.duplicates o = false ->
  for_each matches
           (create_remaining o project sharedrepo branch slug_len name_len)
           st = (Ok tt, st1) ->
  exists st2 : State,
    for_each matches
             (create_remaining o project sharedrepo branch slug_len name_len)
             st1 = (Ok tt, st2)
    /\ components (world st2) = components (world st1)
    /\ dirs (world st2) = dirs (world st1)
    /\ length (log (world st2)) = length (log (world st1)) + length matches.
Proof.
  intros Hdup Hfirst.
  destruct (loop_covers _ _ _ Hfirst) as (Hself & _ & _ & Hall).
  destruct (loop_skips matches Hdup st1) as (st2 & Hloop & _ & Hc & Hd & Hl).
  { apply (Forall_impl _ _ _ Hall).
    intros m (f & t & Hfn & Hft & Hfex). exists f, t. rewrite Hself.
    split; [exact (format_string_any _ _ _ _ _ Hfn) |].
    split; [exact (format_string_any _ _ _ _ _ Hft) | exact Hfex]. }
  exists st2. repeat split; assumption.
Qed.

End LoopAgain.

(** The names [alpha] and [beta] on the shared repository of [alpha]:
    [beta] is created in the first run, and nothing in the second. *)
Lemma remaining_loop_is_idempotent_witness :
  let o := Demo.options (py "**/*.po") None false in
  let st := {| self := Demo.command (py "**/*.po");
               world := Demo.site_with_alpha |} in
  let loop := for_each [py "alpha"; py "beta"]
                       (@create_remaining Demo.platform o Demo.hello
                          (py "weblate://hello/alpha") (py "master") 100 100) in
  length (components (world (snd (loop st)))) = 2
  /\ exists st2 : State,
      loop (snd (loop st)) = (Ok tt, st2)
      /\ components (world st2) = components (world (snd (loop st))).
Proof.
  intros o st loop. split; [vm_compute; reflexivity |].
  destruct (@remaining_loop_is_idempotent Demo.platform o Demo.hello
              (py "weblate://hello/alpha") (py "master") 100 100
              [py "alpha"; py "beta"] st (snd (loop st)) eq_refl
              ltac:(vm_compute; reflexivity))
    as (st2 & Hloop & Hc & _).
  exists st2. split; [exact Hloop | exact Hc].
Defined.

(** * Further properties of the discovery form *)

Section DiscoveryFields.

Import AddonForms.

(** X20. [clean] only touches the three flags: every other field of the
    cleaned data is as it was, whether [clean] raises or not. The
    submitted [preview] flag is recorded under [show_preview] before
    anything can be raised. When [clean] raises nothing, it leaves
    [confirm] unset and [preview] the opposite of what was submitted;
    when it raises a validation error, [preview] and [confirm] are as
    they were submitted. *)
Theorem discovery_clean_touches_flags_only (d : gmap string value) :
  (forall key : string,
      key <> "show_preview"%string -> key <> "preview"%string ->
      key <> "confirm"%string ->
      snd (clean d) !! key = d !! key)
  /\ (forall preview : value,
         d !! "preview"%string = Some preview ->
         snd (clean d) !! "show_preview"%string = Some preview)
  /\ (fst (clean d) = None ->
      snd (clean d) !! "confirm"%string = Some (VBool false)
      /\ exists preview : value,
          d !! "preview"%string = Some preview
          /\ snd (clean d) !! "preview"%string
             = Some (VBool (negb (truthy preview))))
  /\ (forall msg : str,
         fst (clean d) = Some (ValidationError msg) ->
         snd (clean d) !! "preview"%string = d !! "preview"%string
         /\ snd (clean d) !! "confirm"%string = d !! "confirm"%string).
Proof.
  unfold clean.
  destruct (d !! "preview"%string) as [preview |] eqn:Hp.
  - destruct (truthy preview) eqn:Ht.
    + destruct (<["show_preview"%string := preview]> d !! "confirm"%string)
        as [confirm |] eqn:Hc.
      * destruct (truthy confirm); cbn [negb fst snd].
        -- split; [| split; [| split]].
           ++ intros key H1 H2 H3. rewrite !lookup_insert_ne by congruence.
              reflexivity.
           ++ intros v [= <-]. rewrite !lookup_insert_ne by discriminate.
              apply lookup_insert_eq.
           ++ intros _. split; [apply lookup_insert_eq |].
              exists preview. split; [reflexivity |].
              rewrite lookup_insert_ne by discriminate.
              rewrite lookup_insert_eq, Ht. reflexivity.
           ++ discriminate.
        -- split; [| split; [| split]].
           ++ intros key H1 H2 H3. rewrite !lookup_insert_ne by congruence.
              reflexivity.
           ++ intros v [= <-]. apply lookup_insert_eq.
           ++ discriminate.
           ++ intros msg _. rewrite !lookup_insert_ne by discriminate.
              split; [exact Hp | reflexivity].
      * cbn [fst snd]. split; [| split; [| split]].
        -- intros key H1 H2 H3. rewrite !lookup_insert_ne by congruence.
           reflexivity.
        -- intros v [= <-]. apply lookup_insert_eq.
        -- discriminate.
        -- discriminate.
    + cbn [fst snd]. split; [| split; [| split]].
      * intros key H1 H2 H3. rewrite !lookup_insert_ne by congruence.
        reflexivity.
      * intros v [= <-]. rewrite !lookup_insert_ne by discriminate.
        apply lookup_insert_eq.
      * intros _. split; [apply lookup_insert_eq |].
        exists preview. split; [reflexivity |].
        rewrite lookup_insert_ne by discriminate.
        rewrite lookup_insert_eq, Ht. reflexivity.
      * discriminate.
  - cbn [fst snd]. split; [| split; [| split]].
    + reflexivity.
    + discriminate.
    + discriminate.
    + discriminate.
Qed.

(** X21. The layout of a discovery form. A form that is not bound shows
    the six fields and the help. For a bound form that carries the two
    flags, the preview and, after it, the [confirm] field come before
    them exactly when the [preview] flag was submitted set, whether the
    submission was confirmed or not; no exception escapes. *)
Theorem discovery_layout_shows_preview (d : gmap string value)
        (preview confirm : value) :
  d !! "preview"%string = Some preview ->
  d !! "confirm"%string = Some confirm ->
  let base := [Field "match"; Field "file_format"; Field "name_template";
               Field "base_file_template"; Field "remove"; Field "preview";
               Div "addons/discovery_help.html"] in
  layout None = inr base
  /\ layout (Some d)
     = inr (if truthy preview
            then Div "addons/discovery_preview.html" :: Field "confirm" :: base
            else base)
  /\ (Field "confirm" ∈ (if truthy preview
                         then Div "addons/discovery_preview.html"
                                :: Field "confirm" :: base
                         else base)
      <-> truthy preview = true).
Proof.
  intros Hp Hc base. split; [reflexivity |]. split.
  - unfold layout, clean. rewrite Hp.
    rewrite (lookup_insert_ne d "show_preview" "confirm") by discriminate.
    rewrite Hc.
    destruct (truthy preview) eqn:Ht.
    + destruct (truthy confirm); cbn [negb].
      * rewrite !lookup_insert_ne by discriminate.
        rewrite lookup_insert_eq, Ht. reflexivity.
      * rewrite lookup_insert_eq, Ht. reflexivity.
    + rewrite !lookup_insert_ne by discriminate.
      rewrite lookup_insert_eq, Ht. reflexivity.
  - destruct (truthy preview).
    + split; [reflexivity |]. intros _. subst base.
      apply elem_of_cons. right. apply elem_of_cons. left. reflexivity.
    + split; [| discriminate]. subst base. intros Hin.
      repeat (apply elem_of_cons in Hin as [Hin | Hin]; [discriminate |]).
      inversion Hin.
Qed.

End DiscoveryFields.

(** A submission with the preview flag set and not confirmed: validation
    fails, and the form shows the preview and asks for confirmation. *)
Lemma discovery_layout_shows_preview_witness :
  AddonForms.layout
    (Some (<["preview"%string := AddonForms.VBool true]>
             (<["confirm"%string := AddonForms.VBool false]> ∅)))
  = inr [AddonForms.Div "addons/discovery_preview.html";
         AddonForms.Field "confirm"; AddonForms.Field "match";
         AddonForms.Field "file_format"; AddonForms.Field "name_template";
         AddonForms.Field "base_file_template"; AddonForms.Field "remove";
         AddonForms.Field "preview";
         AddonForms.Div "addons/discovery_help.html"].
Proof.
  exact (proj1 (proj2 (discovery_layout_shows_preview
                         (<["preview"%string := AddonForms.VBool true]>
                            (<["confirm"%string := AddonForms.VBool false]> ∅))
                         (AddonForms.VBool true) (AddonForms.VBool false)
                         eq_refl eq_refl))).
Defined.
